(** * Fitness backend (server.js): sync and resource store

    A shallow embedding of the request handlers of [server.js] and of the
    pieces of their runtime they rely on:

    - JavaScript values as [JSON.parse] builds them, with truthiness,
      [typeof], [Object.entries], property assignment on an object literal,
      [parseInt] and the comparison of a value with a number;
    - [JSON.stringify] and [JSON.parse] as a printer and a parser over
      bytes;
    - the SQLite engine: five tables as lists of rows, [INSERT OR REPLACE]
      on the UNIQUE keys, transactions, [LIMIT];
    - the sqlite3 driver: statements run in the order [db.run] was called,
      a callback runs after its statement, an error with no callback is an
      'error' event;
    - the handlers of /api/auth/register (on a body of strings, and on a
      body of any values), /api/sync, /api/nutrition, /api/workouts,
      /api/settings and /api/logs, a request at a time;
    - [authenticateToken], the handlers of /api/auth/login, /api/health and
      /api/admin/stats, and the application that puts the token check in
      front of the protected routes.

    The handlers of the store API are written for a request whose bearer
    token [authenticateToken] has accepted: it carries the [userId] and
    [email] of the token.  [application] runs the check itself. *)

From Stdlib Require Import String Ascii List ZArith Lia Bool Arith Permutation.
Import ListNotations.
Open Scope string_scope.
Open Scope list_scope.

(** ** Characters *)

Definition code (c : ascii) : N := N_of_ascii c.

(** The double quote, U+0022. *)
Definition dquote : ascii := Eval cbv in ascii_of_N 34.
(** The backslash, U+005C. *)
Definition bslash : ascii := Eval cbv in ascii_of_N 92.

Definition is_digit (c : ascii) : bool := ((48 <=? code c) && (code c <=? 57))%N.

Definition digit_val (c : ascii) : Z := Z.of_N (code c) - 48.

Definition digit_char (d : Z) : ascii := ascii_of_N (Z.to_N (48 + d)).

(** The number that digits write, most significant first. *)
Definition digits_value (ds : list ascii) : Z :=
  fold_left (fun acc c => 10 * acc + digit_val c)%Z ds 0%Z.

(** JSON white space: space, tab, line feed, carriage return. *)
Definition is_ws (c : ascii) : bool :=
  ((code c =? 32) || (code c =? 9) || (code c =? 10) || (code c =? 13))%N.

Fixpoint skip_ws (s : list ascii) : list ascii :=
  match s with
  | c :: r => if is_ws c then skip_ws r else s
  | [] => []
  end.

(** ** JavaScript values

    The values [JSON.parse] can build.  A number [JNum m fd] is the decimal
    [m / 10^fd] of the text and stands for the double that JavaScript rounds
    it to: two decimals that round to one double are one JavaScript number,
    and so are the two zeros, which [===] does not tell apart.
    What the program can tell of a number goes through that double: whether
    it is zero ([rounds_to_zero]), whether it is finite ([overflows]), how it
    compares ([below_six]).  A string is its UTF-8 bytes.  An object is the
    list of its own properties in the order in which [Object.entries],
    [JSON.stringify] and [res.json] go through them: the array indices
    first, in ascending order, then the other keys in the order of their
    creation ([set_prop] keeps a list so). *)

#[warnings="-register-all"]
Inductive jsval : Type :=
| JNull
| JBool (b : bool)
| JNum (m : Z) (fd : nat)
| JStr (s : string)
| JArr (l : list jsval)
| JObj (o : list (string * jsval)).

Definition jsobj : Type := list (string * jsval).

Definition JInt (n : Z) : jsval := JNum n 0.

(** [obj.k]: [None] is [undefined]. *)
Fixpoint get_prop (k : string) (o : jsobj) : option jsval :=
  match o with
  | [] => None
  | (k', v) :: r => if String.eqb k k' then Some v else get_prop k r
  end.

(** An array index: the canonical numeral of an integer from 0 to
    [2^32 - 2]. *)
Definition array_index (k : string) : option Z :=
  match list_ascii_of_string k with
  | [] => None
  | c :: r =>
      if forallb is_digit (c :: r)
         && (negb (Ascii.eqb c "0"%char)
             || match r with [] => true | _ :: _ => false end)
         && (digits_value (c :: r) <? 2 ^ 32 - 1)%Z
      then Some (digits_value (c :: r))
      else None
  end.

(** The place of a key among the own properties: an array index by its
    number, every other key behind them all. *)
Definition own_rank (k : string) : Z :=
  match array_index k with
  | Some n => n
  | None => (2 ^ 32)%Z
  end.

(** CreateDataProperty, as [JSON.parse] and object literals use it: an
    existing key keeps its place and takes the new value; a new array index
    goes before the first key of a higher place, any other new key to the
    end. *)
Fixpoint set_prop (k : string) (v : jsval) (o : jsobj) : jsobj :=
  match o with
  | [] => [(k, v)]
  | (k', v') :: r =>
      if String.eqb k k' then (k', v) :: r
      else if (own_rank k <? own_rank k')%Z then (k, v) :: o
      else (k', v') :: set_prop k v r
  end.

(** [obj[k] = v] on an object created by [{}].  The key [__proto__] is the
    accessor inherited from [Object.prototype]: the assignment changes the
    prototype (or nothing, for a primitive [v]) and creates no own property,
    so [Object.keys] and [res.json] never show it. *)
Definition js_assign (k : string) (v : jsval) (o : jsobj) : jsobj :=
  if String.eqb k "__proto__" then o else set_prop k v o.

(** The double of [m / 10^fd] is zero: the decimal is at most [2^-1075],
    half the least positive double (the tie goes to zero, the even one). *)
Definition rounds_to_zero (m : Z) (fd : nat) : bool :=
  (Z.abs m * 2 ^ 1075 <=? 10 ^ Z.of_nat fd)%Z.

(** The double of [m / 10^fd] is an infinity: the decimal is at least
    [2^1024 - 2^970], half way from the greatest double to [2^1024] (the
    tie goes up, to the even one). *)
Definition overflows (m : Z) (fd : nat) : bool :=
  ((2 ^ 1024 - 2 ^ 970) * 10 ^ Z.of_nat fd <=? Z.abs m)%Z.

(** [!v] is [negb (truthy v)]. *)
Definition truthy (v : jsval) : bool :=
  match v with
  | JNull => false
  | JBool b => b
  | JNum m fd => negb (rounds_to_zero m fd)
  | JStr s => negb (String.eqb s "")
  | JArr _ => true
  | JObj _ => true
  end.

Definition truthy_opt (v : option jsval) : bool :=
  match v with
  | None => false
  | Some v => truthy v
  end.

Definition js_typeof (v : option jsval) : string :=
  match v with
  | None => "undefined"
  | Some JNull => "object"
  | Some (JBool _) => "boolean"
  | Some (JNum _ _) => "number"
  | Some (JStr _) => "string"
  | Some (JArr _) => "object"
  | Some (JObj _) => "object"
  end.

(** ** Decimal digits *)

Fixpoint digits_fuel (fuel : nat) (n : Z) (acc : list ascii) : list ascii :=
  match fuel with
  | O => acc
  | S f =>
      let acc' := digit_char (n mod 10) :: acc in
      if (n <? 10)%Z then acc' else digits_fuel f (n / 10) acc'
  end.

(** The decimal digits of [n >= 0], most significant first, ["0"] for 0. *)
Definition digits (n : Z) : list ascii :=
  digits_fuel (S (Z.to_nat (Z.log2 n))) n [].

(** Template-literal interpolation of a count, [`${n}`]. *)
Definition nat_to_string (n : nat) : string :=
  string_of_list_ascii (digits (Z.of_nat n)).

(** The longest prefix of digits, and what follows it. *)
Fixpoint span_digits (s : list ascii) : list ascii * list ascii :=
  match s with
  | c :: r =>
      if is_digit c then let '(ds, rest) := span_digits r in (c :: ds, rest)
      else ([], s)
  | [] => ([], [])
  end.

(** ** JSON.stringify

    A number that is not finite is written [null].  A finite one is written
    with the digits of its decimal in positional notation; JavaScript writes
    the shortest digits of the double, in exponent form from 1e21 and below
    1e-6: another text of the same double, so that what is read back is the
    same number. *)

Definition hex_char (d : N) : ascii :=
  if (d <? 10)%N then ascii_of_N (48 + d) else ascii_of_N (87 + d).

Definition escape_char (c : ascii) : list ascii :=
  if Ascii.eqb c dquote then [bslash; dquote]
  else if Ascii.eqb c bslash then [bslash; bslash]
  else if (code c =? 8)%N then [bslash; "b"%char]
  else if (code c =? 12)%N then [bslash; "f"%char]
  else if (code c =? 10)%N then [bslash; "n"%char]
  else if (code c =? 13)%N then [bslash; "r"%char]
  else if (code c =? 9)%N then [bslash; "t"%char]
  else if (code c <? 32)%N then
    [bslash; "u"%char; "0"%char; "0"%char;
     hex_char (code c / 16); hex_char (code c mod 16)]
  else [c].

Definition quote_string (s : string) : list ascii :=
  dquote :: flat_map escape_char (list_ascii_of_string s) ++ [dquote].

Definition print_number (m : Z) (fd : nat) : list ascii :=
  let sign := if (m <? 0)%Z then ["-"%char] else [] in
  let ds := digits (Z.abs m) in
  let k := length ds in
  match fd with
  | O => sign ++ ds
  | S _ =>
      if (fd <? k)%nat
      then sign ++ firstn (k - fd) ds ++ "."%char :: skipn (k - fd) ds
      else sign ++ "0"%char :: "."%char :: repeat "0"%char (fd - k) ++ ds
  end.

(** Every item preceded by a comma; the caller drops the first one. *)
Definition print_seq {A : Type} (pr : A -> list ascii) : list A -> list ascii :=
  fix go (l : list A) : list ascii :=
    match l with
    | [] => []
    | x :: r => ","%char :: pr x ++ go r
    end.

Fixpoint print_value (v : jsval) : list ascii :=
  match v with
  | JNull => list_ascii_of_string "null"
  | JBool true => list_ascii_of_string "true"
  | JBool false => list_ascii_of_string "false"
  | JNum m fd =>
      if overflows m fd then list_ascii_of_string "null" else print_number m fd
  | JStr s => quote_string s
  | JArr l => "["%char :: tl (print_seq print_value l) ++ ["]"%char]
  | JObj o =>
      "{"%char ::
      tl (print_seq
            (fun kv => quote_string (fst kv) ++ ":"%char :: print_value (snd kv))
            o) ++ ["}"%char]
  end.

Definition JSON_stringify (v : jsval) : string :=
  string_of_list_ascii (print_value v).

(** ** JSON.parse

    A recursive-descent parser of the JSON grammar (ECMA-404).  [None] is
    the [SyntaxError] that [JSON.parse] throws. *)

Definition hex_val (c : ascii) : option N :=
  let n := code c in
  if is_digit c then Some (n - 48)%N
  else if ((97 <=? n) && (n <=? 102))%N then Some (n - 87)%N
  else if ((65 <=? n) && (n <=? 70))%N then Some (n - 55)%N
  else None.

Definition hex4 (a b c d : ascii) : option N :=
  match hex_val a, hex_val b, hex_val c, hex_val d with
  | Some x, Some y, Some z, Some w => Some (((x * 16 + y) * 16 + z) * 16 + w)%N
  | _, _, _, _ => None
  end.

(** UTF-8 of a code point; a lone surrogate gets its three-byte form. *)
Definition utf8_encode (cp : N) : list ascii :=
  (if cp <? 128 then [ascii_of_N cp]
   else if cp <? 2048 then
     [ascii_of_N (192 + cp / 64); ascii_of_N (128 + cp mod 64)]
   else if cp <? 65536 then
     [ascii_of_N (224 + cp / 4096); ascii_of_N (128 + (cp / 64) mod 64);
      ascii_of_N (128 + cp mod 64)]
   else
     [ascii_of_N (240 + cp / 262144); ascii_of_N (128 + (cp / 4096) mod 64);
      ascii_of_N (128 + (cp / 64) mod 64); ascii_of_N (128 + cp mod 64)])%N.

Definition unescape (e : ascii) : option ascii :=
  if Ascii.eqb e dquote then Some dquote
  else if Ascii.eqb e bslash then Some bslash
  else if Ascii.eqb e "/"%char then Some "/"%char
  else if Ascii.eqb e "b"%char then Some (ascii_of_N 8)
  else if Ascii.eqb e "f"%char then Some (ascii_of_N 12)
  else if Ascii.eqb e "n"%char then Some (ascii_of_N 10)
  else if Ascii.eqb e "r"%char then Some (ascii_of_N 13)
  else if Ascii.eqb e "t"%char then Some (ascii_of_N 9)
  else None.

(** The code point of a surrogate pair, when [hi] is a high surrogate and
    the text goes on with the escape of a low one. *)
Definition pair_ahead (hi : N) (s : list ascii) : option N :=
  if ((55296 <=? hi) && (hi <? 56320))%N then
    match s with
    | b :: u :: l1 :: l2 :: l3 :: l4 :: _ =>
        if Ascii.eqb b bslash && Ascii.eqb u "u"%char then
          match hex4 l1 l2 l3 l4 with
          | Some lo =>
              if ((56320 <=? lo) && (lo <? 57344))%N
              then Some (65536 + (hi - 55296) * 1024 + (lo - 56320))%N
              else None
          | None => None
          end
        else None
    | _ => None
    end
  else None.

Definition prepend {A B : Type} (l : list A) (r : option (list A * B))
  : option (list A * B) :=
  match r with
  | Some (l', rest) => Some (l ++ l', rest)
  | None => None
  end.

(** The characters of a string literal after its opening quote. *)
Fixpoint parse_string_body (s : list ascii) : option (list ascii * list ascii) :=
  match s with
  | [] => None
  | c :: r =>
      if Ascii.eqb c dquote then Some ([], r)
      else if Ascii.eqb c bslash then
        match r with
        | [] => None
        | e :: r1 =>
            if Ascii.eqb e "u"%char then
              match r1 with
              | h1 :: h2 :: h3 :: h4 :: r2 =>
                  match hex4 h1 h2 h3 h4 with
                  | None => None
                  | Some hi =>
                      match pair_ahead hi r2, r2 with
                      | Some cp, _ :: _ :: _ :: _ :: _ :: _ :: r3 =>
                          prepend (utf8_encode cp) (parse_string_body r3)
                      | _, _ => prepend (utf8_encode hi) (parse_string_body r2)
                      end
                  end
              | _ => None
              end
            else
              match unescape e with
              | Some ch => prepend [ch] (parse_string_body r1)
              | None => None
              end
        end
      else if (code c <? 32)%N then None
      else prepend [c] (parse_string_body r)
  end.

Definition parse_string (s : list ascii) : option (string * list ascii) :=
  match parse_string_body s with
  | Some (cs, rest) => Some (string_of_list_ascii cs, rest)
  | None => None
  end.

Definition parse_int_part (s : list ascii) : option (list ascii * list ascii) :=
  match s with
  | c :: r =>
      if Ascii.eqb c "0"%char then Some ([c], r)
      else if is_digit c then Some (span_digits s)
      else None
  | [] => None
  end.

Definition parse_fraction (s : list ascii) : option (list ascii * list ascii) :=
  match s with
  | c :: r =>
      if Ascii.eqb c "."%char then
        match span_digits r with
        | ([], _) => None
        | (ds, rest) => Some (ds, rest)
        end
      else Some ([], s)
  | [] => Some ([], [])
  end.

Definition parse_exponent (s : list ascii) : option (Z * list ascii) :=
  match s with
  | c :: r =>
      if Ascii.eqb c "e"%char || Ascii.eqb c "E"%char then
        let '(sign, r1) :=
          match r with
          | s1 :: r' =>
              if Ascii.eqb s1 "-"%char then ((-1)%Z, r')
              else if Ascii.eqb s1 "+"%char then (1%Z, r')
              else (1%Z, r)
          | [] => (1%Z, r)
          end in
        match span_digits r1 with
        | ([], _) => None
        | (ds, rest) => Some ((sign * digits_value ds)%Z, rest)
        end
      else Some (0%Z, s)
  | [] => Some (0%Z, [])
  end.

(** The fewest fraction digits: trailing zeros of the fraction go. *)
Fixpoint strip_zeros (m : Z) (fd : nat) : Z * nat :=
  match fd with
  | O => (m, O)
  | S fd' => if (m mod 10 =? 0)%Z then strip_zeros (m / 10) fd' else (m, fd)
  end.

Definition make_number (neg : bool) (ip fp : list ascii) (ex : Z) : jsval :=
  let mag := digits_value (ip ++ fp) in
  let e := (ex - Z.of_nat (length fp))%Z in
  let '(m, fd) :=
    if (0 <=? e)%Z then ((mag * 10 ^ e)%Z, O)
    else strip_zeros mag (Z.to_nat (- e)) in
  JNum (if neg then (- m)%Z else m) fd.

Definition parse_number (s : list ascii) : option (jsval * list ascii) :=
  let '(neg, s1) :=
    match s with
    | c :: r => if Ascii.eqb c "-"%char then (true, r) else (false, s)
    | [] => (false, s)
    end in
  match parse_int_part s1 with
  | None => None
  | Some (ip, s2) =>
      match parse_fraction s2 with
      | None => None
      | Some (fp, s3) =>
          match parse_exponent s3 with
          | None => None
          | Some (ex, s4) => Some (make_number neg ip fp ex, s4)
          end
      end
  end.

(** [s] goes on with the characters [w]. *)
Fixpoint expect (w s : list ascii) : option (list ascii) :=
  match w, s with
  | [], _ => Some s
  | a :: w', c :: s' => if Ascii.eqb a c then expect w' s' else None
  | _ :: _, [] => None
  end.

(** [JSON.parse] of a text with a repeated key keeps the last value. *)
Definition build_object (members : list (string * jsval)) : jsobj :=
  fold_left (fun o kv => set_prop (fst kv) (snd kv) o) members [].

Definition parse_member (pv : list ascii -> option (jsval * list ascii))
    (s : list ascii) : option ((string * jsval) * list ascii) :=
  match skip_ws s with
  | c :: r =>
      if Ascii.eqb c dquote then
        match parse_string r with
        | Some (k, rest) =>
            match skip_ws rest with
            | c2 :: r2 =>
                if Ascii.eqb c2 ":"%char then
                  match pv r2 with
                  | Some (v, rest') => Some ((k, v), rest')
                  | None => None
                  end
                else None
            | [] => None
            end
        | None => None
        end
      else None
  | [] => None
  end.

Fixpoint parse_value (fuel : nat) (s : list ascii) {struct fuel}
  : option (jsval * list ascii) :=
  match fuel with
  | O => None
  | S f =>
      match skip_ws s with
      | [] => None
      | c :: r =>
          if Ascii.eqb c "["%char then
            match skip_ws r with
            | [] => None
            | c' :: r' =>
                if Ascii.eqb c' "]"%char then Some (JArr [], r')
                else
                  match parse_value f (c' :: r') with
                  | Some (v, rest) =>
                      match parse_elements f rest with
                      | Some (vs, rest') => Some (JArr (v :: vs), rest')
                      | None => None
                      end
                  | None => None
                  end
            end
          else if Ascii.eqb c "{"%char then
            match skip_ws r with
            | [] => None
            | c' :: r' =>
                if Ascii.eqb c' "}"%char then Some (JObj [], r')
                else
                  match parse_member (parse_value f) (c' :: r') with
                  | Some (kv, rest) =>
                      match parse_members f rest with
                      | Some (kvs, rest') =>
                          Some (JObj (build_object (kv :: kvs)), rest')
                      | None => None
                      end
                  | None => None
                  end
            end
          else if Ascii.eqb c dquote then
            match parse_string r with
            | Some (str, rest) => Some (JStr str, rest)
            | None => None
            end
          else if Ascii.eqb c "t"%char then
            match expect (list_ascii_of_string "rue") r with
            | Some rest => Some (JBool true, rest)
            | None => None
            end
          else if Ascii.eqb c "f"%char then
            match expect (list_ascii_of_string "alse") r with
            | Some rest => Some (JBool false, rest)
            | None => None
            end
          else if Ascii.eqb c "n"%char then
            match expect (list_ascii_of_string "ull") r with
            | Some rest => Some (JNull, rest)
            | None => None
            end
          else parse_number (c :: r)
      end
  end
with parse_elements (fuel : nat) (s : list ascii) {struct fuel}
  : option (list jsval * list ascii) :=
  match fuel with
  | O => None
  | S f =>
      match skip_ws s with
      | [] => None
      | c :: r =>
          if Ascii.eqb c "]"%char then Some ([], r)
          else if Ascii.eqb c ","%char then
            match parse_value f r with
            | Some (v, rest) =>
                match parse_elements f rest with
                | Some (vs, rest') => Some (v :: vs, rest')
                | None => None
                end
            | None => None
            end
          else None
      end
  end
with parse_members (fuel : nat) (s : list ascii) {struct fuel}
  : option (list (string * jsval) * list ascii) :=
  match fuel with
  | O => None
  | S f =>
      match skip_ws s with
      | [] => None
      | c :: r =>
          if Ascii.eqb c "}"%char then Some ([], r)
          else if Ascii.eqb c ","%char then
            match parse_member (parse_value f) r with
            | Some (kv, rest) =>
                match parse_members f rest with
                | Some (kvs, rest') => Some (kv :: kvs, rest')
                | None => None
                end
            | None => None
            end
          else None
      end
  end.

(** The whole text is one value.  Every step down the fuel follows a
    character read, so the length of the text, and one, is fuel enough. *)
Definition JSON_parse (text : string) : option jsval :=
  let s := list_ascii_of_string text in
  match parse_value (S (length s)) s with
  | Some (v, rest) =>
      match skip_ws rest with
      | [] => Some v
      | _ :: _ => None
      end
  | None => None
  end.

(** ** More of the JavaScript runtime *)

(** [Object.entries] of a value that passed [v && typeof v === 'object']:
    the own properties of an object in their order, the indexed items of an
    array. *)
Fixpoint index_from (i : nat) (l : list jsval) : list (string * jsval) :=
  match l with
  | [] => []
  | x :: r => (nat_to_string i, x) :: index_from (S i) r
  end.

Definition Object_entries (v : jsval) : list (string * jsval) :=
  match v with
  | JObj o => o
  | JArr l => index_from 0 l
  | _ => []
  end.

(** [String.prototype.length] counts UTF-16 code units: one for each
    character of up to three UTF-8 bytes, two for a four-byte one. *)
Fixpoint utf16_length (s : string) : nat :=
  match s with
  | EmptyString => 0
  | String c r =>
      ((if (code c <? 128)%N then 1
        else if (code c <? 192)%N then 0
        else if (code c <? 240)%N then 1
        else 2) + utf16_length r)%nat
  end.

(** White space that [parseInt] and the conversion of a string to a number
    skip, in UTF-8: a character of one byte (TAB, LF, VT, FF, CR, SP), of
    two bytes (U+00A0) or of three (U+1680, U+2000 to U+200A, U+2028, U+2029,
    U+202F, U+205F, U+3000, U+FEFF). *)
Definition is_js_space (c : ascii) : bool :=
  (((9 <=? code c) && (code c <=? 13)) || (code c =? 32))%N.

Definition is_js_space2 (c1 c2 : ascii) : bool :=
  ((code c1 =? 194) && (code c2 =? 160))%N.

Definition is_js_space3 (c1 c2 c3 : ascii) : bool :=
  (((code c1 =? 225) && (code c2 =? 154) && (code c3 =? 128))
   || ((code c1 =? 226) && (code c2 =? 128)
       && (((128 <=? code c3) && (code c3 <=? 138))
           || (code c3 =? 168) || (code c3 =? 169) || (code c3 =? 175)))
   || ((code c1 =? 226) && (code c2 =? 129) && (code c3 =? 159))
   || ((code c1 =? 227) && (code c2 =? 128) && (code c3 =? 128))
   || ((code c1 =? 239) && (code c2 =? 187) && (code c3 =? 191)))%N.

Fixpoint skip_js_space (s : list ascii) : list ascii :=
  match s with
  | c1 :: r1 =>
      if is_js_space c1 then skip_js_space r1
      else
        match r1 with
        | c2 :: r2 =>
            if is_js_space2 c1 c2 then skip_js_space r2
            else
              match r2 with
              | c3 :: r3 => if is_js_space3 c1 c2 c3 then skip_js_space r3 else s
              | [] => s
              end
        | [] => s
        end
  | [] => []
  end.

(** The longest prefix of digits of the radix, valued; [None] when empty. *)
Fixpoint radix_prefix (radix : N) (acc : option Z) (s : list ascii) : option Z :=
  match s with
  | [] => acc
  | c :: r =>
      match hex_val c with
      | Some d =>
          if (d <? radix)%N then
            radix_prefix radix
              (Some (match acc with
                     | Some a => Z.of_N radix * a + Z.of_N d
                     | None => Z.of_N d
                     end)%Z) r
          else acc
      | None => acc
      end
  end.

(** [parseInt(x)] with no radix, for [x] a query-string value or
    [undefined]; [None] is [NaN].  The result is kept exact; JavaScript
    rounds it to a double beyond 2^53. *)
Definition parseInt (x : option string) : option Z :=
  match x with
  | None => None
  | Some str =>
      let s := skip_js_space (list_ascii_of_string str) in
      let '(neg, s1) :=
        match s with
        | c :: r =>
            if Ascii.eqb c "-"%char then (true, r)
            else if Ascii.eqb c "+"%char then (false, r)
            else (false, s)
        | [] => (false, s)
        end in
      let '(radix, s2) :=
        match s1 with
        | z :: x :: r =>
            if Ascii.eqb z "0"%char && (Ascii.eqb x "x"%char || Ascii.eqb x "X"%char)
            then (16%N, r) else (10%N, s1)
        | _ => (10%N, s1)
        end in
      match radix_prefix radix None s2 with
      | Some n => Some (if neg then (- n)%Z else n)
      | None => None
      end
  end.

(** The outcome of a call that can fail, with the message of the error. *)
Inductive result (A : Type) : Type :=
| Ok (a : A)
| Err (message : string).
Arguments Ok {A} a.
Arguments Err {A} message.

(** ** The comparison with a number

    [x < 6] converts [x] to a number first.  The result is NaN, an infinity,
    or the decimal [m * 10^e] of the text read, which stands for the double
    it rounds to. *)

Inductive jsnum : Type :=
| NaN
| Infinite (negative : bool)
| Decimal (m e : Z).

(** The longest prefix of digits of the radix, and what follows it. *)
Fixpoint span_radix (radix : N) (s : list ascii) : list N * list ascii :=
  match s with
  | c :: r =>
      match hex_val c with
      | Some d =>
          if (d <? radix)%N
          then let '(ds, rest) := span_radix radix r in (d :: ds, rest)
          else ([], s)
      | None => ([], s)
      end
  | [] => ([], [])
  end.

(** [0x1F], [0o17], [0b101]: a literal with a radix prefix takes no sign. *)
Definition radix_literal (s : list ascii) : option (Z * list ascii) :=
  match s with
  | z :: x :: r =>
      if Ascii.eqb z "0"%char then
        let radix :=
          if Ascii.eqb x "x"%char || Ascii.eqb x "X"%char then Some 16%N
          else if Ascii.eqb x "o"%char || Ascii.eqb x "O"%char then Some 8%N
          else if Ascii.eqb x "b"%char || Ascii.eqb x "B"%char then Some 2%N
          else None in
        match radix with
        | Some b =>
            match span_radix b r with
            | ([], _) => None
            | (ds, rest) =>
                Some (fold_left (fun a d => Z.of_N b * a + Z.of_N d)%Z ds 0%Z, rest)
            end
        | None => None
        end
      else None
  | _ => None
  end.

(** An optional sign, then [Infinity] or digits with an optional fraction
    and an optional exponent; one digit at least before or after the point.
    An exponent with no digit is not read, and is left in what follows. *)
Definition decimal_literal (s : list ascii) : option (jsnum * list ascii) :=
  let '(neg, s1) :=
    match s with
    | c :: r =>
        if Ascii.eqb c "-"%char then (true, r)
        else if Ascii.eqb c "+"%char then (false, r)
        else (false, s)
    | [] => (false, s)
    end in
  match expect (list_ascii_of_string "Infinity") s1 with
  | Some rest => Some (Infinite neg, rest)
  | None =>
      let '(ip, s2) := span_digits s1 in
      let '(fp, s3) :=
        match s2 with
        | c :: r => if Ascii.eqb c "."%char then span_digits r else ([], s2)
        | [] => ([], s2)
        end in
      match ip ++ fp with
      | [] => None
      | _ :: _ =>
          let '(ex, s4) :=
            match parse_exponent s3 with
            | Some p => p
            | None => (0%Z, s3)
            end in
          let mag := digits_value (ip ++ fp) in
          Some (Decimal (if neg then (- mag)%Z else mag)
                        (ex - Z.of_nat (length fp))%Z, s4)
      end
  end.

(** The conversion of a string: white space around one literal; the empty
    string and white space alone are 0; anything else is NaN. *)
Definition string_to_number (str : string) : jsnum :=
  match skip_js_space (list_ascii_of_string str) with
  | [] => Decimal 0 0
  | t =>
      let ended (rest : list ascii) : bool :=
        match skip_js_space rest with
        | [] => true
        | _ :: _ => false
        end in
      match radix_literal t with
      | Some (n, rest) => if ended rest then Decimal n 0 else NaN
      | None =>
          match decimal_literal t with
          | Some (n, rest) => if ended rest then n else NaN
          | None => NaN
          end
      end
  end.

(** An object of JSON has the [toString] of [Object.prototype], unless an
    own property of that name hides it; the value of that property is no
    function, and the conversion of the object to a primitive throws. *)
Definition hides_toString (o : jsobj) : bool :=
  match get_prop "toString" o with
  | Some _ => true
  | None => false
  end.

Definition primitive_error : string := "Cannot convert object to primitive value".

(** The conversion to a string throws: of such an object, and of an array
    with such an object among the items that [join] converts. *)
Fixpoint to_text_throws (v : jsval) : bool :=
  match v with
  | JObj o => hides_toString o
  | JArr l => existsb to_text_throws l
  | _ => false
  end.

(** [ToNumber].  An object goes through its string ([object Object], which
    reads as NaN), an array through the [join] of its items: the empty
    string for no item, the string of the item for one ([null] gives the
    empty string, a number its own text), a text with a comma for more. *)
Fixpoint to_number (v : jsval) : result jsnum :=
  match v with
  | JNull => Ok (Decimal 0 0)
  | JBool b => Ok (Decimal (if b then 1 else 0) 0)
  | JNum m fd => Ok (Decimal m (- Z.of_nat fd))
  | JStr s => Ok (string_to_number s)
  | JObj o => if hides_toString o then Err primitive_error else Ok NaN
  | JArr l =>
      match l with
      | [] => Ok (Decimal 0 0)
      | [x] =>
          match x with
          | JBool _ => Ok NaN
          | _ => to_number x
          end
      | _ :: _ :: _ =>
          if existsb to_text_throws l then Err primitive_error else Ok NaN
      end
  end.

(** [n < 6] on doubles.  The double of a decimal is below 6 when the
    decimal is below [6 - 2^-51], half way from the double before 6 to 6
    (the tie goes to 6, the even one). *)
Definition below_six (n : jsnum) : bool :=
  match n with
  | NaN => false
  | Infinite negative => negative
  | Decimal m e =>
      if (0 <=? e)%Z then (m * 10 ^ e * 2 ^ 51 <? 6 * 2 ^ 51 - 1)%Z
      else (m * 2 ^ 51 <? (6 * 2 ^ 51 - 1) * 10 ^ (- e))%Z
  end.

(** [password.length < 6] for a truthy [password]: the length of a string
    counts its UTF-16 code units, that of an array its items; a number and
    a boolean have none ([undefined < 6] is false); an object has the own
    property of that name, if any. *)
Definition password_too_short (password : jsval) : result bool :=
  match password with
  | JNull => Err "Cannot read properties of null (reading 'length')"
  | JBool _ | JNum _ _ => Ok false
  | JStr s => Ok (utf16_length s <? 6)%nat
  | JArr l => Ok (length l <? 6)%nat
  | JObj o =>
      match get_prop "length" o with
      | None => Ok false
      | Some v =>
          match to_number v with
          | Ok n => Ok (below_six n)
          | Err m => Err m
          end
      end
  end.

(** ** The SQLite engine

    Tables are lists of rows in insertion order.  A column that no handler
    reads ([users.created_at], [users.last_login], [created_at] of the data
    tables) is left out.  Foreign keys are declared
    in the schema and not enforced (SQLite enforces them only under
    [PRAGMA foreign_keys = ON], which the server never issues). *)

Inductive kind : Type := Nutrition | Workout.

Record user_row : Type := {
  usr_id : nat;
  usr_email : string;
  usr_password_hash : string;
  usr_name : string;
  usr_is_active : nat
}.

(** A row of [nutrition_data] or [workout_data]. *)
Record doc_row : Type := {
  doc_id : nat;
  doc_user_id : nat;
  doc_month_key : string;
  doc_data : string;
  doc_updated_at : string
}.

Record settings_row : Type := {
  set_id : nat;
  set_user_id : nat;
  set_settings : string;
  set_updated_at : string
}.

Record log_row : Type := {
  log_id : nat;
  log_user_id : option nat;
  log_action : string;
  log_details : string;
  log_ip_address : string;
  log_user_agent : option string;
  log_timestamp : string
}.

(** [seq] is the table's entry in [sqlite_sequence]: the largest rowid
    AUTOINCREMENT has handed out. *)
Record table (R : Type) : Type := {
  rows : list R;
  seq : nat
}.
Arguments rows {R} t.
Arguments seq {R} t.

Record database : Type := {
  users : table user_row;
  nutrition_data : table doc_row;
  workout_data : table doc_row;
  user_settings : table settings_row;
  activity_logs : table log_row
}.

(** A connection: what its statements see, and the state to go back to on
    ROLLBACK while a transaction is open. *)
Record engine : Type := {
  db : database;
  txn : option database
}.

Inductive sql : Type :=
| BEGIN_TRANSACTION
| COMMIT
| ROLLBACK
| InsertUser (email password_hash name : string)
| UpsertDoc (k : kind) (user_id : nat) (month_key data : string)
| UpsertSettings (user_id : nat) (settings : string)
| InsertLog (user_id : option nat) (action details ip_address : string)
    (user_agent : option string)
| SelectUserByEmail (email : string)
| SelectDocs (k : kind) (user_id : nat)
| SelectSettings (user_id : nat)
| SelectLogs (user_id : nat) (limit : Z).

(** What a handler takes from outside the program: the configuration, the
    two library calls of the authentication routes, the clock, and the
    faults of the storage engine.  [rejects q = Some message] when the
    engine fails statement [q] with that message and backs out that
    statement alone: SQLITE_BUSY or SQLITE_LOCKED while another connection
    holds the file, SQLITE_READONLY, a constraint.  The faults after which
    SQLite cancels the whole transaction by itself (SQLITE_FULL,
    SQLITE_IOERR, SQLITE_NOMEM) are not among them and are not part of the
    embedding. *)
Record runtime : Type := {
  NODE_ENV : string;
  bcrypt_hash : string -> result string;
  jwt_sign : nat -> string -> string;
  now_iso : string;
  current_timestamp : string;
  rejects : sql -> option string
}.

Definition next_rowid {R : Type} (id : R -> nat) (t : table R) : nat :=
  S (fold_right Nat.max (seq t) (map id (rows t))).

Definition doc_table (k : kind) (d : database) : table doc_row :=
  match k with
  | Nutrition => nutrition_data d
  | Workout => workout_data d
  end.

Definition set_doc_table (k : kind) (t : table doc_row) (d : database) : database :=
  match k with
  | Nutrition =>
      {| users := users d; nutrition_data := t; workout_data := workout_data d;
         user_settings := user_settings d; activity_logs := activity_logs d |}
  | Workout =>
      {| users := users d; nutrition_data := nutrition_data d; workout_data := t;
         user_settings := user_settings d; activity_logs := activity_logs d |}
  end.

(** [INSERT OR REPLACE] under [UNIQUE(user_id, month_key)]: the rows in
    conflict are deleted, the new row is appended with a fresh rowid. *)
Definition same_doc_key (u : nat) (mk : string) (r : doc_row) : bool :=
  Nat.eqb (doc_user_id r) u && String.eqb (doc_month_key r) mk.

Definition upsert_doc (now : string) (u : nat) (mk data : string)
    (t : table doc_row) : table doc_row * nat :=
  let id := next_rowid doc_id t in
  ({| rows := filter (fun r => negb (same_doc_key u mk r)) (rows t)
              ++ [{| doc_id := id; doc_user_id := u; doc_month_key := mk;
                     doc_data := data; doc_updated_at := now |}];
      seq := id |}, id).

(** [INSERT OR REPLACE] under [UNIQUE(user_id)]. *)
Definition upsert_settings (now : string) (u : nat) (s : string)
    (t : table settings_row) : table settings_row * nat :=
  let id := next_rowid set_id t in
  ({| rows := filter (fun r => negb (Nat.eqb (set_user_id r) u)) (rows t)
              ++ [{| set_id := id; set_user_id := u; set_settings := s;
                     set_updated_at := now |}];
      seq := id |}, id).

Definition insert_log (now : string) (u : option nat) (action details ip : string)
    (agent : option string) (t : table log_row) : table log_row * nat :=
  let id := next_rowid log_id t in
  ({| rows := rows t
              ++ [{| log_id := id; log_user_id := u; log_action := action;
                     log_details := details; log_ip_address := ip;
                     log_user_agent := agent; log_timestamp := now |}];
      seq := id |}, id).

Definition email_taken (email : string) (t : table user_row) : bool :=
  existsb (fun r => String.eqb (usr_email r) email) (rows t).

Definition insert_user (email hash name : string) (t : table user_row)
  : table user_row * nat :=
  let id := next_rowid usr_id t in
  ({| rows := rows t
              ++ [{| usr_id := id; usr_email := email; usr_password_hash := hash;
                     usr_name := name; usr_is_active := 1 |}];
      seq := id |}, id).

Definition with_db (e : engine) (d : database) : engine :=
  {| db := d; txn := txn e |}.

(** One statement of [db.run].  A statement that [rejects] fails changes
    nothing: the engine backs out the statement, and an open transaction
    stays open (so it is with SQLITE_BUSY, with which a COMMIT can also be
    tried again).  [Ok] carries [this.lastID].  The queries go through
    [db.get] and [db.all], further down. *)
Definition exec (w : runtime) (e : engine) (q : sql) : engine * result nat :=
  match rejects w q with
  | Some message => (e, Err message)
  | None =>
      let d := db e in
      match q with
      | BEGIN_TRANSACTION =>
          match txn e with
          | Some _ =>
              (e, Err "SQLITE_ERROR: cannot start a transaction within a transaction")
          | None => ({| db := d; txn := Some d |}, Ok 0)
          end
      | COMMIT =>
          match txn e with
          | Some _ => ({| db := d; txn := None |}, Ok 0)
          | None => (e, Err "SQLITE_ERROR: cannot commit - no transaction is active")
          end
      | ROLLBACK =>
          match txn e with
          | Some saved => ({| db := saved; txn := None |}, Ok 0)
          | None => (e, Err "SQLITE_ERROR: cannot rollback - no transaction is active")
          end
      | InsertUser email hash name =>
          if email_taken email (users d)
          then (e, Err "SQLITE_CONSTRAINT: UNIQUE constraint failed: users.email")
          else
            let '(t, id) := insert_user email hash name (users d) in
            (with_db e
               {| users := t; nutrition_data := nutrition_data d;
                  workout_data := workout_data d; user_settings := user_settings d;
                  activity_logs := activity_logs d |}, Ok id)
      | UpsertDoc k u mk data =>
          let '(t, id) := upsert_doc (current_timestamp w) u mk data (doc_table k d) in
          (with_db e (set_doc_table k t d), Ok id)
      | UpsertSettings u s =>
          let '(t, id) := upsert_settings (current_timestamp w) u s (user_settings d) in
          (with_db e
             {| users := users d; nutrition_data := nutrition_data d;
                workout_data := workout_data d; user_settings := t;
                activity_logs := activity_logs d |}, Ok id)
      | InsertLog u action details ip agent =>
          let '(t, id) :=
            insert_log (current_timestamp w) u action details ip agent
              (activity_logs d) in
          (with_db e
             {| users := users d; nutrition_data := nutrition_data d;
                workout_data := workout_data d; user_settings := user_settings d;
                activity_logs := t |}, Ok id)
      | SelectUserByEmail _ | SelectDocs _ _ | SelectSettings _ | SelectLogs _ _ =>
          (e, Ok 0)
      end
  end.

(** [ORDER BY key DESC], byte order; rows with equal keys keep their
    insertion order. *)
Fixpoint insert_desc {R : Type} (key : R -> string) (x : R) (l : list R) : list R :=
  match l with
  | [] => [x]
  | y :: r =>
      if String.ltb (key x) (key y) then y :: insert_desc key x r else x :: y :: r
  end.

Definition order_by_desc {R : Type} (key : R -> string) (l : list R) : list R :=
  fold_right (insert_desc key) [] l.

(** [LIMIT n]: SQLite puts no upper bound on the rows when [n] is negative.
    (A bound that is no 64-bit integer fails the statement; the handler's
    bound is at most 100, and nothing is stated here of one below -2^53.) *)
Definition sql_limit {R : Type} (n : Z) (l : list R) : list R :=
  if (n <? 0)%Z then l else firstn (Z.to_nat n) l.

(** [SELECT month_key, data, updated_at FROM <kind>_data WHERE user_id = ?
    ORDER BY month_key DESC] through [db.all]. *)
Definition db_all_docs (w : runtime) (e : engine) (k : kind) (u : nat)
  : result (list doc_row) :=
  match rejects w (SelectDocs k u) with
  | Some message => Err message
  | None =>
      Ok (order_by_desc doc_month_key
            (filter (fun r => Nat.eqb (doc_user_id r) u) (rows (doc_table k (db e)))))
  end.

(** [SELECT settings FROM user_settings WHERE user_id = ?] through [db.get]:
    the first row, if any. *)
Definition db_get_settings (w : runtime) (e : engine) (u : nat)
  : result (option settings_row) :=
  match rejects w (SelectSettings u) with
  | Some message => Err message
  | None => Ok (find (fun r => Nat.eqb (set_user_id r) u) (rows (user_settings (db e))))
  end.

(** [SELECT id FROM users WHERE email = ?] through [db.get]. *)
Definition db_get_user_by_email (w : runtime) (e : engine) (email : string)
  : result (option user_row) :=
  match rejects w (SelectUserByEmail email) with
  | Some message => Err message
  | None => Ok (find (fun r => String.eqb (usr_email r) email) (rows (users (db e))))
  end.

Definition log_of_user (u : nat) (r : log_row) : bool :=
  match log_user_id r with
  | Some u' => Nat.eqb u' u
  | None => false
  end.

(** [SELECT action, details, timestamp FROM activity_logs WHERE user_id = ?
    ORDER BY timestamp DESC LIMIT ?] through [db.all]. *)
Definition db_all_logs (w : runtime) (e : engine) (u : nat) (limit : Z)
  : result (list log_row) :=
  match rejects w (SelectLogs u limit) with
  | Some message => Err message
  | None =>
      Ok (sql_limit limit
            (order_by_desc log_timestamp
               (filter (log_of_user u) (rows (activity_logs (db e))))))
  end.

(** ** Requests and responses *)

(** [req.ip] and [req.get('User-Agent')]. *)
Record client : Type := {
  ip : string;
  user_agent : option string
}.

(** [req.user], the payload of the verified bearer token. *)
Record token : Type := {
  userId : nat;
  email : string
}.

(** [res.status(status).json(body)]. *)
Record response : Type := {
  status : nat;
  body : jsval
}.

Definition json (st : nat) (o : jsobj) : response :=
  {| status := st; body := JObj o |}.

Definition error_code (r : response) : option jsval :=
  match body r with
  | JObj o => get_prop "code" o
  | _ => None
  end.

Definition handleError (w : runtime) (error_message message : string) : response :=
  json 500
    ([("error", JStr message); ("code", JStr "INTERNAL_ERROR")]
     ++ (if String.eqb (NODE_ENV w) "development"
         then [("details", JStr error_message)] else [])).

(** [db.run] with no callback: the outcome of the insert is not looked at. *)
Definition logActivity (w : runtime) (e : engine) (u : option nat)
    (action details : string) (c : client) : engine :=
  fst (exec w e (InsertLog u action details (ip c) (user_agent c))).

(** ** POST /api/auth/register, on strings

    The body of a registration whose fields, when present, are strings:
    [!email] holds of an absent field and of the empty string.  The handler
    on a body of any values is [post_auth_register], further down; on these
    bodies the two are one. *)
Record register_body : Type := {
  reg_email : option string;
  reg_password : option string;
  reg_name : option string
}.

Definition post_register (w : runtime) (e : engine) (c : client)
    (b : register_body) : engine * response :=
  match reg_email b, reg_password b with
  | Some em, Some pw =>
      if String.eqb em "" || String.eqb pw "" then
        (e, json 400 [("error", JStr "Email e password sono richiesti");
                      ("code", JStr "MISSING_FIELDS")])
      else if (utf16_length pw <? 6)%nat then
        (e, json 400 [("error", JStr "La password deve avere almeno 6 caratteri");
                      ("code", JStr "PASSWORD_TOO_SHORT")])
      else
        match db_get_user_by_email w e em with
        | Err m => (e, handleError w m "Errore controllo utente esistente")
        | Ok (Some _) =>
            (e, json 400 [("error", JStr "Email già registrata");
                          ("code", JStr "EMAIL_EXISTS")])
        | Ok None =>
            match bcrypt_hash w pw with
            | Err m => (e, handleError w m "Errore nella generazione password")
            | Ok hash =>
                let name := match reg_name b with Some n => n | None => "" end in
                let '(e1, res) := exec w e (InsertUser em hash name) in
                match res with
                | Err m => (e1, handleError w m "Errore nella creazione utente")
                | Ok id =>
                    let shown_name :=
                      match reg_name b with
                      | Some n => [("name", JStr n)]
                      | None => []
                      end in
                    (logActivity w e1 (Some id) "REGISTER" "Nuovo utente registrato" c,
                     json 201
                       [("message", JStr "Registrazione completata con successo");
                        ("token", JStr (jwt_sign w id em));
                        ("user", JObj ([("id", JInt (Z.of_nat id)); ("email", JStr em)]
                                       ++ shown_name))])
                end
            end
        end
  | _, _ =>
      (e, json 400 [("error", JStr "Email e password sono richiesti");
                    ("code", JStr "MISSING_FIELDS")])
  end.

(** ** Reading documents and settings *)

(** [rows.forEach(row => { try { data[row.month_key] = JSON.parse(row.data) }
    catch (parseErr) { log(...) } })] from [const data = {}]. *)
Definition build_docs (rs : list doc_row) : jsobj :=
  fold_left
    (fun data row =>
       match JSON_parse (doc_data row) with
       | Some v => js_assign (doc_month_key row) v data
       | None => data
       end)
    rs [].

Definition default_settings : jsval :=
  JObj [("height", JInt 177); ("targetBodyFat", JInt 15); ("currentBodyFat", JInt 22)].

(** [row ? JSON.parse(row.settings) : {...}] with the defaults again in the
    [catch]. *)
Definition read_settings (row : option settings_row) : jsval :=
  match row with
  | Some r =>
      match JSON_parse (set_settings r) with
      | Some v => v
      | None => default_settings
      end
  | None => default_settings
  end.

Definition kind_name (k : kind) : string :=
  match k with
  | Nutrition => "nutrition"
  | Workout => "workouts"
  end.

(** GET /api/sync.  [Promise.all] fails with the first query that fails. *)
Definition get_sync (w : runtime) (e : engine) (c : client) (t : token)
  : engine * response :=
  let u := userId t in
  let fail m :=
    (logActivity w e (Some u) "SYNC_ERROR" m c,
     handleError w m "Errore nella sincronizzazione") in
  match db_all_docs w e Nutrition u with
  | Err m => fail m
  | Ok nrows =>
      match db_all_docs w e Workout u with
      | Err m => fail m
      | Ok wrows =>
          match db_get_settings w e u with
          | Err m => fail m
          | Ok srow =>
              let nutrition := build_docs nrows in
              let workouts := build_docs wrows in
              (logActivity w e (Some u) "SYNC_GET"
                 (String.append "Retrieved "
                    (String.append (nat_to_string (length nutrition))
                       (String.append " nutrition months, "
                          (String.append (nat_to_string (length workouts))
                             " workout months")))) c,
               json 200
                 [("nutrition", JObj nutrition);
                  ("workouts", JObj workouts);
                  ("settings", read_settings srow);
                  ("lastSync", JStr (now_iso w));
                  ("user", JObj [("id", JInt (Z.of_nat u)); ("email", JStr (email t))])])
          end
      end
  end.

(** GET /api/nutrition and GET /api/workouts. *)
Definition get_docs (k : kind) (w : runtime) (e : engine) (t : token)
  : engine * response :=
  match db_all_docs w e k (userId t) with
  | Err m =>
      (e, handleError w m
            match k with
            | Nutrition => "Errore recupero dati nutrizionali"
            | Workout => "Errore recupero dati allenamenti"
            end)
  | Ok rs => (e, json 200 [(kind_name k, JObj (build_docs rs))])
  end.

(** GET /api/settings. *)
Definition get_settings (w : runtime) (e : engine) (t : token) : engine * response :=
  match db_get_settings w e (userId t) with
  | Err m => (e, handleError w m "Errore recupero impostazioni")
  | Ok row => (e, json 200 [("settings", read_settings row)])
  end.

(** ** Writing one document *)

(** POST /api/nutrition/:monthKey and POST /api/workouts/:monthKey. *)
Definition post_doc (k : kind) (w : runtime) (e : engine) (c : client) (t : token)
    (monthKey : string) (req_body : jsobj) : engine * response :=
  let data := get_prop "data" req_body in
  match data with
  | Some d =>
      if truthy d then
        let '(e1, res) := exec w e (UpsertDoc k (userId t) monthKey (JSON_stringify d)) in
        match res with
        | Err m =>
            (e1, handleError w m
                   match k with
                   | Nutrition => "Errore salvataggio dati nutrizionali"
                   | Workout => "Errore salvataggio dati allenamenti"
                   end)
        | Ok lastID =>
            (logActivity w e1 (Some (userId t))
               match k with Nutrition => "NUTRITION_SAVE" | Workout => "WORKOUT_SAVE" end
               (String.append
                  match k with
                  | Nutrition => "Saved nutrition data for "
                  | Workout => "Saved workout data for "
                  end monthKey) c,
             json 200
               [("message",
                 JStr match k with
                      | Nutrition => "Dati nutrizionali salvati"
                      | Workout => "Dati allenamenti salvati"
                      end);
                ("monthKey", JStr monthKey);
                ("rowId", JInt (Z.of_nat lastID))])
        end
      else
        (e, json 400
              [("error",
                JStr match k with
                     | Nutrition => "Dati nutrizionali richiesti"
                     | Workout => "Dati allenamenti richiesti"
                     end);
               ("code", JStr "MISSING_DATA")])
  | None =>
      (e, json 400
            [("error",
              JStr match k with
                   | Nutrition => "Dati nutrizionali richiesti"
                   | Workout => "Dati allenamenti richiesti"
                   end);
             ("code", JStr "MISSING_DATA")])
  end.

(** POST /api/settings. *)
Definition post_settings (w : runtime) (e : engine) (c : client) (t : token)
    (req_body : jsobj) : engine * response :=
  match get_prop "settings" req_body with
  | Some s =>
      if truthy s then
        let '(e1, res) := exec w e (UpsertSettings (userId t) (JSON_stringify s)) in
        match res with
        | Err m => (e1, handleError w m "Errore salvataggio impostazioni")
        | Ok lastID =>
            (logActivity w e1 (Some (userId t)) "SETTINGS_SAVE" "Settings updated" c,
             json 200 [("message", JStr "Impostazioni salvate");
                       ("rowId", JInt (Z.of_nat lastID))])
        end
      else
        (e, json 400 [("error", JStr "Impostazioni richieste");
                      ("code", JStr "MISSING_SETTINGS")])
  | None =>
      (e, json 400 [("error", JStr "Impostazioni richieste");
                    ("code", JStr "MISSING_SETTINGS")])
  end.

(** ** POST /api/sync

    The handler calls [db.run] for BEGIN, for every upsert and for COMMIT
    inside one [db.serialize] block, before any statement has run; the
    driver runs the statements in that order and calls the callback of each
    one after it.  A statement that a callback issues ([ROLLBACK], the
    activity log) is queued behind the statements already waiting, COMMIT
    among them. *)

(** [hasError], [operationsCount], and the response once sent. *)
Record sync_state : Type := {
  hasError : bool;
  operationsCount : nat;
  sent : option response
}.

Inductive callback : Type :=
| NoCallback
| UpsertCallback
| CommitCallback.

Definition handleTransactionError (w : runtime) (c : client) (t : token)
    (message : string) (st : sync_state) : sync_state * list sql :=
  if hasError st then (st, [])
  else
    ({| hasError := true; operationsCount := operationsCount st;
        sent := Some (handleError w message "Errore nel salvataggio bulk") |},
     [ROLLBACK;
      InsertLog (Some (userId t)) "SYNC_SAVE_ERROR" message (ip c) (user_agent c)]).

Definition count_operation (st : sync_state) : sync_state :=
  {| hasError := hasError st; operationsCount := S (operationsCount st);
     sent := sent st |}.

(** A callback on the outcome of its statement: the new state of the
    handler and the statements it issues. *)
Definition run_callback (w : runtime) (c : client) (t : token) (cb : callback)
    (res : result nat) (st : sync_state) : sync_state * list sql :=
  match cb with
  | NoCallback => (st, [])
  | UpsertCallback =>
      match res with
      | Err m =>
          if negb (hasError st) then handleTransactionError w c t m st
          else (count_operation st, [])
      | Ok _ => (count_operation st, [])
      end
  | CommitCallback =>
      match res with
      | Err m =>
          if negb (hasError st) then handleTransactionError w c t m st
          else (st, [])
      | Ok _ =>
          if negb (hasError st) then
            ({| hasError := hasError st; operationsCount := operationsCount st;
                sent :=
                  Some (json 200
                          [("message", JStr "Sincronizzazione completata");
                           ("operations", JInt (Z.of_nat (operationsCount st)));
                           ("timestamp", JStr (now_iso w))]) |},
             [InsertLog (Some (userId t)) "SYNC_SAVE"
                (String.append "Saved "
                   (String.append (nat_to_string (operationsCount st)) " items"))
                (ip c) (user_agent c)])
          else (st, [])
      end
  end.

(** [x && typeof x === 'object']. *)
Definition is_object (v : option jsval) : bool :=
  truthy_opt v && String.eqb (js_typeof v) "object".

(** The entries of a section that passes the guard, none otherwise. *)
Definition section_entries (v : option jsval) : list (string * jsval) :=
  match v with
  | Some x => if is_object v then Object_entries x else []
  | None => []
  end.

Definition doc_upserts (k : kind) (u : nat) (section : option jsval)
  : list (sql * callback) :=
  map (fun kv => (UpsertDoc k u (fst kv) (JSON_stringify (snd kv)), UpsertCallback))
      (section_entries section).

Definition settings_upsert (u : nat) (section : option jsval) : list (sql * callback) :=
  match section with
  | Some x =>
      if is_object section then [(UpsertSettings u (JSON_stringify x), UpsertCallback)]
      else []
  | None => []
  end.

(** The statements of one call, in the order the handler issues them. *)
Definition sync_statements (u : nat) (req_body : jsobj) : list (sql * callback) :=
  (BEGIN_TRANSACTION, NoCallback)
  :: doc_upserts Nutrition u (get_prop "nutrition" req_body)
  ++ doc_upserts Workout u (get_prop "workouts" req_body)
  ++ settings_upsert u (get_prop "settings" req_body)
  ++ [(COMMIT, CommitCallback)].

(** The driver: the waiting statements run in order, each followed by its
    callback; [late] collects what the callbacks issue. *)
Fixpoint drain (w : runtime) (c : client) (t : token) (queue : list (sql * callback))
    (late : list sql) (e : engine) (st : sync_state)
  : engine * sync_state * list sql :=
  match queue with
  | [] => (e, st, late)
  | (q, cb) :: rest =>
      let '(e1, res) := exec w e q in
      let '(st1, more) := run_callback w c t cb res st in
      drain w c t rest (late ++ more) e1 st1
  end.

(** The statements issued by callbacks have no callback of their own: an
    error of one of them has nowhere to go in the handler.  [run_late] is
    the store after them; [late_errors] are the errors they leave. *)
Definition run_late (w : runtime) (e : engine) (late : list sql) : engine :=
  fold_left (fun e q => fst (exec w e q)) late e.

Fixpoint late_errors (w : runtime) (e : engine) (late : list sql) : list string :=
  match late with
  | [] => []
  | q :: rest =>
      let '(e1, res) := exec w e q in
      match res with
      | Err m => m :: late_errors w e1 rest
      | Ok _ => late_errors w e1 rest
      end
  end.

Definition post_sync (w : runtime) (e : engine) (c : client) (t : token)
    (req_body : jsobj) : engine * option response :=
  let '(e1, st, late) :=
    drain w c t (sync_statements (userId t) req_body) [] e
      {| hasError := false; operationsCount := 0; sent := None |} in
  (run_late w e1 late, sent st).

(** The errors of a call that no callback takes: that of BEGIN TRANSACTION,
    and those of the statements the callbacks issue.  The driver raises each
    as an 'error' event of the statement; the program listens to none, so
    the first of them ends the process.  What was committed before it stays
    in the database file. *)
Definition error_events (w : runtime) (e : engine) (c : client) (t : token)
    (req_body : jsobj) : list string :=
  let '(e1, st, late) :=
    drain w c t (sync_statements (userId t) req_body) [] e
      {| hasError := false; operationsCount := 0; sent := None |} in
  match snd (exec w e BEGIN_TRANSACTION) with
  | Err m => [m]
  | Ok _ => []
  end ++ late_errors w e1 late.

(** ** GET /api/logs *)

(** [Math.min(parseInt(req.query.limit) || 50, 100)]: [NaN] and 0 are
    falsy. *)
Definition logs_limit (q : option string) : Z :=
  Z.min
    match parseInt q with
    | Some n => if (n =? 0)%Z then 50%Z else n
    | None => 50%Z
    end 100.

Definition log_json (r : log_row) : jsval :=
  JObj [("action", JStr (log_action r)); ("details", JStr (log_details r));
        ("timestamp", JStr (log_timestamp r))].

Definition get_logs (w : runtime) (e : engine) (t : token) (limit : option string)
  : engine * response :=
  match db_all_logs w e (userId t) (logs_limit limit) with
  | Err m => (e, handleError w m "Errore recupero logs")
  | Ok rs => (e, json 200 [("logs", JArr (map log_json rs))])
  end.

(** The rows a response of GET /api/logs carries. *)
Definition logs_returned (r : response) : option (list jsval) :=
  match body r with
  | JObj o =>
      match get_prop "logs" o with
      | Some (JArr l) => Some l
      | _ => None
      end
  | _ => None
  end.

(** ** The service, a request at a time *)

Inductive api_call : Type :=
| Register (b : register_body)
| GetSync
| PostSync (req_body : jsobj)
| GetDocs (k : kind)
| PostDoc (k : kind) (monthKey : string) (req_body : jsobj)
| GetSettings
| PostSettings (req_body : jsobj)
| GetLogs (limit : option string).

Record request : Type := {
  from : client;
  user : token;
  call : api_call
}.

Definition some_response (p : engine * response) : engine * option response :=
  (fst p, Some (snd p)).

Definition handle (w : runtime) (e : engine) (r : request) : engine * option response :=
  match call r with
  | Register b => some_response (post_register w e (from r) b)
  | GetSync => some_response (get_sync w e (from r) (user r))
  | PostSync req_body => post_sync w e (from r) (user r) req_body
  | GetDocs k => some_response (get_docs k w e (user r))
  | PostDoc k monthKey req_body =>
      some_response (post_doc k w e (from r) (user r) monthKey req_body)
  | GetSettings => some_response (get_settings w e (user r))
  | PostSettings req_body => some_response (post_settings w e (from r) (user r) req_body)
  | GetLogs limit => some_response (get_logs w e (user r) limit)
  end.

(** A run of the service: each request with the runtime it meets. *)
Definition serve (e : engine) (trace : list (runtime * request)) : engine :=
  fold_left (fun e wr => fst (handle (fst wr) e (snd wr))) trace e.

(** A storage engine with no fault of its own. *)
Definition healthy (w : runtime) : Prop := forall q, rejects w q = None.

(** ** The token check, login, health and statistics

    What these routes take from outside, on top of [runtime]: the two
    library calls [jwt.verify] and [bcrypt.compare], [process.uptime()],
    SQLite's [DATE] function with the value of [DATE('now')], and the faults
    of the queries the routes run.  For a registration whose fields are not
    strings: the text a TEXT column takes for a bound parameter that is no
    string ([sql_text]: the numeral of a number, 1 or 0 for a boolean, what
    the driver makes of an array or an object), [jwt.sign] on a payload
    whose email is no string, and the message with which [bcrypt.hash]
    refuses data that is no string. *)

Inductive query : Type :=
| SelectActiveUser (email : string)
| CountUsers
| SelectStats.

Record host : Type := {
  rt : runtime;
  jwt_verify : string -> result token;
  bcrypt_compare : string -> string -> result bool;
  process_uptime : Z * nat;
  sql_date : string -> option string;
  today : string;
  fails : query -> option string;
  sql_text : jsval -> string;
  jwt_sign_value : nat -> jsval -> string;
  bcrypt_type_error : string
}.

(** [s.split(sep)] for a separator of one character: the fields between
    the separators, empty ones included. *)
Fixpoint split (sep : ascii) (s : string) : list string :=
  match s with
  | EmptyString => [EmptyString]
  | String c r =>
      if Ascii.eqb c sep then EmptyString :: split sep r
      else
        match split sep r with
        | f :: fs => String c f :: fs
        | [] => [String c EmptyString]
        end
  end.

(** [authHeader && authHeader.split(' ')[1]]: [None] is [undefined]; an
    empty header is falsy and is the value of the conjunction. *)
Definition header_token (authHeader : option string) : option string :=
  match authHeader with
  | Some a => if String.eqb a "" then Some a else nth_error (split " " a) 1
  | None => None
  end.

Definition no_token : response :=
  json 401 [("error", JStr "Token di accesso richiesto"); ("code", JStr "NO_TOKEN")].

Definition invalid_token : response :=
  json 403 [("error", JStr "Token non valido o scaduto"); ("code", JStr "INVALID_TOKEN")].

(** The middleware: the response it sends, or the payload of the token it
    hands to the route as [req.user]. *)
Definition authenticateToken (h : host) (authHeader : option string)
  : response + token :=
  match header_token authHeader with
  | Some tk =>
      if String.eqb tk "" then inl no_token
      else
        match jwt_verify h tk with
        | Err _ => inl invalid_token
        | Ok user => inr user
        end
  | None => inl no_token
  end.

(** [SELECT * FROM users WHERE email = ? AND is_active = 1] through
    [db.get]. *)
Definition db_get_active_user (h : host) (e : engine) (email : string)
  : result (option user_row) :=
  match fails h (SelectActiveUser email) with
  | Some message => Err message
  | None =>
      Ok (find (fun r => String.eqb (usr_email r) email && Nat.eqb (usr_is_active r) 1)
            (rows (users (db e))))
  end.

(** ** POST /api/auth/login

    The fields of the body, when present, are strings, as for the
    registration.  After a password that matches the handler runs
    [UPDATE users SET last_login = CURRENT_TIMESTAMP WHERE id = ?] with no
    callback: the statement writes a column that [user_row] leaves out and
    its outcome is not looked at, so it leaves the embedded store as it
    is. *)
Record login_body : Type := {
  login_email : option string;
  login_password : option string
}.

Definition post_login (h : host) (e : engine) (c : client) (b : login_body)
  : engine * response :=
  let w := rt h in
  let invalid :=
    json 400 [("error", JStr "Credenziali non valide");
              ("code", JStr "INVALID_CREDENTIALS")] in
  match login_email b, login_password b with
  | Some em, Some pw =>
      if String.eqb em "" || String.eqb pw "" then
        (e, json 400 [("error", JStr "Email e password sono richiesti");
                      ("code", JStr "MISSING_FIELDS")])
      else
        match db_get_active_user h e em with
        | Err m => (e, handleError w m "Errore controllo credenziali")
        | Ok None =>
            (logActivity w e None "LOGIN_FAILED"
               (String.append "Email not found: " em) c,
             invalid)
        | Ok (Some user) =>
            match bcrypt_compare h pw (usr_password_hash user) with
            | Err m => (e, handleError w m "Errore verifica password")
            | Ok false =>
                (logActivity w e (Some (usr_id user)) "LOGIN_FAILED"
                   "Password sbagliata" c,
                 invalid)
            | Ok true =>
                (logActivity w e (Some (usr_id user)) "LOGIN" "Login completato" c,
                 json 200
                   [("message", JStr "Login completato");
                    ("token", JStr (jwt_sign w (usr_id user) (usr_email user)));
                    ("user", JObj [("id", JInt (Z.of_nat (usr_id user)));
                                   ("email", JStr (usr_email user));
                                   ("name", JStr (usr_name user))])])
            end
        end
  | _, _ =>
      (e, json 400 [("error", JStr "Email e password sono richiesti");
                    ("code", JStr "MISSING_FIELDS")])
  end.

(** ** POST /api/auth/register, whatever the body holds

    [req.body] as [express.json] or [express.urlencoded] built it: an
    object whose properties are any values (a body that is an array has
    none of the three properties read here, as the empty object).
    [email], [password] and [name] are used as they come: truthiness,
    [password.length < 6], then the parameters of the two statements, the
    data of [bcrypt.hash], the payload of the token and the response. *)

(** A parameter as the statement sees it in a TEXT column. *)
Definition bound (h : host) (v : jsval) : string :=
  match v with
  | JStr s => s
  | _ => sql_text h v
  end.

Definition hashPassword (h : host) (password : jsval) : result string :=
  match password with
  | JStr s => bcrypt_hash (rt h) s
  | _ => Err (bcrypt_type_error h)
  end.

Definition generateToken (h : host) (id : nat) (email : jsval) : string :=
  match email with
  | JStr s => jwt_sign (rt h) id s
  | _ => jwt_sign_value h id email
  end.

Definition post_auth_register (h : host) (e : engine) (c : client)
    (req_body : jsobj) : engine * response :=
  let w := rt h in
  let missing :=
    json 400 [("error", JStr "Email e password sono richiesti");
              ("code", JStr "MISSING_FIELDS")] in
  match get_prop "email" req_body, get_prop "password" req_body with
  | Some email, Some password =>
      if negb (truthy email) || negb (truthy password) then (e, missing)
      else
        match password_too_short password with
        | Err m => (e, handleError w m "Errore nella registrazione")
        | Ok true =>
            (e, json 400 [("error", JStr "La password deve avere almeno 6 caratteri");
                          ("code", JStr "PASSWORD_TOO_SHORT")])
        | Ok false =>
            match db_get_user_by_email w e (bound h email) with
            | Err m => (e, handleError w m "Errore controllo utente esistente")
            | Ok (Some _) =>
                (e, json 400 [("error", JStr "Email già registrata");
                              ("code", JStr "EMAIL_EXISTS")])
            | Ok None =>
                match hashPassword h password with
                | Err m => (e, handleError w m "Errore nella generazione password")
                | Ok hash =>
                    let name := get_prop "name" req_body in
                    let name_text :=
                      match name with
                      | Some n => if truthy n then bound h n else ""
                      | None => ""
                      end in
                    let '(e1, res) :=
                      exec w e (InsertUser (bound h email) hash name_text) in
                    match res with
                    | Err m => (e1, handleError w m "Errore nella creazione utente")
                    | Ok id =>
                        let shown_name :=
                          match name with
                          | Some n => [("name", n)]
                          | None => []
                          end in
                        (logActivity w e1 (Some id) "REGISTER"
                           "Nuovo utente registrato" c,
                         json 201
                           [("message", JStr "Registrazione completata con successo");
                            ("token", JStr (generateToken h id email));
                            ("user",
                             JObj ([("id", JInt (Z.of_nat id)); ("email", email)]
                                   ++ shown_name))])
                    end
                end
            end
        end
  | _, _ => (e, missing)
  end.

(** The body of a registration whose fields are strings. *)
Definition body_of (b : register_body) : jsobj :=
  let field (k : string) (v : option string) : jsobj :=
    match v with
    | Some s => [(k, JStr s)]
    | None => []
    end in
  field "email" (reg_email b) ++ field "password" (reg_password b)
  ++ field "name" (reg_name b).

(** ** GET /api/health

    The query counts the rows of [users]; the handler changes [healthData]
    in place and sends it with the default status. *)
Definition get_health (h : host) (e : engine) : response :=
  let healthData :=
    [("status", JStr "OK");
     ("timestamp", JStr (now_iso (rt h)));
     ("uptime", JNum (fst (process_uptime h)) (snd (process_uptime h)));
     ("environment", JStr (NODE_ENV (rt h)));
     ("database", JStr "connected");
     ("version", JStr "1.0.0")] in
  match fails h CountUsers with
  | Some _ =>
      json 200
        (js_assign "status" (JStr "WARNING")
           (js_assign "database" (JStr "error") healthData))
  | None =>
      json 200
        (js_assign "users_count" (JInt (Z.of_nat (length (rows (users (db e))))))
           healthData)
  end.

(** ** GET /api/admin/stats

    One row of four counts; [DATE(timestamp) = DATE('now')] holds of the
    rows whose timestamp [DATE] reads as today's date. *)
Definition logged_today (h : host) (r : log_row) : bool :=
  match sql_date h (log_timestamp r) with
  | Some d => String.eqb d (today h)
  | None => false
  end.

Definition get_stats (h : host) (e : engine) : response :=
  match fails h SelectStats with
  | Some m => handleError (rt h) m "Errore recupero statistiche"
  | None =>
      let d := db e in
      let count {R : Type} (l : list R) := JInt (Z.of_nat (length l)) in
      json 200
        [("stats",
          JObj [("total_users",
                 count (filter (fun r => Nat.eqb (usr_is_active r) 1) (rows (users d))));
                ("today_activity",
                 count (filter (logged_today h) (rows (activity_logs d))));
                ("nutrition_months", count (rows (nutrition_data d)));
                ("workout_months", count (rows (workout_data d)))]);
         ("server_uptime", JNum (fst (process_uptime h)) (snd (process_uptime h)));
         ("timestamp", JStr (now_iso (rt h)))]
  end.

(** ** The application

    The routes as [app.get] and [app.post] declare them ([app] is the
    append of lists here, hence the longer name): health, register and login
    are open, every other route runs [authenticateToken] first and its
    handler only when the middleware calls [next()]. *)
Inductive endpoint : Type :=
| Health
| Login (b : login_body)
| Stats
| Api (a : api_call).

Record http_request : Type := {
  peer : client;
  authorization : option string;
  target : endpoint
}.

Definition application (h : host) (e : engine) (r : http_request) : engine * option response :=
  match target r with
  | Health => (e, Some (get_health h e))
  | Login b => some_response (post_login h e (peer r) b)
  | Api (Register b) => some_response (post_register (rt h) e (peer r) b)
  | Stats =>
      match authenticateToken h (authorization r) with
      | inl denied => (e, Some denied)
      | inr _ => (e, Some (get_stats h e))
      end
  | Api a =>
      match authenticateToken h (authorization r) with
      | inl denied => (e, Some denied)
      | inr t => handle (rt h) e {| from := peer r; user := t; call := a |}
      end
  end.

(** A run of the application. *)
Definition run (e : engine) (trace : list (host * http_request)) : engine :=
  fold_left (fun e hr => fst (application (fst hr) e (snd hr))) trace e.

(** ** Well-formed values, and the fuel a value needs

    [JSON.parse] builds numbers in lowest terms and objects with no
    repeated key, the keys in the order of the own properties; [wf_json]
    says so of a value. *)

Definition normal_number (m : Z) (fd : nat) : bool :=
  match fd with
  | O => true
  | S _ => negb (m mod 10 =? 0)%Z
  end.

Fixpoint nodup_keys (ks : list string) : bool :=
  match ks with
  | [] => true
  | k :: r => negb (existsb (String.eqb k) r) && nodup_keys r
  end.

(** Array indices in ascending order, then the other keys. *)
Fixpoint own_order (ks : list string) : bool :=
  match ks with
  | k :: r =>
      match r with
      | k' :: _ => (own_rank k <=? own_rank k')%Z
      | [] => true
      end && own_order r
  | [] => true
  end.

Fixpoint wf_json (v : jsval) : bool :=
  match v with
  | JNull | JBool _ | JStr _ => true
  | JNum m fd => normal_number m fd
  | JArr l => forallb wf_json l
  | JObj o =>
      nodup_keys (map fst o) && own_order (map fst o)
      && forallb (fun kv => wf_json (snd kv)) o
  end.

(** No number of [v] is an infinity: [JSON.stringify] writes [v] in full. *)
Fixpoint finite_json (v : jsval) : bool :=
  match v with
  | JNull | JBool _ | JStr _ => true
  | JNum m fd => negb (overflows m fd)
  | JArr l => forallb finite_json l
  | JObj o => forallb (fun kv => finite_json (snd kv)) o
  end.

Fixpoint json_size (v : jsval) : nat :=
  match v with
  | JNull | JBool _ | JNum _ _ | JStr _ => 0
  | JArr l => S (list_sum (map (fun x => S (json_size x)) l))
  | JObj o => S (list_sum (map (fun kv => S (json_size (snd kv))) o))
  end.

(** What may follow a number: no digit, point or exponent mark. *)
Definition number_end (rest : list ascii) : Prop :=
  match rest with
  | [] => True
  | c :: _ =>
      is_digit c = false /\ c <> "."%char /\ c <> "e"%char /\ c <> "E"%char
  end.

(** ** Notions the statements use *)

(** The digits read so far are worth [a]; [ds] are read next. *)
Definition val_from (a : Z) (ds : list ascii) : Z :=
  fold_left (fun acc c => 10 * acc + digit_val c)%Z ds a.

Definition not_digit_head (rest : list ascii) : Prop :=
  match rest with
  | [] => True
  | c :: _ => is_digit c = false
  end.

(** The first character of a printed value. *)
Definition value_head (c : ascii) : Prop :=
  is_digit c = true \/
  In c ["-"%char; "["%char; "{"%char; dquote; "t"%char; "f"%char; "n"%char].

(** Parsing the text of [v], with enough fuel, gives [v] back and leaves
    what follows the text. *)
Definition roundtrips (v : jsval) : Prop :=
  wf_json v = true -> finite_json v = true ->
  forall fuel rest, json_size v < fuel -> number_end rest ->
  parse_value fuel (print_value v ++ rest) = Some (v, rest).

(** The stored rows of one (user, kind, month-key), and their payloads. *)
Definition doc_rows_at (u : nat) (k : kind) (mk : string) (e : engine) : list doc_row :=
  filter (same_doc_key u mk) (rows (doc_table k (db e))).

Definition docs_at (u : nat) (k : kind) (mk : string) (e : engine) : list string :=
  map doc_data (doc_rows_at u k mk e).

Definition settings_at (u : nat) (e : engine) : option settings_row :=
  find (fun r => Nat.eqb (set_user_id r) u) (rows (user_settings (db e))).

Definition kind_eqb (a b : kind) : bool :=
  match a, b with
  | Nutrition, Nutrition | Workout, Workout => true
  | _, _ => false
  end.

(** BEGIN, COMMIT and ROLLBACK apart, a statement leaves the transaction
    state alone. *)
Definition plain (q : sql) : bool :=
  match q with
  | BEGIN_TRANSACTION | COMMIT | ROLLBACK => false
  | _ => true
  end.

(** What a callback may issue. *)
Definition late_stmt (q : sql) : bool :=
  match q with
  | ROLLBACK | InsertLog _ _ _ _ _ => true
  | _ => false
  end.

(** The effect of a statement on the table of one kind of document. *)
Definition doc_step (w : runtime) (k : kind) (t : table doc_row) (q : sql)
  : table doc_row :=
  match q with
  | UpsertDoc k' u mk data =>
      if kind_eqb k' k then
        match rejects w q with
        | Some _ => t
        | None => fst (upsert_doc (current_timestamp w) u mk data t)
        end
      else t
  | _ => t
  end.

Definition settings_step (w : runtime) (t : table settings_row) (q : sql)
  : table settings_row :=
  match q with
  | UpsertSettings u s =>
      match rejects w q with
      | Some _ => t
      | None => fst (upsert_settings (current_timestamp w) u s t)
      end
  | _ => t
  end.

(** The payloads a request writes under (user, kind, month-key), in the
    order it writes them: one for a per-resource POST with a truthy [data],
    the entries of that key in the section of a bulk POST. *)
Definition request_writes (u : nat) (k : kind) (mk : string) (r : request)
  : list jsval :=
  if Nat.eqb (userId (user r)) u then
    match call r with
    | PostDoc k' mk' req_body =>
        if kind_eqb k' k && String.eqb mk' mk then
          match get_prop "data" req_body with
          | Some d => if truthy d then [d] else []
          | None => []
          end
        else []
    | PostSync req_body =>
        map snd
          (filter (fun kv => String.eqb (fst kv) mk)
             (section_entries (get_prop (kind_name k) req_body)))
    | _ => []
    end
  else [].

Definition trace_writes (u : nat) (k : kind) (mk : string)
    (trace : list (runtime * request)) : list jsval :=
  flat_map (fun wr => request_writes u k mk (snd wr)) trace.

(** The upserts of a bulk POST, as statements. *)
Definition sync_writes (u : nat) (req_body : jsobj) : list sql :=
  map fst
    (doc_upserts Nutrition u (get_prop "nutrition" req_body)
     ++ doc_upserts Workout u (get_prop "workouts" req_body)
     ++ settings_upsert u (get_prop "settings" req_body)).

Definition is_upsert (q : sql) : bool :=
  match q with
  | UpsertDoc _ _ _ _ | UpsertSettings _ _ => true
  | _ => false
  end.

(** The statements of a request that write documents or settings. *)
Definition data_writes (r : request) : list sql :=
  match call r with
  | PostDoc k mk req_body =>
      match get_prop "data" req_body with
      | Some d =>
          if truthy d then [UpsertDoc k (userId (user r)) mk (JSON_stringify d)] else []
      | None => []
      end
  | PostSettings req_body =>
      match get_prop "settings" req_body with
      | Some s =>
          if truthy s then [UpsertSettings (userId (user r)) (JSON_stringify s)] else []
      | None => []
      end
  | PostSync req_body => sync_writes (userId (user r)) req_body
  | _ => []
  end.

(** The text a statement stores under (user, kind, month-key), if any. *)
Definition stmt_write (u : nat) (k : kind) (mk : string) (q : sql) : option string :=
  match q with
  | UpsertDoc k' u' mk' data =>
      if kind_eqb k' k && Nat.eqb u' u && String.eqb mk' mk then Some data else None
  | _ => None
  end.

Fixpoint stmt_writes (u : nat) (k : kind) (mk : string) (qs : list sql) : list string :=
  match qs with
  | [] => []
  | q :: r =>
      match stmt_write u k mk q with
      | Some d => d :: stmt_writes u k mk r
      | None => stmt_writes u k mk r
      end
  end.

(** The payloads under a key once the texts [ws] have been written to it,
    from the payloads [before]: each write replaces what was there. *)
Definition last_write (ws : list string) (before : list string) : list string :=
  fold_left (fun _ d => [d]) ws before.

(** The message of the first statement the engine fails, if any. *)
Fixpoint first_rejection (w : runtime) (qs : list sql) : option string :=
  match qs with
  | [] => None
  | q :: r =>
      match rejects w q with
      | Some m => Some m
      | None => first_rejection w r
      end
  end.

(** A section of a bulk POST that is absent, or present and not of object
    type: null, a boolean, a number or a string. *)
Definition no_section (v : option jsval) : bool :=
  match v with
  | None => true
  | Some (JObj _) | Some (JArr _) => false
  | Some _ => true
  end.

(** The last parseable payload among the rows of month-key [mk]. *)
Definition last_parsed (mk : string) (rs : list doc_row) (start : option jsval)
  : option jsval :=
  fold_left
    (fun acc row =>
       if String.eqb (doc_month_key row) mk then
         match JSON_parse (doc_data row) with
         | Some v => Some v
         | None => acc
         end
       else acc)
    rs start.

(** ** Fixtures *)

Definition no_rows {R : Type} : table R := {| rows := []; seq := 0 |}.

Definition empty_db : database :=
  {| users := no_rows; nutrition_data := no_rows; workout_data := no_rows;
     user_settings := no_rows; activity_logs := no_rows |}.

Definition fresh_engine : engine := {| db := empty_db; txn := None |}.

(** A runtime whose storage engine has no fault. *)
Definition quiet_runtime : runtime :=
  {| NODE_ENV := "production";
     bcrypt_hash := fun pw => Ok (String.append "$2b$12$" pw);
     jwt_sign := fun id em => String.append "token." em;
     now_iso := "2025-07-23T07:00:00.000Z";
     current_timestamp := "2025-07-23 07:00:00";
     rejects := fun _ => None |}.

(** The engine of [quiet_runtime] while another connection holds the write
    lock at the upsert of the nutrition document of month [mk]: that one
    statement fails with SQLITE_BUSY, the lock is free again for the
    statements after it. *)
Definition failing_month (mk : string) : runtime :=
  {| NODE_ENV := NODE_ENV quiet_runtime;
     bcrypt_hash := bcrypt_hash quiet_runtime;
     jwt_sign := jwt_sign quiet_runtime;
     now_iso := now_iso quiet_runtime;
     current_timestamp := current_timestamp quiet_runtime;
     rejects := fun q =>
       match q with
       | UpsertDoc Nutrition _ mk' _ =>
           if String.eqb mk' mk then Some "SQLITE_BUSY: database is locked"
           else None
       | _ => None
       end |}.

Definition a_client : client := {| ip := "203.0.113.7"; user_agent := Some "fitness-app/1.0" |}.

Definition a_user : token := {| userId := 1; email := "anna@example.org" |}.

Definition deficit_plan : jsval :=
  JObj [("phase", JObj [("name", JStr "Deficit"); ("calories", JInt 1850)])].

Definition surplus_plan : jsval :=
  JObj [("phase", JObj [("name", JStr "Surplus"); ("calories", JInt 2400)])].

Definition doc (id u : nat) (mk data : string) : doc_row :=
  {| doc_id := id; doc_user_id := u; doc_month_key := mk; doc_data := data;
     doc_updated_at := "2025-07-01 08:00:00" |}.

Definition with_nutrition (rs : list doc_row) : engine :=
  {| db :=
       {| users := no_rows;
          nutrition_data := {| rows := rs; seq := length rs |};
          workout_data := no_rows; user_settings := no_rows;
          activity_logs := no_rows |};
     txn := None |}.

Definition with_settings (rs : list settings_row) : engine :=
  {| db :=
       {| users := no_rows; nutrition_data := no_rows; workout_data := no_rows;
          user_settings := {| rows := rs; seq := length rs |};
          activity_logs := no_rows |};
     txn := None |}.

Definition with_users (rs : list user_row) : engine :=
  {| db :=
       {| users := {| rows := rs; seq := length rs |};
          nutrition_data := no_rows; workout_data := no_rows;
          user_settings := no_rows; activity_logs := no_rows |};
     txn := None |}.

Definition with_logs (rs : list log_row) : engine :=
  {| db :=
       {| users := no_rows; nutrition_data := no_rows; workout_data := no_rows;
          user_settings := no_rows;
          activity_logs := {| rows := rs; seq := length rs |} |};
     txn := None |}.

Definition login_log (id : nat) : log_row :=
  {| log_id := id; log_user_id := Some 1; log_action := "LOGIN";
     log_details := "Login completato"; log_ip_address := "203.0.113.7";
     log_user_agent := None; log_timestamp := "2025-07-01 08:00:00" |}.

Definition anna : user_row :=
  {| usr_id := 1; usr_email := "anna@example.org";
     usr_password_hash := "$2b$12$abcdefghijklmnopqrstuv";
     usr_name := "Anna"; usr_is_active := 1 |}.

(** A bulk POST with the nutrition plans of two months. *)
Definition two_months : jsobj :=
  [("nutrition", JObj [("2025-07", deficit_plan); ("2025-08", surplus_plan)])].

(** The same, with a workouts section that is a string and a settings
    section that is an object. *)
Definition two_months_and_text : jsobj :=
  [("nutrition", JObj [("2025-07", deficit_plan); ("2025-08", surplus_plan)]);
   ("workouts", JStr "none yet");
   ("settings", JObj [("height", JInt 181)])].

Definition asks (a : api_call) : runtime * request :=
  (quiet_runtime, {| from := a_client; user := a_user; call := a |}).

(** A per-resource write of July, then a bulk write of July. *)
Definition july_twice : list (runtime * request) :=
  [asks (PostDoc Nutrition "2025-07" [("data", deficit_plan)]);
   asks (PostSync [("nutrition", JObj [("2025-07", surplus_plan)])])].

(** Three stored nutrition rows of user 1: a plan, a plan under the
    month-key [__proto__], and a row whose payload is cut short. *)
Definition three_rows : list doc_row :=
  [doc 1 1 "2025-07" (JSON_stringify deficit_plan);
   doc 2 1 "__proto__" (JSON_stringify surplus_plan);
   doc 3 1 "2025-08" "{ phase: "].

Definition corrupt_settings : settings_row :=
  {| set_id := 1; set_user_id := 1; set_settings := "{height:";
     set_updated_at := "2025-07-01 08:00:00" |}.

(** ** The application: what the statements speak of *)

Fixpoint has_space (s : string) : bool :=
  match s with
  | EmptyString => false
  | String c r => Ascii.eqb c " " || has_space r
  end.

(** The routes declared with [authenticateToken]. *)
Definition protected (t : endpoint) : bool :=
  match t with
  | Health | Login _ | Api (Register _) => false
  | Stats | Api _ => true
  end.

(** A host with no fault: it verifies one token, that of [a_user], and
    compares a password with the hash [quiet_runtime] makes of it. *)
Definition quiet_host : host :=
  {| rt := quiet_runtime;
     jwt_verify := fun tk =>
       if String.eqb tk "token.anna@example.org" then Ok a_user
       else Err "jwt malformed";
     bcrypt_compare := fun pw hash => Ok (String.eqb hash (String.append "$2b$12$" pw));
     process_uptime := (36005%Z, 1);
     sql_date := fun ts => Some (substring 0 10 ts);
     today := "2025-07-23";
     fails := fun _ => None;
     sql_text := fun v =>
       match v with
       | JNum _ _ => JSON_stringify v
       | JBool b => if b then "1" else "0"
       | _ => "[object Object]"
       end;
     jwt_sign_value := fun id em => String.append "token." (JSON_stringify em);
     bcrypt_type_error := "data must be a string or Buffer" |}.

(** What a response of GET /api/health says of the number of users. *)
Definition users_count (r : response) : option jsval :=
  match body r with
  | JObj o => get_prop "users_count" o
  | _ => None
  end.

(** One of the counts of a response of GET /api/admin/stats. *)
Definition stat (name : string) (r : response) : option jsval :=
  match body r with
  | JObj o =>
      match get_prop "stats" o with
      | Some (JObj counts) => get_prop name counts
      | _ => None
      end
  | _ => None
  end.


(** What a request may do to the accounts and to the activity log: add one
    row to the log at most, add an account when it answers 201. *)
Definition grows (e e' : engine) (r : response) : Prop :=
  exists new added,
    rows (activity_logs (db e')) = rows (activity_logs (db e)) ++ new
    /\ length new <= 1
    /\ rows (users (db e')) = rows (users (db e)) ++ added
    /\ length added = if Nat.eqb (status r) 201 then 1 else 0.

(** [quiet_host] on the engine of [failing_month]. *)
Definition busy_host (mk : string) : host :=
  {| rt := failing_month mk;
     jwt_verify := jwt_verify quiet_host;
     bcrypt_compare := bcrypt_compare quiet_host;
     process_uptime := process_uptime quiet_host;
     sql_date := sql_date quiet_host;
     today := today quiet_host;
     fails := fails quiet_host;
     sql_text := sql_text quiet_host;
     jwt_sign_value := jwt_sign_value quiet_host;
     bcrypt_type_error := bcrypt_type_error quiet_host |}.

(** The name of the count of the documents of a kind in the statistics. *)
Definition months (k : kind) : string :=
  match k with
  | Nutrition => "nutrition_months"
  | Workout => "workout_months"
  end.

(** No row comes right before a row with a greater key. *)
Fixpoint descending {R : Type} (key : R -> string) (l : list R) : bool :=
  match l with
  | a :: r =>
      match r with
      | b :: _ => negb (String.ltb (key a) (key b))
      | [] => true
      end && descending key r
  | [] => true
  end.

(** The routes that are declared with [app.get]. *)
Definition is_read (t : endpoint) : bool :=
  match t with
  | Health | Stats | Api GetSync | Api (GetDocs _) | Api GetSettings | Api (GetLogs _) =>
      true
  | _ => false
  end.

(** * Characters *)

Lemma code_lt_256 (c : ascii) : (code c < 256)%N.
Proof. apply N_ascii_bounded. Qed.

Lemma code_inj (c d : ascii) : code c = code d -> c = d.
Proof.
  unfold code. intros H.
  rewrite <- (ascii_N_embedding c), <- (ascii_N_embedding d), H. reflexivity.
Qed.

Lemma eqb_code (c d : ascii) : Ascii.eqb c d = (code c =? code d)%N.
Proof.
  destruct (Ascii.eqb_spec c d) as [->|Hn].
  - symmetry. apply N.eqb_refl.
  - symmetry. apply N.eqb_neq. intros H. apply Hn, code_inj, H.
Qed.

Lemma code_ascii_of_N (n : N) : (n < 256)%N -> code (ascii_of_N n) = n.
Proof. apply N_ascii_embedding. Qed.

Lemma digit_char_code (d : Z) :
  (0 <= d < 10)%Z -> code (digit_char d) = Z.to_N (48 + d).
Proof. intros H. unfold digit_char. apply code_ascii_of_N. lia. Qed.

Lemma is_digit_digit_char (d : Z) : (0 <= d < 10)%Z -> is_digit (digit_char d) = true.
Proof.
  intros H. unfold is_digit. rewrite digit_char_code by assumption.
  apply andb_true_intro. split; apply N.leb_le; lia.
Qed.

Lemma digit_val_digit_char (d : Z) : (0 <= d < 10)%Z -> digit_val (digit_char d) = d.
Proof. intros H. unfold digit_val. rewrite digit_char_code by assumption. lia. Qed.

Lemma is_digit_range (c : ascii) :
  is_digit c = true <-> (48 <= code c <= 57)%N.
Proof.
  unfold is_digit. rewrite andb_true_iff, !N.leb_le. reflexivity.
Qed.

(** * Decimal digits *)

Lemma val_from_app a ds1 ds2 :
  val_from a (ds1 ++ ds2) = val_from (val_from a ds1) ds2.
Proof. apply fold_left_app. Qed.

Lemma digits_fuel_S f n acc :
  digits_fuel (S f) n acc =
  if (n <? 10)%Z then digit_char (n mod 10) :: acc
  else digits_fuel f (n / 10) (digit_char (n mod 10) :: acc).
Proof. reflexivity. Qed.

Lemma digits_fuel_spec (f : nat) :
  forall n acc, (0 <= n < 2 ^ Z.of_nat (S f))%Z ->
  exists ds,
    digits_fuel (S f) n acc = ds ++ acc
    /\ Forall (fun c => is_digit c = true) ds
    /\ (forall a, val_from a ds = a * 10 ^ Z.of_nat (length ds) + n)%Z
    /\ ds <> []
    /\ (0 < n -> exists d r, ds = digit_char d :: r /\ 0 < d < 10)%Z
    /\ (n = 0%Z -> ds = [digit_char 0]).
Proof.
  induction f as [|f IH]; intros n acc Hn.
  - assert (n < 10)%Z as Hlt
      by (assert (2 ^ Z.of_nat 1 = 2)%Z as E2 by reflexivity; rewrite E2 in Hn; lia).
    rewrite digits_fuel_S. apply Z.ltb_lt in Hlt as Hb. rewrite Hb.
    rewrite Z.mod_small by lia.
    exists [digit_char n]. repeat split.
    + constructor; [apply is_digit_digit_char; lia | constructor].
    + intros a. unfold val_from. cbn [fold_left length].
      rewrite digit_val_digit_char by lia.
      change (Z.of_nat 1) with 1%Z. rewrite Z.pow_1_r. lia.
    + discriminate.
    + intros Hp. exists n, []. split; [reflexivity | lia].
    + intros ->. reflexivity.
  - rewrite digits_fuel_S. destruct (n <? 10)%Z eqn:Hb.
    + apply Z.ltb_lt in Hb. rewrite Z.mod_small by lia.
      exists [digit_char n]. repeat split.
      * constructor; [apply is_digit_digit_char; lia | constructor].
      * intros a. unfold val_from. cbn [fold_left length].
      rewrite digit_val_digit_char by lia.
      change (Z.of_nat 1) with 1%Z. rewrite Z.pow_1_r. lia.
      * discriminate.
      * intros Hp. exists n, []. split; [reflexivity | lia].
      * intros ->. reflexivity.
    + apply Z.ltb_ge in Hb.
      assert (0 <= n mod 10 < 10)%Z as Hm by (apply Z.mod_pos_bound; lia).
      assert (n = 10 * (n / 10) + n mod 10)%Z as Hdiv by (apply Z.div_mod; lia).
      assert (1 <= n / 10)%Z as Hq by lia.
      assert (n / 10 < 2 ^ Z.of_nat (S f))%Z as Hup.
      { rewrite Nat2Z.inj_succ, Z.pow_succ_r in Hn by lia.
        assert (0 < 2 ^ Z.of_nat (S f))%Z by (apply Z.pow_pos_nonneg; lia). lia. }
      destruct (IH (n / 10)%Z (digit_char (n mod 10) :: acc)) as
        (ds & E & Hall & Hval & Hne & Hhd & _); [lia|].
      exists (ds ++ [digit_char (n mod 10)]). repeat split.
      * rewrite E, <- app_assoc. reflexivity.
      * apply Forall_app. split; [assumption|].
        constructor; [apply is_digit_digit_char; assumption | constructor].
      * intros a. rewrite val_from_app, Hval. unfold val_from. cbn [fold_left].
        rewrite digit_val_digit_char by assumption.
        rewrite length_app, Nat2Z.inj_add. cbn [length].
        change (Z.of_nat 1) with 1%Z. rewrite Z.pow_add_r by lia.
        rewrite Z.pow_1_r. lia.
      * destruct ds; discriminate.
      * intros _. destruct Hhd as (d & r & -> & Hd); [lia|].
        exists d, (r ++ [digit_char (n mod 10)]). split; [reflexivity | assumption].
      * intros ->. cbn in Hb. lia.
Qed.

Lemma digits_spec (n : Z) : (0 <= n)%Z ->
  Forall (fun c => is_digit c = true) (digits n)
  /\ (forall a, val_from a (digits n) = a * 10 ^ Z.of_nat (length (digits n)) + n)%Z
  /\ digits n <> []
  /\ (0 < n -> exists d r, digits n = digit_char d :: r /\ 0 < d < 10)%Z
  /\ (n = 0%Z -> digits n = [digit_char 0]).
Proof.
  intros Hn. unfold digits.
  destruct (digits_fuel_spec (Z.to_nat (Z.log2 n)) n []) as (ds & E & H).
  - split; [assumption|].
    rewrite Nat2Z.inj_succ, Z2Nat.id by apply Z.log2_nonneg.
    destruct (Z.eq_dec n 0) as [->|Hnz]; [reflexivity|].
    apply Z.log2_spec. lia.
  - rewrite E, app_nil_r. exact H.
Qed.

Lemma digits_value_digits (n : Z) : (0 <= n)%Z -> digits_value (digits n) = n.
Proof.
  intros Hn. destruct (digits_spec n Hn) as (_ & Hval & _).
  change (digits_value (digits n)) with (val_from 0 (digits n)).
  rewrite Hval. lia.
Qed.

(** * Numbers *)

Lemma span_digits_app (ds rest : list ascii) :
  Forall (fun c => is_digit c = true) ds -> not_digit_head rest ->
  span_digits (ds ++ rest) = (ds, rest).
Proof.
  intros Hds Hrest. induction Hds as [|c ds Hc _ IH]; cbn [app span_digits].
  - destruct rest as [|c r]; [reflexivity|]. cbn in Hrest. cbn [span_digits].
    rewrite Hrest. reflexivity.
  - rewrite Hc, IH. reflexivity.
Qed.

Lemma number_end_not_digit rest : number_end rest -> not_digit_head rest.
Proof. destruct rest; cbn; [trivial | intros (H & _); exact H]. Qed.

Lemma val_from_zeros (n : nat) (a : Z) :
  val_from a (repeat "0"%char n) = (a * 10 ^ Z.of_nat n)%Z.
Proof.
  revert a. induction n as [|n IH]; intros a.
  - cbn. lia.
  - cbn [repeat]. unfold val_from in *. cbn [fold_left]. rewrite IH.
    rewrite Nat2Z.inj_succ, Z.pow_succ_r by lia.
    change (digit_val "0") with 0%Z. lia.
Qed.

Lemma is_digit_zero_char : is_digit "0"%char = true.
Proof. reflexivity. Qed.

Lemma Forall_digit_repeat n : Forall (fun c => is_digit c = true) (repeat "0"%char n).
Proof. induction n; cbn; constructor; [reflexivity | assumption]. Qed.

Lemma parse_exponent_end rest : number_end rest -> parse_exponent rest = Some (0%Z, rest).
Proof.
  destruct rest as [|c r]; [reflexivity|]. intros (_ & _ & He & HE).
  cbn. apply Ascii.eqb_neq in He, HE. rewrite He, HE. reflexivity.
Qed.

Lemma parse_fraction_end rest : number_end rest -> parse_fraction rest = Some ([], rest).
Proof.
  destruct rest as [|c r]; [reflexivity|]. intros (_ & Hp & _).
  cbn. apply Ascii.eqb_neq in Hp. rewrite Hp. reflexivity.
Qed.

Lemma parse_fraction_digits ds rest :
  ds <> [] -> Forall (fun c => is_digit c = true) ds -> not_digit_head rest ->
  parse_fraction ("."%char :: ds ++ rest) = Some (ds, rest).
Proof.
  intros Hne Hds Hrest. cbn [parse_fraction].
  change (Ascii.eqb "." ".") with true. cbn iota.
  rewrite span_digits_app by assumption.
  destruct ds; [contradiction|reflexivity].
Qed.

Lemma digit_char_not_zero d : (0 < d < 10)%Z -> Ascii.eqb (digit_char d) "0" = false.
Proof.
  intros H. rewrite eqb_code, digit_char_code by lia.
  apply N.eqb_neq. change (code "0") with 48%N. lia.
Qed.

Lemma strip_zeros_normal m fd :
  normal_number m fd = true -> strip_zeros m fd = (m, fd).
Proof.
  destruct fd as [|fd]; [reflexivity|]. cbn. intros H.
  apply negb_true_iff in H. rewrite H. reflexivity.
Qed.

Lemma normal_number_abs m fd :
  normal_number m fd = true -> normal_number (Z.abs m) fd = true.
Proof.
  destruct fd as [|fd]; [reflexivity|]. cbn. rewrite !negb_true_iff, !Z.eqb_neq.
  intros H Ha. apply H.
  destruct (Z.abs_spec m) as [[_ E]|[_ E]]; rewrite E in Ha; [assumption|].
  apply Z.mod_divide in Ha; [|lia]. apply Z.mod_divide; [lia|].
  destruct Ha as [q Hq]. exists (- q)%Z. lia.
Qed.

(** The unsigned part of a printed number parses to its digits. *)
Lemma parse_unsigned (a : Z) (fd : nat) (rest : list ascii) :
  (0 <= a)%Z -> normal_number a fd = true -> number_end rest ->
  let ds := digits a in
  let k := length ds in
  let text :=
    match fd with
    | O => ds
    | S _ =>
        if (fd <? k)%nat then firstn (k - fd) ds ++ "."%char :: skipn (k - fd) ds
        else "0"%char :: "."%char :: repeat "0"%char (fd - k) ++ ds
    end in
  exists ip fp s2,
    parse_int_part (text ++ rest) = Some (ip, s2)
    /\ parse_fraction s2 = Some (fp, rest)
    /\ digits_value (ip ++ fp) = a
    /\ length fp = fd
    /\ (exists c r, text = c :: r /\ is_digit c = true).
Proof.
  intros Ha Hnorm Hend ds k text.
  destruct (digits_spec a Ha) as (Hall & Hval & Hne & Hpos & Hzero).
  fold ds in Hall, Hval, Hne, Hpos, Hzero.
  pose proof (number_end_not_digit rest Hend) as Hnd.
  destruct fd as [|fd'].
  - (* an integer *)
    subst text. destruct (Z.eq_dec a 0) as [->|Hnz].
    + rewrite (Hzero eq_refl). exists [digit_char 0], [], rest.
      refine (conj _ (conj _ (conj _ (conj _ _)))).
      * reflexivity.
      * apply parse_fraction_end, Hend.
      * reflexivity.
      * reflexivity.
      * eexists _, _. split; reflexivity.
    + destruct Hpos as (d & r & E & Hd); [lia|].
      exists ds, [], rest. refine (conj _ (conj _ (conj _ (conj _ _)))).
      * rewrite E. cbn [app parse_int_part].
        rewrite digit_char_not_zero by assumption.
        rewrite is_digit_digit_char by lia.
        change (digit_char d :: r ++ rest) with ((digit_char d :: r) ++ rest).
        rewrite <- E. rewrite span_digits_app by assumption. reflexivity.
      * apply parse_fraction_end, Hend.
      * rewrite app_nil_r. apply digits_value_digits, Ha.
      * reflexivity.
      * exists (digit_char d), r. split; [assumption|]. apply is_digit_digit_char. lia.
  - (* a fraction: a is not 0 *)
    assert (0 < a)%Z as Hap.
    { cbn in Hnorm. apply negb_true_iff, Z.eqb_neq in Hnorm.
      destruct (Z.eq_dec a 0) as [->|]; [exfalso; apply Hnorm; reflexivity | lia]. }
    destruct Hpos as (d & r & E & Hd); [assumption|].
    set (fd := S fd') in *.
    assert (firstn (k - fd) ds ++ skipn (k - fd) ds = ds) as Hsplit
      by apply firstn_skipn.
    destruct (fd <? k)%nat eqn:Hlt; subst text.
    + apply Nat.ltb_lt in Hlt.
      assert (Forall (fun c => is_digit c = true) (firstn (k - fd) ds)
              /\ Forall (fun c => is_digit c = true) (skipn (k - fd) ds)) as [Hf Hs]
        by (apply Forall_app; rewrite Hsplit; assumption).
      assert (length (skipn (k - fd) ds) = fd) as Hlen
        by (rewrite length_skipn; fold k; lia).
      assert (exists r', firstn (k - fd) ds = digit_char d :: r') as (r' & Ef).
      { rewrite E. destruct (k - fd)%nat eqn:Ek; [lia|]. cbn. eexists. reflexivity. }
      exists (firstn (k - fd) ds), (skipn (k - fd) ds),
        ("."%char :: skipn (k - fd) ds ++ rest).
      refine (conj _ (conj _ (conj _ (conj _ _)))).
      * rewrite <- app_assoc. rewrite Ef at 1. cbn [app parse_int_part].
        rewrite digit_char_not_zero by assumption.
        rewrite is_digit_digit_char by lia.
        change (digit_char d :: r' ++ ?x) with ((digit_char d :: r') ++ x).
        rewrite <- Ef. rewrite span_digits_app; [reflexivity | assumption | reflexivity].
      * apply parse_fraction_digits; try assumption.
        intros En. rewrite En in Hlen. cbn in Hlen. lia.
      * rewrite Hsplit. apply digits_value_digits, Ha.
      * assumption.
      * rewrite Ef. cbn [app]. eexists _, _. split; [reflexivity|].
        apply is_digit_digit_char. lia.
    + apply Nat.ltb_ge in Hlt.
      exists ["0"%char], (repeat "0"%char (fd - k) ++ ds),
        ("."%char :: (repeat "0"%char (fd - k) ++ ds) ++ rest).
      refine (conj _ (conj _ (conj _ (conj _ _)))).
      * cbn [app]. rewrite <- app_assoc. reflexivity.
      * apply parse_fraction_digits; try assumption.
        -- intros En. apply app_eq_nil in En. destruct En as [_ En]. contradiction.
        -- apply Forall_app. split; [apply Forall_digit_repeat | assumption].
      * change (digits_value (["0"%char] ++ repeat "0"%char (fd - k) ++ ds))
          with (val_from 0 (("0"%char :: repeat "0"%char (fd - k)) ++ ds)).
        rewrite val_from_app.
        change ("0"%char :: repeat "0"%char (fd - k)) with (repeat "0"%char (S (fd - k))).
        rewrite val_from_zeros, Hval. lia.
      * rewrite length_app, repeat_length. fold k. lia.
      * eexists _, _. split; reflexivity.
Qed.

Lemma make_number_plain (neg : bool) (ip fp : list ascii) (a : Z) :
  normal_number a (length fp) = true -> digits_value (ip ++ fp) = a ->
  make_number neg ip fp 0 = JNum (if neg then (- a)%Z else a) (length fp).
Proof.
  intros Hnorm Hval. unfold make_number. rewrite Hval.
  destruct (length fp) as [|n] eqn:El.
  - cbn. rewrite Z.mul_1_r. reflexivity.
  - replace (0 <=? 0 - Z.of_nat (S n))%Z with false by (symmetry; apply Z.leb_gt; lia).
    replace (Z.to_nat (- (0 - Z.of_nat (S n)))) with (S n) by lia.
    rewrite strip_zeros_normal by assumption. reflexivity.
Qed.

Lemma is_digit_not_minus c : is_digit c = true -> Ascii.eqb c "-" = false.
Proof.
  intros H. apply is_digit_range in H. rewrite eqb_code. apply N.eqb_neq.
  change (code "-") with 45%N. lia.
Qed.

Lemma print_number_split (m : Z) (fd : nat) :
  print_number m fd =
  (if (m <? 0)%Z then ["-"%char] else []) ++
  (let ds := digits (Z.abs m) in
   let k := length ds in
   match fd with
   | O => ds
   | S _ =>
       if (fd <? k)%nat then firstn (k - fd) ds ++ "."%char :: skipn (k - fd) ds
       else "0"%char :: "."%char :: repeat "0"%char (fd - k) ++ ds
   end).
Proof.
  unfold print_number. cbv zeta. destruct fd as [|fd]; [reflexivity|].
  destruct (S fd <? length (digits (Z.abs m)))%nat; reflexivity.
Qed.

Lemma parse_number_print (m : Z) (fd : nat) (rest : list ascii) :
  normal_number m fd = true -> number_end rest ->
  parse_number (print_number m fd ++ rest) = Some (JNum m fd, rest).
Proof.
  intros Hnorm Hend.
  destruct (parse_unsigned (Z.abs m) fd rest (Z.abs_nonneg m)
              (normal_number_abs m fd Hnorm) Hend)
    as (ip & fp & s2 & Hip & Hfp & Hval & Hlen & c & r & Etext & Hc).
  rewrite print_number_split. cbv zeta in *.
  set (text := match fd with O => _ | S _ => _ end) in *.
  assert (parse_number (text ++ rest) = Some (JNum (Z.abs m) fd, rest)
          /\ parse_number ("-"%char :: text ++ rest) = Some (JNum (- Z.abs m) fd, rest))
    as [Hpos Hneg].
  { split.
    - unfold parse_number. rewrite Etext. cbn [app].
      rewrite is_digit_not_minus by assumption.
      change (c :: r ++ rest) with ((c :: r) ++ rest). rewrite <- Etext.
      rewrite Hip, Hfp, parse_exponent_end by assumption.
      rewrite (make_number_plain false ip fp (Z.abs m)); rewrite ?Hlen; auto using normal_number_abs.
    - unfold parse_number. change (Ascii.eqb "-" "-") with true. cbn iota.
      rewrite Hip, Hfp, parse_exponent_end by assumption.
      rewrite (make_number_plain true ip fp (Z.abs m)); rewrite ?Hlen; auto using normal_number_abs. }
  destruct (m <? 0)%Z eqn:Hs.
  - apply Z.ltb_lt in Hs. cbn [app]. rewrite Hneg. repeat f_equal. lia.
  - apply Z.ltb_ge in Hs. cbn [app]. rewrite Hpos. repeat f_equal. lia.
Qed.

(** * Strings *)

Lemma parse_string_body_escape (c : ascii) (tail : list ascii) :
  parse_string_body (escape_char c ++ tail) = prepend [c] (parse_string_body tail).
Proof.
  destruct c as [[] [] [] [] [] [] [] []]; reflexivity.
Qed.

Lemma parse_string_body_quote (cs rest : list ascii) :
  parse_string_body (flat_map escape_char cs ++ dquote :: rest) = Some (cs, rest).
Proof.
  induction cs as [|c cs IH]; [reflexivity|].
  cbn [flat_map]. rewrite <- app_assoc, parse_string_body_escape, IH. reflexivity.
Qed.

Lemma parse_string_quote (s : string) (rest : list ascii) :
  parse_string (tl (quote_string s) ++ rest) = Some (s, rest).
Proof.
  unfold quote_string, parse_string. cbn [tl]. rewrite <- app_assoc. cbn [app].
  rewrite parse_string_body_quote, string_of_list_ascii_of_string. reflexivity.
Qed.

(** * Induction on values *)

Lemma jsval_nested_ind (P : jsval -> Prop) :
  P JNull ->
  (forall b, P (JBool b)) ->
  (forall m fd, P (JNum m fd)) ->
  (forall s, P (JStr s)) ->
  (forall l, Forall P l -> P (JArr l)) ->
  (forall o, Forall (fun kv => P (snd kv)) o -> P (JObj o)) ->
  forall v, P v.
Proof.
  intros Hnull Hbool Hnum Hstr Harr Hobj.
  fix IH 1. intros [ | b | m fd | s | l | o].
  - exact Hnull.
  - apply Hbool.
  - apply Hnum.
  - apply Hstr.
  - apply Harr. induction l as [|x l IHl]; constructor; [apply IH | exact IHl].
  - apply Hobj. induction o as [|[k x] o IHo]; constructor; [apply IH | exact IHo].
Qed.

(** * Objects *)

Lemma own_order_cons k a l :
  own_order (k :: a :: l) = (own_rank k <=? own_rank a)%Z && own_order (a :: l).
Proof. reflexivity. Qed.

Lemma own_order_tail k l : own_order (k :: l) = true -> own_order l = true.
Proof.
  destruct l as [|a l]; [reflexivity|]. rewrite own_order_cons.
  intros H. apply andb_true_iff in H. apply H.
Qed.

(** In a list in the order of the own properties no key is of a higher
    place than a key behind it. *)
Lemma own_order_le k l k' :
  own_order (k :: l) = true -> In k' l -> (own_rank k <= own_rank k')%Z.
Proof.
  revert k. induction l as [|a l IH]; intros k H Hin; [contradiction|].
  rewrite own_order_cons in H. apply andb_true_iff in H. destruct H as [H1 H2].
  apply Z.leb_le in H1. destruct Hin as [<-|Hin]; [exact H1|].
  specialize (IH a H2 Hin). lia.
Qed.

Lemma own_order_app_le l1 k l2 k' :
  own_order (l1 ++ k :: l2) = true -> In k' l1 -> (own_rank k' <= own_rank k)%Z.
Proof.
  induction l1 as [|a l1 IH]; [contradiction|]. cbn [app]. intros H [<-|Hin].
  - apply (own_order_le a (l1 ++ k :: l2)); [exact H|].
    apply in_or_app. right. left. reflexivity.
  - apply IH; [exact (own_order_tail _ _ H) | exact Hin].
Qed.

(** A new key behind which no key has to come goes to the end. *)
Lemma set_prop_last k v o :
  existsb (String.eqb k) (map fst o) = false ->
  (forall k', In k' (map fst o) -> (own_rank k' <= own_rank k)%Z) ->
  set_prop k v o = o ++ [(k, v)].
Proof.
  induction o as [|[k' v'] o IH]; cbn [set_prop map fst existsb app]; [reflexivity|].
  intros H Hle. apply orb_false_iff in H. destruct H as [Hk Ho]. rewrite Hk.
  destruct (Z.ltb_spec (own_rank k) (own_rank k')) as [Hlt|_].
  - specialize (Hle k' (or_introl eq_refl)). lia.
  - rewrite IH; [reflexivity | assumption |].
    intros k'' Hin. apply Hle. right. exact Hin.
Qed.

Lemma build_object_from (members acc : jsobj) :
  nodup_keys (map fst members) = true ->
  (forall k, In k (map fst members) -> existsb (String.eqb k) (map fst acc) = false) ->
  own_order (map fst (acc ++ members)) = true ->
  fold_left (fun o kv => set_prop (fst kv) (snd kv) o) members acc = acc ++ members.
Proof.
  revert acc. induction members as [|[k v] ms IH]; intros acc Hnd Hfresh Hord.
  - cbn. rewrite app_nil_r. reflexivity.
  - cbn [fold_left fst snd]. cbn in Hnd. apply andb_true_iff in Hnd.
    destruct Hnd as [Hk Hnd]. apply negb_true_iff in Hk.
    rewrite set_prop_last.
    2: { apply Hfresh. left. reflexivity. }
    2: { intros k' Hin. rewrite map_app in Hord. cbn [map fst] in Hord.
         exact (own_order_app_le _ _ _ _ Hord Hin). }
    rewrite IH; [rewrite <- app_assoc; reflexivity | assumption | |].
    + intros k' Hin. rewrite map_app, existsb_app. cbn.
      rewrite Hfresh by (right; exact Hin). cbn. rewrite orb_false_r.
      destruct (String.eqb_spec k' k) as [->|]; [|reflexivity].
      exfalso. clear - Hk Hin. induction (map fst ms) as [|a l IHl]; [contradiction|].
      cbn in Hk. apply orb_false_iff in Hk. destruct Hk as [Ha Hl].
      destruct Hin as [->|Hin]; [rewrite String.eqb_refl in Ha; discriminate | auto].
    + rewrite <- app_assoc. exact Hord.
Qed.

Lemma build_object_nodup (members : jsobj) :
  nodup_keys (map fst members) = true -> own_order (map fst members) = true ->
  build_object members = members.
Proof.
  intros H Ho. unfold build_object. rewrite build_object_from; auto.
Qed.

(** * Values *)

Lemma skip_ws_head c r : is_ws c = false -> skip_ws (c :: r) = c :: r.
Proof. intros H. cbn. rewrite H. reflexivity. Qed.

Lemma print_number_head m fd :
  exists c r, print_number m fd = c :: r /\ (is_digit c = true \/ c = "-"%char).
Proof.
  rewrite print_number_split.
  destruct (m <? 0)%Z.
  - eexists _, _. split; [reflexivity | right; reflexivity].
  - destruct (parse_unsigned (Z.abs m) 0 [] (Z.abs_nonneg m) eq_refl I)
      as (_ & _ & _ & _ & _ & _ & _ & c & r & E & Hc).
    cbv zeta in *. destruct fd as [|fd].
    + cbn [app]. rewrite E. eexists _, _. split; [reflexivity | left; assumption].
    + cbn [app]. destruct (S fd <? _)%nat eqn:Hlt.
      * rewrite E. rewrite E in Hlt. apply Nat.ltb_lt in Hlt.
        destruct (length (c :: r) - S fd)%nat eqn:Ek; [lia|]. cbn.
        eexists _, _. split; [reflexivity | left; assumption].
      * eexists _, _. split; [reflexivity | left; reflexivity].
Qed.

Lemma print_value_head v : exists c r, print_value v = c :: r /\ value_head c.
Proof.
  unfold value_head. destruct v as [ | [] | m fd | s | l | o]; cbn [print_value].
  1-3, 5-7: eexists _, _; (split; [reflexivity|]); right; cbn; tauto.
  destruct (overflows m fd);
    [eexists _, _; (split; [reflexivity|]); right; cbn; tauto|].
  destruct (print_number_head m fd) as (c & r & E & [H| ->]); rewrite E;
    eexists _, _; (split; [reflexivity|]); [left; assumption | right; cbn; tauto].
Qed.

Lemma value_head_facts c :
  value_head c -> is_ws c = false /\ Ascii.eqb c "]" = false /\ Ascii.eqb c "}" = false.
Proof.
  intros [H|H].
  - apply is_digit_range in H. unfold is_ws. rewrite !eqb_code.
    change (code "]") with 93%N. change (code "}") with 125%N.
    repeat split; rewrite ?orb_false_iff; repeat split; apply N.eqb_neq; lia.
  - cbn in H. repeat destruct H as [<-|H]; try contradiction; repeat split; reflexivity.
Qed.

Lemma number_end_seq {A} (pr : A -> list ascii) l (close : ascii) rest :
  is_digit close = false -> close <> "."%char -> close <> "e"%char -> close <> "E"%char ->
  number_end (print_seq pr l ++ close :: rest).
Proof.
  intros. destruct l; cbn; repeat split; try assumption; discriminate.
Qed.

Lemma parse_number_head c r :
  is_digit c = true \/ c = "-"%char ->
  forall f, parse_value (S f) (c :: r) = parse_number (c :: r).
Proof.
  intros H f.
  assert (is_ws c = false /\ Ascii.eqb c "[" = false /\ Ascii.eqb c "{" = false
          /\ Ascii.eqb c dquote = false /\ Ascii.eqb c "t" = false
          /\ Ascii.eqb c "f" = false /\ Ascii.eqb c "n" = false)
    as (Hws & H1 & H2 & H3 & H4 & H5 & H6).
  { destruct H as [H| ->]; [|repeat split; reflexivity].
    apply is_digit_range in H. unfold is_ws. rewrite !eqb_code.
    change (code "[") with 91%N. change (code "{") with 123%N.
    change (code dquote) with 34%N. change (code "t") with 116%N.
    change (code "f") with 102%N. change (code "n") with 110%N.
    repeat split; rewrite ?orb_false_iff; repeat split; apply N.eqb_neq; lia. }
  cbn [parse_value]. rewrite skip_ws_head by assumption.
  rewrite H1, H2, H3, H4, H5, H6. reflexivity.
Qed.

Lemma parse_member_quote (pv : list ascii -> option (jsval * list ascii))
    (k : string) (text : list ascii) :
  parse_member pv (quote_string k ++ ":"%char :: text) =
  match pv text with
  | Some (v, rest) => Some ((k, v), rest)
  | None => None
  end.
Proof.
  unfold parse_member.
  pose proof (parse_string_quote k (":"%char :: text)) as Hs.
  unfold quote_string in *. cbn [tl app] in *.
  rewrite skip_ws_head by reflexivity. rewrite Ascii.eqb_refl, Hs.
  rewrite skip_ws_head by reflexivity. reflexivity.
Qed.

Lemma quote_string_head k : exists r, quote_string k = dquote :: r.
Proof. unfold quote_string. eexists. reflexivity. Qed.

Lemma list_sum_map_cons {A : Type} (f : A -> nat) (x : A) (l : list A) :
  list_sum (map f (x :: l)) = f x + list_sum (map f l).
Proof. reflexivity. Qed.

Lemma parse_elements_print (l : list jsval) :
  Forall roundtrips l -> forallb wf_json l = true -> forallb finite_json l = true ->
  forall fuel rest, list_sum (map (fun x => S (json_size x)) l) < fuel ->
  parse_elements fuel (print_seq print_value l ++ "]"%char :: rest) = Some (l, rest).
Proof.
  induction 1 as [|x l Hx _ IH]; intros Hwf Hfin fuel rest Hfuel.
  - destruct fuel as [|f]; [cbn in Hfuel; lia|]. reflexivity.
  - cbn in Hwf. apply andb_true_iff in Hwf. destruct Hwf as [Hwx Hwl].
    cbn [forallb] in Hfin. apply andb_true_iff in Hfin. destruct Hfin as [Hfx Hfl].
    rewrite list_sum_map_cons in Hfuel. destruct fuel as [|f]; [lia|].
    cbn [print_seq app]. fold (print_seq print_value). cbn [parse_elements].
    rewrite skip_ws_head by reflexivity.
    change (Ascii.eqb "," "]") with false. change (Ascii.eqb "," ",") with true.
    cbn iota. fold parse_value parse_elements parse_members.
    rewrite <- app_assoc.
    rewrite Hx;
      [| assumption | assumption | lia
       | apply number_end_seq; (reflexivity || discriminate)].
    rewrite IH by (assumption || lia). reflexivity.
Qed.

Lemma parse_members_print (o : jsobj) :
  Forall (fun kv => roundtrips (snd kv)) o ->
  forallb (fun kv => wf_json (snd kv)) o = true ->
  forallb (fun kv => finite_json (snd kv)) o = true ->
  forall fuel rest, list_sum (map (fun kv => S (json_size (snd kv))) o) < fuel ->
  parse_members fuel
    (print_seq (fun kv => quote_string (fst kv) ++ ":"%char :: print_value (snd kv)) o
     ++ "}"%char :: rest) = Some (o, rest).
Proof.
  induction 1 as [|[k x] o Hx _ IH]; intros Hwf Hfin fuel rest Hfuel.
  - destruct fuel as [|f]; [cbn in Hfuel; lia|]. reflexivity.
  - cbn in Hwf. apply andb_true_iff in Hwf. destruct Hwf as [Hwx Hwl].
    cbn [forallb snd] in Hfin. apply andb_true_iff in Hfin. destruct Hfin as [Hfx Hfl].
    rewrite list_sum_map_cons in Hfuel. cbn [snd] in Hfuel. destruct fuel as [|f]; [lia|].
    cbn [print_seq app fst snd].
    fold (print_seq (fun kv => quote_string (fst kv) ++ ":"%char :: print_value (snd kv))).
    cbn [parse_members]. rewrite skip_ws_head by reflexivity.
    change (Ascii.eqb "," "}") with false. change (Ascii.eqb "," ",") with true.
    cbn iota. fold parse_value parse_elements parse_members.
    rewrite <- !app_assoc. cbn [app]. rewrite parse_member_quote.
    cbn in Hx.
    rewrite Hx;
      [| assumption | assumption | lia
       | apply number_end_seq; (reflexivity || discriminate)].
    rewrite IH by (assumption || lia). reflexivity.
Qed.

Lemma parse_value_print (v : jsval) : roundtrips v.
Proof.
  induction v as [ | b | m fd | s | l IHl | o IHo] using jsval_nested_ind;
    intros Hwf Hfin fuel rest Hfuel Hend; (destruct fuel as [|f]; [lia|]).
  - reflexivity.
  - destruct b; reflexivity.
  - destruct (print_number_head m fd) as (c & r & E & Hc).
    cbn [print_value]. cbn [finite_json] in Hfin. apply negb_true_iff in Hfin.
    rewrite Hfin. pose proof (parse_number_print m fd rest Hwf Hend) as Hp.
    rewrite E in *. cbn [app] in *. rewrite parse_number_head by assumption. exact Hp.
  - cbn [print_value]. unfold quote_string. cbn [app parse_value].
    rewrite skip_ws_head by reflexivity.
    change (Ascii.eqb dquote "[") with false. change (Ascii.eqb dquote "{") with false.
    rewrite Ascii.eqb_refl. cbn iota.
    pose proof (parse_string_quote s rest) as Hs. unfold quote_string in Hs.
    cbn [tl] in Hs. rewrite Hs. reflexivity.
  - cbn [print_value json_size wf_json finite_json] in *. destruct l as [|x l].
    + reflexivity.
    + cbn [print_seq tl app]. fold (print_seq print_value).
      destruct (print_value_head x) as (c & r & E & Hc).
      destruct (value_head_facts c Hc) as (Hws & Hb & _).
      cbn [parse_value]. rewrite skip_ws_head by reflexivity.
      change (Ascii.eqb "[" "[") with true. cbn iota.
      fold parse_value parse_elements parse_members.
      rewrite <- !app_assoc. cbn [app].
      pose proof (Forall_inv IHl) as Hx. pose proof (Forall_inv_tail IHl) as Hl.
      cbn in Hwf. apply andb_true_iff in Hwf. destruct Hwf as [Hwx Hwl].
      cbn [forallb] in Hfin. apply andb_true_iff in Hfin. destruct Hfin as [Hfx Hfl].
      rewrite list_sum_map_cons in Hfuel.
      assert (parse_value f (print_value x ++ print_seq print_value l ++ "]"%char :: rest)
              = Some (x, print_seq print_value l ++ "]"%char :: rest)) as Ex.
      { apply Hx;
          [assumption | assumption | lia
           | apply number_end_seq; (reflexivity || discriminate)]. }
      rewrite E in *. cbn [app] in *. rewrite skip_ws_head by assumption.
      rewrite Hb, Ex. rewrite parse_elements_print by (assumption || lia). reflexivity.
  - cbn [print_value json_size wf_json finite_json] in *. destruct o as [|[k x] o].
    + reflexivity.
    + apply andb_true_iff in Hwf. destruct Hwf as [Hnd Hwf].
      apply andb_true_iff in Hnd. destruct Hnd as [Hnd Hord].
      cbn [forallb snd] in Hfin. apply andb_true_iff in Hfin.
      destruct Hfin as [Hfx Hfl].
      cbn [print_seq tl app fst snd].
      fold (print_seq (fun kv => quote_string (fst kv) ++ ":"%char :: print_value (snd kv))).
      cbn [parse_value]. rewrite skip_ws_head by reflexivity.
      change (Ascii.eqb "{" "[") with false. change (Ascii.eqb "{" "{") with true.
      cbn iota. fold parse_value parse_elements parse_members.
      pose proof (Forall_inv IHo) as Hx. pose proof (Forall_inv_tail IHo) as Ho.
      cbn in Hx.
      cbn in Hwf. apply andb_true_iff in Hwf. destruct Hwf as [Hwx Hwl].
      rewrite list_sum_map_cons in Hfuel. cbn [snd] in Hfuel.
      rewrite <- !app_assoc. cbn [app].
      destruct (quote_string_head k) as (qr & Eq).
      rewrite Eq at 1. cbn [app]. rewrite skip_ws_head by reflexivity.
      change (Ascii.eqb dquote "}") with false. cbn iota.
      change (dquote :: qr ++ ?t) with ((dquote :: qr) ++ t). rewrite <- Eq.
      rewrite parse_member_quote.
      rewrite Hx;
        [| assumption | assumption | lia
         | apply number_end_seq; (reflexivity || discriminate)].
      rewrite parse_members_print by (assumption || lia).
      rewrite build_object_nodup by assumption. reflexivity.
Qed.

Lemma length_print_seq {A : Type} (pr : A -> list ascii) (l : list A) :
  length (print_seq pr l) = list_sum (map (fun x => S (length (pr x))) l).
Proof.
  induction l as [|x l IH]; [reflexivity|].
  rewrite list_sum_map_cons. cbn [print_seq length]. fold (print_seq pr).
  rewrite length_app, IH. reflexivity.
Qed.

Lemma list_sum_map_le {A : Type} (f g : A -> nat) (l : list A) :
  Forall (fun x => f x <= g x) l -> list_sum (map f l) <= list_sum (map g l).
Proof.
  induction 1 as [|x l Hx _ IH]; [reflexivity|].
  rewrite !list_sum_map_cons. lia.
Qed.

Lemma length_tl {A : Type} (l : list A) : length (tl l) = length l - 1.
Proof. destruct l; cbn; lia. Qed.

Lemma json_size_le_length (v : jsval) : json_size v <= length (print_value v).
Proof.
  induction v as [ | b | m fd | s | l IHl | o IHo] using jsval_nested_ind;
    cbn [json_size print_value]; try lia.
  - cbn [length]. rewrite length_app, length_tl, length_print_seq. cbn [length].
    assert (list_sum (map (fun x => S (json_size x)) l)
            <= list_sum (map (fun x => S (length (print_value x))) l)) as H.
    { apply list_sum_map_le. eapply Forall_impl; [|exact IHl]. cbn. intros; lia. }
    destruct l as [|x l]; [cbn; lia|]. rewrite list_sum_map_cons in *. lia.
  - cbn [length]. rewrite length_app, length_tl, length_print_seq. cbn [length].
    assert (list_sum (map (fun kv => S (json_size (snd kv))) o)
            <= list_sum
                 (map (fun kv => S (length (quote_string (fst kv) ++ ":"%char
                                            :: print_value (snd kv)))) o)) as H.
    { apply list_sum_map_le. eapply Forall_impl; [|exact IHo]. cbn.
      intros kv Hkv. rewrite length_app. cbn [length]. lia. }
    destruct o as [|x o]; [cbn; lia|]. rewrite list_sum_map_cons in *. lia.
Qed.

(** Reading back what [JSON.stringify] wrote gives the value written. *)
Theorem JSON_roundtrip (v : jsval) :
  wf_json v = true -> finite_json v = true ->
  JSON_parse (JSON_stringify v) = Some v.
Proof.
  intros Hwf Hfin. unfold JSON_parse, JSON_stringify.
  rewrite list_ascii_of_string_of_list_ascii.
  pose proof (parse_value_print v Hwf Hfin (S (length (print_value v))) []) as H.
  rewrite app_nil_r in H. rewrite H; [reflexivity | | exact I].
  pose proof (json_size_le_length v). lia.
Qed.

(** * What JSON.parse builds is well formed *)

Lemma strip_zeros_normalizes (m : Z) (fd : nat) :
  normal_number (fst (strip_zeros m fd)) (snd (strip_zeros m fd)) = true.
Proof.
  revert m. induction fd as [|fd IH]; intros m; [reflexivity|].
  cbn [strip_zeros]. destruct (m mod 10 =? 0)%Z eqn:E; [apply IH|].
  cbn. rewrite E. reflexivity.
Qed.

Lemma normal_number_opp (m : Z) (fd : nat) :
  normal_number m fd = true -> normal_number (- m) fd = true.
Proof.
  destruct fd as [|fd]; [reflexivity|]. cbn. rewrite !negb_true_iff, !Z.eqb_neq.
  intros H Ha. apply H. apply Z.mod_divide in Ha; [|lia]. apply Z.mod_divide; [lia|].
  destruct Ha as [q Hq]. exists (- q)%Z. lia.
Qed.

Lemma make_number_wf neg ip fp ex : wf_json (make_number neg ip fp ex) = true.
Proof.
  unfold make_number.
  destruct (0 <=? ex - Z.of_nat (length fp))%Z.
  - destruct neg; reflexivity.
  - pose proof (strip_zeros_normalizes (digits_value (ip ++ fp))
                  (Z.to_nat (- (ex - Z.of_nat (length fp))))) as H.
    destruct (strip_zeros _ _) as [m fd]. cbn [fst snd] in H. cbn [wf_json].
    destruct neg; [apply normal_number_opp|]; exact H.
Qed.

Lemma parse_number_wf s v rest : parse_number s = Some (v, rest) -> wf_json v = true.
Proof.
  unfold parse_number.
  destruct (match s with
            | [] => (false, s)
            | c :: r => if Ascii.eqb c "-" then (true, r) else (false, s)
            end) as [neg s1].
  destruct (parse_int_part s1) as [[ip s2]|]; [|discriminate].
  destruct (parse_fraction s2) as [[fp s3]|]; [|discriminate].
  destruct (parse_exponent s3) as [[ex s4]|]; [|discriminate].
  intros [= <- _]. apply make_number_wf.
Qed.

Lemma nodup_keys_snoc ks k :
  nodup_keys ks = true -> existsb (String.eqb k) ks = false ->
  nodup_keys (ks ++ [k]) = true.
Proof.
  induction ks as [|a ks IH]; [reflexivity|]. cbn.
  rewrite !andb_true_iff, negb_true_iff, orb_false_iff.
  intros [Ha Hks] [Hk Hin]. split; [|apply IH; assumption].
  apply negb_true_iff. rewrite existsb_app, Ha. cbn.
  rewrite String.eqb_sym, Hk. reflexivity.
Qed.

Lemma existsb_set_prop a k v o :
  existsb (String.eqb a) (map fst (set_prop k v o))
  = String.eqb a k || existsb (String.eqb a) (map fst o).
Proof.
  induction o as [|[k' v'] o IH]; cbn [set_prop map fst existsb]; [reflexivity|].
  destruct (String.eqb_spec k k') as [->|Hn].
  - cbn [map fst existsb]. destruct (String.eqb a k'); reflexivity.
  - destruct (own_rank k <? own_rank k')%Z; cbn [map fst existsb]; [reflexivity|].
    rewrite IH. destruct (String.eqb a k), (String.eqb a k'); reflexivity.
Qed.

(** [set_prop] keeps the order of the own properties. *)
Lemma set_prop_order_after b k v o :
  (own_rank b <= own_rank k)%Z -> own_order (b :: map fst o) = true ->
  own_order (b :: map fst (set_prop k v o)) = true.
Proof.
  revert b. induction o as [|[k' v'] o IH]; intros b Hb Ho.
  - cbn [set_prop map fst]. rewrite own_order_cons. apply andb_true_iff.
    split; [apply Z.leb_le; exact Hb | reflexivity].
  - cbn [map fst] in Ho. rewrite own_order_cons in Ho.
    apply andb_true_iff in Ho. destruct Ho as [H1 H2]. cbn [set_prop].
    destruct (String.eqb k k').
    + cbn [map fst]. rewrite own_order_cons, H1. exact H2.
    + destruct (Z.ltb_spec (own_rank k) (own_rank k')) as [Hlt|Hge].
      * cbn [map fst]. rewrite !own_order_cons. rewrite H2, andb_true_r.
        apply andb_true_iff. split; apply Z.leb_le; lia.
      * cbn [map fst]. rewrite own_order_cons, H1. apply IH; assumption.
Qed.

Lemma set_prop_order k v o :
  own_order (map fst o) = true -> own_order (map fst (set_prop k v o)) = true.
Proof.
  destruct o as [|[k' v'] o]; [reflexivity|]. intros Ho. cbn [set_prop].
  destruct (String.eqb k k'); [exact Ho|].
  destruct (Z.ltb_spec (own_rank k) (own_rank k')) as [Hlt|Hge].
  - cbn [map fst] in *. rewrite own_order_cons, Ho, andb_true_r.
    apply Z.leb_le. lia.
  - cbn [map fst] in *. apply set_prop_order_after; assumption.
Qed.

Lemma set_prop_nodup k v o :
  nodup_keys (map fst o) = true -> own_order (map fst o) = true ->
  nodup_keys (map fst (set_prop k v o)) = true.
Proof.
  induction o as [|[k' v'] o IH]; [reflexivity|]. cbn [map fst nodup_keys].
  intros Hnd Ho. apply andb_true_iff in Hnd. destruct Hnd as [Hk' Hnd].
  cbn [set_prop]. destruct (String.eqb_spec k k') as [->|Hn].
  - cbn [map fst nodup_keys]. rewrite Hk', Hnd. reflexivity.
  - destruct (Z.ltb_spec (own_rank k) (own_rank k')) as [Hlt|Hge].
    + cbn [map fst nodup_keys existsb]. rewrite Hk', Hnd, !andb_true_r.
      apply negb_true_iff, orb_false_iff. split; [apply String.eqb_neq, Hn|].
      destruct (existsb (String.eqb k) (map fst o)) eqn:E; [|reflexivity].
      apply existsb_exists in E. destruct E as (k'' & Hin & Heq).
      apply String.eqb_eq in Heq. subst k''.
      pose proof (own_order_le k' (map fst o) k Ho Hin). lia.
    + cbn [map fst nodup_keys]. rewrite existsb_set_prop.
      rewrite IH by (assumption || exact (own_order_tail _ _ Ho)).
      apply negb_true_iff in Hk'. rewrite Hk', orb_false_r, andb_true_r.
      apply negb_true_iff, String.eqb_neq. congruence.
Qed.

Lemma set_prop_wf k v o :
  wf_json v = true -> wf_json (JObj o) = true -> wf_json (JObj (set_prop k v o)) = true.
Proof.
  cbn [wf_json]. rewrite !andb_true_iff. intros Hv [[Hnd Hord] Hall].
  split; [split|].
  - apply set_prop_nodup; assumption.
  - apply set_prop_order; assumption.
  - clear Hnd Hord. induction o as [|[k0 v0] o IH]; cbn.
    + rewrite Hv. reflexivity.
    + cbn in Hall. apply andb_true_iff in Hall. destruct Hall as [H0 Hall].
      destruct (String.eqb k k0); cbn; rewrite ?Hv, ?H0, ?Hall; auto.
      destruct (own_rank k <? own_rank k0)%Z; cbn; rewrite ?Hv, ?H0, ?Hall, ?IH; auto.
Qed.

Lemma build_object_wf members :
  forallb (fun kv => wf_json (snd kv)) members = true ->
  wf_json (JObj (build_object members)) = true.
Proof.
  unfold build_object.
  assert (forall acc, wf_json (JObj acc) = true ->
          forallb (fun kv => wf_json (snd kv)) members = true ->
          wf_json (JObj (fold_left (fun o kv => set_prop (fst kv) (snd kv) o) members acc))
          = true) as H.
  { induction members as [|[k v] ms IH]; intros acc Hacc Hms; [exact Hacc|].
    cbn in Hms. apply andb_true_iff in Hms. destruct Hms as [Hv Hms].
    cbn [fold_left fst snd]. apply IH; [apply set_prop_wf; assumption | assumption]. }
  apply H. reflexivity.
Qed.

Lemma parse_member_wf pv s kv rest :
  (forall s v rest, pv s = Some (v, rest) -> wf_json v = true) ->
  parse_member pv s = Some (kv, rest) -> wf_json (snd kv) = true.
Proof.
  intros Hpv. unfold parse_member.
  destruct (skip_ws s) as [|c r]; [discriminate|].
  destruct (Ascii.eqb c dquote); [|discriminate].
  destruct (parse_string r) as [[k rest1]|]; [|discriminate].
  destruct (skip_ws rest1) as [|c2 r2]; [discriminate|].
  destruct (Ascii.eqb c2 ":"); [|discriminate].
  destruct (pv r2) as [[v rest2]|] eqn:E; [|discriminate].
  intros [= <- _]. cbn. eapply Hpv, E.
Qed.

Lemma parse_wf (fuel : nat) :
  (forall s v rest, parse_value fuel s = Some (v, rest) -> wf_json v = true)
  /\ (forall s vs rest, parse_elements fuel s = Some (vs, rest) ->
                        forallb wf_json vs = true)
  /\ (forall s kvs rest, parse_members fuel s = Some (kvs, rest) ->
                         forallb (fun kv => wf_json (snd kv)) kvs = true).
Proof.
  induction fuel as [|f (IHv & IHe & IHm)]; [repeat split; discriminate|].
  split; [|split].
  - intros s v rest. cbn [parse_value].
    destruct (skip_ws s) as [|c r]; [discriminate|].
    destruct (Ascii.eqb c "[").
    { destruct (skip_ws r) as [|c' r']; [discriminate|].
      destruct (Ascii.eqb c' "]"); [intros [= <- _]; reflexivity|].
      destruct (parse_value f (c' :: r')) as [[x rest1]|] eqn:Ex; [|discriminate].
      destruct (parse_elements f rest1) as [[xs rest2]|] eqn:Exs; [|discriminate].
      intros [= <- _]. cbn. rewrite (IHv _ _ _ Ex), (IHe _ _ _ Exs). reflexivity. }
    destruct (Ascii.eqb c "{").
    { destruct (skip_ws r) as [|c' r']; [discriminate|].
      destruct (Ascii.eqb c' "}"); [intros [= <- _]; reflexivity|].
      destruct (parse_member (parse_value f) (c' :: r')) as [[kv rest1]|] eqn:Ekv;
        [|discriminate].
      destruct (parse_members f rest1) as [[kvs rest2]|] eqn:Ekvs; [|discriminate].
      intros [= <- _]. apply build_object_wf. cbn.
      rewrite (parse_member_wf _ _ _ _ IHv Ekv), (IHm _ _ _ Ekvs). reflexivity. }
    destruct (Ascii.eqb c dquote).
    { destruct (parse_string r) as [[str rest1]|]; [|discriminate].
      intros [= <- _]. reflexivity. }
    destruct (Ascii.eqb c "t").
    { destruct (expect _ r); [|discriminate]. intros [= <- _]. reflexivity. }
    destruct (Ascii.eqb c "f").
    { destruct (expect _ r); [|discriminate]. intros [= <- _]. reflexivity. }
    destruct (Ascii.eqb c "n").
    { destruct (expect _ r); [|discriminate]. intros [= <- _]. reflexivity. }
    apply parse_number_wf.
  - intros s vs rest. cbn [parse_elements].
    destruct (skip_ws s) as [|c r]; [discriminate|].
    destruct (Ascii.eqb c "]"); [intros [= <- _]; reflexivity|].
    destruct (Ascii.eqb c ","); [|discriminate].
    destruct (parse_value f r) as [[x rest1]|] eqn:Ex; [|discriminate].
    destruct (parse_elements f rest1) as [[xs rest2]|] eqn:Exs; [|discriminate].
    intros [= <- _]. cbn. rewrite (IHv _ _ _ Ex), (IHe _ _ _ Exs). reflexivity.
  - intros s kvs rest. cbn [parse_members].
    destruct (skip_ws s) as [|c r]; [discriminate|].
    destruct (Ascii.eqb c "}"); [intros [= <- _]; reflexivity|].
    destruct (Ascii.eqb c ","); [|discriminate].
    destruct (parse_member (parse_value f) r) as [[kv rest1]|] eqn:Ekv; [|discriminate].
    destruct (parse_members f rest1) as [[kvs' rest2]|] eqn:Ekvs; [|discriminate].
    intros [= <- _]. cbn.
    rewrite (parse_member_wf _ _ _ _ IHv Ekv), (IHm _ _ _ Ekvs). reflexivity.
Qed.

(** Every value that [JSON.parse] returns is well formed. *)
Theorem JSON_parse_wf (text : string) (v : jsval) :
  JSON_parse text = Some v -> wf_json v = true.
Proof.
  unfold JSON_parse.
  destruct (parse_value _ _) as [[x rest]|] eqn:E; [|discriminate].
  destruct (skip_ws rest); [|discriminate]. intros [= <-].
  eapply parse_wf, E.
Qed.

Lemma finite_json_prop k o v :
  finite_json (JObj o) = true -> get_prop k o = Some v -> finite_json v = true.
Proof.
  cbn [finite_json]. intros Hall.
  induction o as [|[k0 v0] o IH]; [discriminate|]. cbn in *.
  apply andb_true_iff in Hall. destruct Hall as [H0 Hall].
  destruct (String.eqb k k0); [intros [= <-]; exact H0 | apply IH, Hall].
Qed.

Lemma wf_json_prop k o v :
  wf_json (JObj o) = true -> get_prop k o = Some v -> wf_json v = true.
Proof.
  cbn [wf_json]. rewrite andb_true_iff. intros [_ Hall].
  induction o as [|[k0 v0] o IH]; [discriminate|]. cbn in *.
  apply andb_true_iff in Hall. destruct Hall as [H0 Hall].
  destruct (String.eqb k k0); [intros [= <-]; exact H0 | apply IH, Hall].
Qed.

(** * The engine, statement by statement *)

Lemma kind_eqb_refl k : kind_eqb k k = true.
Proof. destruct k; reflexivity. Qed.

Lemma kind_eqb_eq a b : kind_eqb a b = true <-> a = b.
Proof. destruct a, b; cbn; split; congruence. Qed.

Lemma doc_table_set k k' t d :
  doc_table k (set_doc_table k' t d) = if kind_eqb k' k then t else doc_table k d.
Proof. destruct k, k'; reflexivity. Qed.

Lemma settings_set_doc_table k t d :
  user_settings (set_doc_table k t d) = user_settings d.
Proof. destruct k; reflexivity. Qed.

Lemma exec_rejected w e q m : rejects w q = Some m -> exec w e q = (e, Err m).
Proof. intros H. unfold exec. rewrite H. reflexivity. Qed.

(** A statement other than BEGIN, COMMIT and ROLLBACK acts on each table by
    itself, and leaves the transaction as it is. *)
Lemma exec_plain w e q :
  plain q = true ->
  txn (fst (exec w e q)) = txn e
  /\ (forall k, doc_table k (db (fst (exec w e q))) = doc_step w k (doc_table k (db e)) q)
  /\ user_settings (db (fst (exec w e q))) = settings_step w (user_settings (db e)) q.
Proof.
  intros Hq. unfold exec, doc_step, settings_step.
  destruct q as [ | | | em ph nm | k u mk data | u s | u act det ipa ag | em | k u | u | u lim ];
    try discriminate; destruct (rejects w _) as [m|] eqn:Hr; cbn;
    try (repeat split; reflexivity).
  - destruct (email_taken em (users (db e))); cbn; repeat split; reflexivity.
  - repeat split. intros k'. destruct (kind_eqb k k'); reflexivity.
  - repeat split.
    + intros k'. rewrite doc_table_set. destruct k, k'; reflexivity.
    + apply settings_set_doc_table.
Qed.

Lemma exec_begin_db w e : db (fst (exec w e BEGIN_TRANSACTION)) = db e.
Proof.
  unfold exec. destruct (rejects w _); [reflexivity|]. destruct (txn e); reflexivity.
Qed.

Lemma exec_commit_db w e : db (fst (exec w e COMMIT)) = db e.
Proof.
  unfold exec. destruct (rejects w _); [reflexivity|]. destruct (txn e); reflexivity.
Qed.

Lemma exec_commit_txn w e :
  rejects w COMMIT = None -> txn (fst (exec w e COMMIT)) = None.
Proof. intros H. unfold exec. rewrite H. destruct (txn e) eqn:E; cbn; auto. Qed.

Lemma exec_rollback_closed w e : txn e = None -> fst (exec w e ROLLBACK) = e.
Proof.
  intros H. unfold exec. destruct (rejects w _); [reflexivity|]. rewrite H. reflexivity.
Qed.

Lemma run_late_app w e qs1 qs2 :
  run_late w e (qs1 ++ qs2) = run_late w (run_late w e qs1) qs2.
Proof. apply fold_left_app. Qed.

Lemma run_late_cons w e q qs :
  run_late w e (q :: qs) = run_late w (fst (exec w e q)) qs.
Proof. reflexivity. Qed.

Lemma run_late_plain w qs :
  forallb plain qs = true ->
  forall e,
    txn (run_late w e qs) = txn e
    /\ (forall k, doc_table k (db (run_late w e qs))
                  = fold_left (doc_step w k) qs (doc_table k (db e)))
    /\ user_settings (db (run_late w e qs))
       = fold_left (settings_step w) qs (user_settings (db e)).
Proof.
  induction qs as [|q qs IH]; intros Hp e; [repeat split|].
  cbn in Hp. apply andb_true_iff in Hp. destruct Hp as [Hq Hqs].
  destruct (exec_plain w e q Hq) as (Ht & Hd & Hs).
  destruct (IH Hqs (fst (exec w e q))) as (Ht' & Hd' & Hs').
  rewrite run_late_cons. cbn [fold_left]. repeat split.
  - rewrite Ht'. exact Ht.
  - intros k. rewrite Hd', Hd. reflexivity.
  - rewrite Hs', Hs. reflexivity.
Qed.

(** With no transaction open, what the callbacks issue touches neither the
    documents nor the settings: ROLLBACK fails, the log goes to its table. *)
Lemma run_late_closed w qs :
  forallb late_stmt qs = true ->
  forall e, txn e = None ->
    txn (run_late w e qs) = None
    /\ (forall k, doc_table k (db (run_late w e qs)) = doc_table k (db e))
    /\ user_settings (db (run_late w e qs)) = user_settings (db e).
Proof.
  induction qs as [|q qs IH]; intros Hl e He; [repeat split; assumption|].
  cbn in Hl. apply andb_true_iff in Hl. destruct Hl as [Hq Hqs].
  rewrite run_late_cons.
  assert (txn (fst (exec w e q)) = None
          /\ (forall k, doc_table k (db (fst (exec w e q))) = doc_table k (db e))
          /\ user_settings (db (fst (exec w e q))) = user_settings (db e))
    as (Ht & Hd & Hs).
  { destruct q as [ | | | em ph nm | k u mk data | u s | u act det ipa ag | em | k u | u | u lim ];
      try discriminate.
    - rewrite exec_rollback_closed by assumption. repeat split. assumption.
    - destruct (exec_plain w e (InsertLog u act det ipa ag) eq_refl) as (Ht & Hd & Hs).
      repeat split; [rewrite Ht; assumption | exact Hd | exact Hs]. }
  destruct (IH Hqs (fst (exec w e q)) Ht) as (Ht' & Hd' & Hs').
  repeat split.
  - exact Ht'.
  - intros k. rewrite Hd'. apply Hd.
  - rewrite Hs'. exact Hs.
Qed.

(** * The driver *)

Lemma drain_engine w c t queue :
  forall late e st,
    fst (fst (drain w c t queue late e st)) = run_late w e (map fst queue).
Proof.
  induction queue as [|[q cb] queue IH]; intros late e st; [reflexivity|].
  cbn [drain map fst]. rewrite run_late_cons.
  destruct (exec w e q) as [e1 res] eqn:E.
  destruct (run_callback w c t cb res st) as [st1 more].
  rewrite IH. reflexivity.
Qed.

Lemma run_callback_late w c t cb res st :
  forallb late_stmt (snd (run_callback w c t cb res st)) = true.
Proof.
  unfold run_callback, handleTransactionError.
  destruct cb; [reflexivity | |]; destruct res; destruct (hasError st); reflexivity.
Qed.

Lemma drain_late w c t queue :
  forall late e st,
    exists more,
      snd (drain w c t queue late e st) = late ++ more
      /\ forallb late_stmt more = true.
Proof.
  induction queue as [|[q cb] queue IH]; intros late e st.
  - exists []. cbn. rewrite app_nil_r. split; reflexivity.
  - cbn [drain]. destruct (exec w e q) as [e1 res].
    pose proof (run_callback_late w c t cb res st) as Hcb.
    destruct (run_callback w c t cb res st) as [st1 more1]. cbn in Hcb.
    destruct (IH (late ++ more1) e1 st1) as (more & E & Hl).
    exists (more1 ++ more). rewrite E, <- app_assoc. split; [reflexivity|].
    rewrite forallb_app, Hcb, Hl. reflexivity.
Qed.

Lemma drain_app w c t q1 q2 :
  forall late e st,
    drain w c t (q1 ++ q2) late e st =
    let '(e1, st1, late1) := drain w c t q1 late e st in
    drain w c t q2 late1 e1 st1.
Proof.
  induction q1 as [|[q cb] q1 IH]; intros late e st.
  - cbn. reflexivity.
  - cbn [app drain]. destruct (exec w e q) as [e1 res].
    destruct (run_callback w c t cb res st) as [st1 more]. apply IH.
Qed.

(** * POST /api/sync *)

Lemma sync_statements_split u req_body :
  map fst (sync_statements u req_body)
  = BEGIN_TRANSACTION :: sync_writes u req_body ++ [COMMIT].
Proof.
  unfold sync_statements, sync_writes. cbn [map fst].
  rewrite !map_app. cbn [map fst]. rewrite <- !app_assoc. reflexivity.
Qed.

Lemma sync_writes_upserts u req_body : forallb is_upsert (sync_writes u req_body) = true.
Proof.
  unfold sync_writes, doc_upserts, settings_upsert. rewrite !map_app, !forallb_app.
  rewrite !map_map. cbn [fst].
  assert (forall k l, forallb is_upsert
            (map (fun kv : string * jsval => UpsertDoc k u (fst kv) (JSON_stringify (snd kv))) l)
          = true) as H by (intros k l; induction l; cbn; auto).
  rewrite !H. cbn.
  destruct (get_prop "settings" req_body) as [x|]; [|reflexivity].
  destruct (is_object (Some x)); reflexivity.
Qed.

Lemma is_upsert_plain qs : forallb is_upsert qs = true -> forallb plain qs = true.
Proof.
  induction qs as [|q qs IH]; [reflexivity|]. cbn. rewrite !andb_true_iff.
  intros [Hq Hqs]. split; [destruct q; (discriminate || reflexivity) | auto].
Qed.

(** The engine after a bulk POST: BEGIN, the upserts and COMMIT have run in
    that order, then what the callbacks issued. *)
Lemma post_sync_engine w e c t req_body :
  exists more,
    forallb late_stmt more = true
    /\ fst (post_sync w e c t req_body)
       = run_late w
           (fst (exec w
                   (run_late w (fst (exec w e BEGIN_TRANSACTION))
                      (sync_writes (userId t) req_body))
                   COMMIT))
           more.
Proof.
  unfold post_sync.
  set (st0 := {| hasError := false; operationsCount := 0; sent := None |}).
  pose proof (drain_engine w c t (sync_statements (userId t) req_body) [] e st0) as He.
  destruct (drain_late w c t (sync_statements (userId t) req_body) [] e st0)
    as (more & Hm & Hl).
  destruct (drain w c t (sync_statements (userId t) req_body) [] e st0)
    as [[e1 st] late].
  cbn [fst snd] in *. subst late. cbn [app]. exists more. split; [assumption|].
  rewrite He, sync_statements_split, run_late_cons, run_late_app. reflexivity.
Qed.

(** No rollback: when the engine lets COMMIT through, the tables after a
    bulk POST are the tables before it with every upsert the engine accepted
    applied, whatever it did with the others. *)
Theorem post_sync_keeps_accepted_writes w e c t req_body :
  rejects w COMMIT = None ->
  (forall k,
     doc_table k (db (fst (post_sync w e c t req_body)))
     = fold_left (doc_step w k) (sync_writes (userId t) req_body) (doc_table k (db e)))
  /\ user_settings (db (fst (post_sync w e c t req_body)))
     = fold_left (settings_step w) (sync_writes (userId t) req_body)
         (user_settings (db e)).
Proof.
  intros Hc. destruct (post_sync_engine w e c t req_body) as (more & Hl & E).
  rewrite E. clear E.
  set (eb := fst (exec w e BEGIN_TRANSACTION)).
  set (eu := run_late w eb (sync_writes (userId t) req_body)).
  set (ec := fst (exec w eu COMMIT)).
  destruct (run_late_closed w more Hl ec (exec_commit_txn w eu Hc)) as (_ & Hd & Hs).
  destruct (run_late_plain w (sync_writes (userId t) req_body)
              (is_upsert_plain _ (sync_writes_upserts _ _)) eb) as (_ & Hd' & Hs').
  fold eu in Hd', Hs'.
  split.
  - intros k. rewrite Hd. unfold ec. rewrite exec_commit_db, Hd'.
    unfold eb. rewrite exec_begin_db. reflexivity.
  - rewrite Hs. unfold ec. rewrite exec_commit_db, Hs'.
    unfold eb. rewrite exec_begin_db. reflexivity.
Qed.

(** * One key of a table under upserts *)

Lemma filter_none {A : Type} (f g : A -> bool) (l : list A) :
  (forall x, f x = true -> g x = false) -> filter f (filter g l) = [].
Proof.
  intros H. induction l as [|x l IH]; [reflexivity|]. cbn.
  destruct (g x) eqn:Hg; [|exact IH]. cbn.
  destruct (f x) eqn:Hf; [|exact IH]. rewrite (H x Hf) in Hg. discriminate.
Qed.

Lemma filter_keeps {A : Type} (f g : A -> bool) (l : list A) :
  (forall x, f x = true -> g x = true) -> filter f (filter g l) = filter f l.
Proof.
  intros H. induction l as [|x l IH]; [reflexivity|]. cbn.
  destruct (g x) eqn:Hg; cbn.
  - destruct (f x); [rewrite IH|]; auto.
  - destruct (f x) eqn:Hf; [|exact IH]. rewrite (H x Hf) in Hg. discriminate.
Qed.

Lemma rows_at_upsert_same now u mk data t :
  map doc_data (filter (same_doc_key u mk) (rows (fst (upsert_doc now u mk data t))))
  = [data].
Proof.
  cbn. rewrite filter_app, filter_none.
  - cbn. unfold same_doc_key. cbn. rewrite Nat.eqb_refl, String.eqb_refl. reflexivity.
  - intros x Hx. rewrite Hx. reflexivity.
Qed.

Lemma rows_at_upsert_other now u mk u' mk' data t :
  Nat.eqb u' u && String.eqb mk' mk = false ->
  filter (same_doc_key u mk) (rows (fst (upsert_doc now u' mk' data t)))
  = filter (same_doc_key u mk) (rows t).
Proof.
  intros Hk. cbn. rewrite filter_app, filter_keeps.
  - cbn. unfold same_doc_key at 2. cbn. rewrite Hk. apply app_nil_r.
  - intros x Hx. apply negb_true_iff. unfold same_doc_key in *.
    apply andb_true_iff in Hx. destruct Hx as [Hu Hm].
    apply Nat.eqb_eq in Hu. apply String.eqb_eq in Hm. rewrite Hu, Hm.
    rewrite Nat.eqb_sym, String.eqb_sym. exact Hk.
Qed.

Lemma docs_doc_step w k u mk t q :
  healthy w ->
  map doc_data (filter (same_doc_key u mk) (rows (doc_step w k t q)))
  = match stmt_write u k mk q with
    | Some d => [d]
    | None => map doc_data (filter (same_doc_key u mk) (rows t))
    end.
Proof.
  intros Hw.
  destruct q as [ | | | em ph nm | k' u' mk' data | u' s | u' act det ipa ag
                | em | k' u' | u' | u' lim ];
    try reflexivity.
  unfold doc_step, stmt_write.
  rewrite Hw. destruct (kind_eqb k' k); [|reflexivity]. cbn [andb].
  destruct (Nat.eqb u' u && String.eqb mk' mk) eqn:Hk.
  - apply andb_true_iff in Hk. destruct Hk as [Hu Hm].
    apply Nat.eqb_eq in Hu. apply String.eqb_eq in Hm. subst.
    apply rows_at_upsert_same.
  - rewrite rows_at_upsert_other by assumption. reflexivity.
Qed.

Lemma docs_fold_doc_step w k u mk qs :
  healthy w ->
  forall t,
    map doc_data (filter (same_doc_key u mk) (rows (fold_left (doc_step w k) qs t)))
    = last_write (stmt_writes u k mk qs)
        (map doc_data (filter (same_doc_key u mk) (rows t))).
Proof.
  intros Hw. induction qs as [|q qs IH]; intros t; [reflexivity|].
  cbn [fold_left stmt_writes]. rewrite IH, docs_doc_step by assumption.
  destruct (stmt_write u k mk q); reflexivity.
Qed.

Lemma last_write_app ws1 ws2 before :
  last_write (ws1 ++ ws2) before = last_write ws2 (last_write ws1 before).
Proof. apply fold_left_app. Qed.

Lemma last_write_last ws v before : last_write (ws ++ [v]) before = [v].
Proof. rewrite last_write_app. reflexivity. Qed.

(** A statement that stores no document leaves every document table. *)
Lemma fold_doc_step_none w k qs :
  (forall q, In q qs ->
     match q with UpsertDoc k' _ _ _ => kind_eqb k' k = false | _ => True end) ->
  forall t, fold_left (doc_step w k) qs t = t.
Proof.
  induction qs as [|q qs IH]; intros H t; [reflexivity|]. cbn [fold_left].
  rewrite IH by (intros q' Hq'; apply H; right; exact Hq').
  specialize (H q (or_introl eq_refl)). destruct q; try reflexivity.
  cbn. rewrite H. reflexivity.
Qed.

Lemma fold_settings_step_none w qs :
  (forall q, In q qs -> match q with UpsertSettings _ _ => False | _ => True end) ->
  forall t, fold_left (settings_step w) qs t = t.
Proof.
  induction qs as [|q qs IH]; intros H t; [reflexivity|]. cbn [fold_left].
  rewrite IH by (intros q' Hq'; apply H; right; exact Hq').
  specialize (H q (or_introl eq_refl)). destruct q; try reflexivity. contradiction.
Qed.

(** * The response of a bulk POST *)

Lemma exec_upsert_ok w e q :
  healthy w -> is_upsert q = true -> exists id, snd (exec w e q) = Ok id.
Proof.
  intros Hw Hq. unfold exec. rewrite Hw.
  destruct q; try discriminate; cbn; eexists; reflexivity.
Qed.

Lemma drain_upserts_healthy w c t qs :
  healthy w -> forallb is_upsert qs = true ->
  forall late e st,
    drain w c t (map (fun q => (q, UpsertCallback)) qs) late e st
    = (run_late w e qs,
       {| hasError := hasError st;
          operationsCount := operationsCount st + length qs;
          sent := sent st |},
       late).
Proof.
  intros Hw. induction qs as [|q qs IH]; intros Hq late e st.
  - cbn. rewrite Nat.add_0_r. destruct st; reflexivity.
  - cbn in Hq. apply andb_true_iff in Hq. destruct Hq as [Hq Hqs].
    cbn [map drain]. rewrite run_late_cons.
    destruct (exec_upsert_ok w e q Hw Hq) as (id & Hid).
    destruct (exec w e q) as [e1 res]. cbn [fst snd] in *. subst res.
    cbn [run_callback]. rewrite app_nil_r, IH by assumption.
    cbn [count_operation hasError operationsCount sent length].
    rewrite Nat.add_succ_r. reflexivity.
Qed.

Lemma sync_statements_queue u req_body :
  sync_statements u req_body
  = (BEGIN_TRANSACTION, NoCallback)
    :: map (fun q => (q, UpsertCallback)) (sync_writes u req_body)
    ++ [(COMMIT, CommitCallback)].
Proof.
  unfold sync_statements, sync_writes. f_equal. rewrite !app_assoc. f_equal.
  rewrite <- !app_assoc. rewrite map_map.
  set (qs := _ ++ _ ++ _).
  assert (Forall (fun p : sql * callback => snd p = UpsertCallback) qs) as H.
  { subst qs. unfold doc_upserts, settings_upsert. rewrite !Forall_app.
    repeat split; try (apply Forall_map, Forall_forall; reflexivity).
    destruct (get_prop "settings" req_body) as [x|]; [|constructor].
    destruct (is_object (Some x)); repeat constructor. }
  induction H as [|[q cb] qs Hq _ IH]; [reflexivity|].
  cbn in Hq. subst cb. cbn [map fst]. rewrite <- IH. reflexivity.
Qed.

Lemma exec_begin_healthy w e :
  healthy w -> exists saved, txn (fst (exec w e BEGIN_TRANSACTION)) = Some saved.
Proof.
  intros Hw. unfold exec. rewrite Hw. destruct (txn e) eqn:E; cbn; eauto.
Qed.

(** On a healthy engine a bulk POST answers 200 with the number of its
    upserts. *)
Lemma post_sync_healthy_response w e c t req_body :
  healthy w ->
  snd (post_sync w e c t req_body)
  = Some (json 200
            [("message", JStr "Sincronizzazione completata");
             ("operations",
              JInt (Z.of_nat (length (sync_writes (userId t) req_body))));
             ("timestamp", JStr (now_iso w))]).
Proof.
  intros Hw. unfold post_sync. rewrite sync_statements_queue.
  cbn [drain]. destruct (exec_begin_healthy w e Hw) as (saved & Hb).
  destruct (exec w e BEGIN_TRANSACTION) as [eb rb]. cbn [fst] in Hb.
  cbn [run_callback app]. rewrite drain_app.
  rewrite drain_upserts_healthy by (assumption || apply sync_writes_upserts).
  cbn [drain hasError operationsCount sent Nat.add].
  destruct (run_late_plain w (sync_writes (userId t) req_body)
              (is_upsert_plain _ (sync_writes_upserts _ _)) eb) as (Ht & _).
  unfold exec at 1. rewrite Hw, Ht, Hb. cbn. reflexivity.
Qed.

(** * What each handler does to the documents and the settings *)

Lemma logActivity_tables w e u action details c :
  txn (logActivity w e u action details c) = txn e
  /\ (forall k, doc_table k (db (logActivity w e u action details c)) = doc_table k (db e))
  /\ user_settings (db (logActivity w e u action details c)) = user_settings (db e).
Proof.
  unfold logActivity.
  exact (exec_plain w e (InsertLog u action details (ip c) (user_agent c)) eq_refl).
Qed.

Lemma post_register_tables w e c b :
  (forall k, doc_table k (db (fst (post_register w e c b))) = doc_table k (db e))
  /\ user_settings (db (fst (post_register w e c b))) = user_settings (db e).
Proof.
  unfold post_register.
  destruct (reg_email b) as [em|]; [|split; reflexivity].
  destruct (reg_password b) as [pw|]; [|split; reflexivity].
  destruct (String.eqb em "" || String.eqb pw ""); [split; reflexivity|].
  destruct (utf16_length pw <? 6)%nat; [split; reflexivity|].
  destruct (db_get_user_by_email w e em) as [[row|]|m]; try (split; reflexivity).
  destruct (bcrypt_hash w pw) as [hash|m]; [|split; reflexivity].
  set (q := InsertUser em hash _).
  destruct (exec_plain w e q eq_refl) as (_ & Hd & Hs).
  destruct (exec w e q) as [e1 [id|m]]; cbn [fst] in *.
  - destruct (logActivity_tables w e1 (Some id) "REGISTER" "Nuovo utente registrato" c)
      as (_ & Hd' & Hs').
    split; [intros k; rewrite Hd', Hd | rewrite Hs', Hs]; reflexivity.
  - split; [intros k; rewrite Hd | rewrite Hs]; reflexivity.
Qed.

Lemma get_sync_tables w e c t :
  (forall k, doc_table k (db (fst (get_sync w e c t))) = doc_table k (db e))
  /\ user_settings (db (fst (get_sync w e c t))) = user_settings (db e).
Proof.
  unfold get_sync.
  destruct (db_all_docs w e Nutrition (userId t)) as [nrows|m]; cbn [fst].
  2: { destruct (logActivity_tables w e (Some (userId t)) "SYNC_ERROR" m c) as (_ & H).
       exact H. }
  destruct (db_all_docs w e Workout (userId t)) as [wrows|m]; cbn [fst].
  2: { destruct (logActivity_tables w e (Some (userId t)) "SYNC_ERROR" m c) as (_ & H).
       exact H. }
  destruct (db_get_settings w e (userId t)) as [srow|m]; cbn [fst].
  2: { destruct (logActivity_tables w e (Some (userId t)) "SYNC_ERROR" m c) as (_ & H).
       exact H. }
  match goal with
  | |- context [logActivity w e ?u ?a ?d c] =>
      destruct (logActivity_tables w e u a d c) as (_ & H)
  end.
  exact H.
Qed.

Lemma post_doc_tables k w e c t mk req_body :
  let qs :=
    match get_prop "data" req_body with
    | Some d => if truthy d then [UpsertDoc k (userId t) mk (JSON_stringify d)] else []
    | None => []
    end in
  (forall k', doc_table k' (db (fst (post_doc k w e c t mk req_body)))
              = fold_left (doc_step w k') qs (doc_table k' (db e)))
  /\ user_settings (db (fst (post_doc k w e c t mk req_body)))
     = fold_left (settings_step w) qs (user_settings (db e)).
Proof.
  unfold post_doc.
  destruct (get_prop "data" req_body) as [d|]; [|split; reflexivity].
  destruct (truthy d); [|split; reflexivity].
  set (q := UpsertDoc k (userId t) mk (JSON_stringify d)).
  destruct (exec_plain w e q eq_refl) as (_ & Hd & Hs).
  destruct (exec w e q) as [e1 [id|m]]; cbn [fst fold_left] in *.
  - match goal with
    | |- context [logActivity w e1 ?u ?a ?x c] =>
        destruct (logActivity_tables w e1 u a x c) as (_ & Hd' & Hs')
    end.
    split; [intros k'; rewrite Hd', Hd | rewrite Hs', Hs]; reflexivity.
  - split; [intros k'; rewrite Hd | rewrite Hs]; reflexivity.
Qed.

Lemma post_settings_tables w e c t req_body :
  let qs :=
    match get_prop "settings" req_body with
    | Some s => if truthy s then [UpsertSettings (userId t) (JSON_stringify s)] else []
    | None => []
    end in
  (forall k', doc_table k' (db (fst (post_settings w e c t req_body)))
              = fold_left (doc_step w k') qs (doc_table k' (db e)))
  /\ user_settings (db (fst (post_settings w e c t req_body)))
     = fold_left (settings_step w) qs (user_settings (db e)).
Proof.
  unfold post_settings.
  destruct (get_prop "settings" req_body) as [s|]; [|split; reflexivity].
  destruct (truthy s); [|split; reflexivity].
  set (q := UpsertSettings (userId t) (JSON_stringify s)).
  destruct (exec_plain w e q eq_refl) as (_ & Hd & Hs).
  destruct (exec w e q) as [e1 [id|m]]; cbn [fst fold_left] in *.
  - destruct (logActivity_tables w e1 (Some (userId t)) "SETTINGS_SAVE"
                "Settings updated" c) as (_ & Hd' & Hs').
    split; [intros k'; rewrite Hd', Hd | rewrite Hs', Hs]; reflexivity.
  - split; [intros k'; rewrite Hd | rewrite Hs]; reflexivity.
Qed.

Lemma get_docs_engine k w e t : fst (get_docs k w e t) = e.
Proof. unfold get_docs. destruct (db_all_docs w e k (userId t)); reflexivity. Qed.

Lemma get_settings_engine w e t : fst (get_settings w e t) = e.
Proof. unfold get_settings. destruct (db_get_settings w e (userId t)); reflexivity. Qed.

Lemma get_logs_engine w e t limit : fst (get_logs w e t limit) = e.
Proof. unfold get_logs. destruct (db_all_logs _ _ _ _); reflexivity. Qed.

(** Every request acts on the documents and the settings through its
    upserts alone. *)
Lemma handle_tables w e r :
  rejects w COMMIT = None ->
  (forall k, doc_table k (db (fst (handle w e r)))
             = fold_left (doc_step w k) (data_writes r) (doc_table k (db e)))
  /\ user_settings (db (fst (handle w e r)))
     = fold_left (settings_step w) (data_writes r) (user_settings (db e)).
Proof.
  intros Hc. unfold handle, data_writes.
  destruct (call r) as [b | | req_body | k | k mk req_body | | req_body | limit];
    cbn [some_response fst].
  - apply post_register_tables.
  - apply get_sync_tables.
  - apply post_sync_keeps_accepted_writes, Hc.
  - rewrite get_docs_engine. split; reflexivity.
  - apply post_doc_tables.
  - rewrite get_settings_engine. split; reflexivity.
  - apply post_settings_tables.
  - rewrite get_logs_engine. split; reflexivity.
Qed.

(** * The writes of a request, as statements *)

Lemma stmt_writes_app u k mk qs1 qs2 :
  stmt_writes u k mk (qs1 ++ qs2) = stmt_writes u k mk qs1 ++ stmt_writes u k mk qs2.
Proof.
  induction qs1 as [|q qs1 IH]; [reflexivity|]. cbn [app stmt_writes].
  destruct (stmt_write u k mk q); rewrite IH; reflexivity.
Qed.

Lemma stmt_writes_doc_upserts u k mk k' u' section :
  stmt_writes u k mk (map fst (doc_upserts k' u' section))
  = if kind_eqb k' k && Nat.eqb u' u then
      map JSON_stringify
        (map snd (filter (fun kv => String.eqb (fst kv) mk) (section_entries section)))
    else [].
Proof.
  unfold doc_upserts. rewrite map_map. cbn [fst].
  induction (section_entries section) as [|[key v] l IH].
  - cbn. destruct (kind_eqb k' k && Nat.eqb u' u); reflexivity.
  - cbn [map stmt_writes stmt_write fst snd filter]. rewrite IH.
    destruct (kind_eqb k' k && Nat.eqb u' u); cbn [andb]; [|reflexivity].
    destruct (String.eqb key mk); reflexivity.
Qed.

Lemma stmt_writes_settings_upsert u k mk u' section :
  stmt_writes u k mk (map fst (settings_upsert u' section)) = [].
Proof.
  unfold settings_upsert. destruct section as [x|]; [|reflexivity].
  destruct (is_object (Some x)); reflexivity.
Qed.

Lemma stmt_writes_request u k mk r :
  stmt_writes u k mk (data_writes r) = map JSON_stringify (request_writes u k mk r).
Proof.
  unfold data_writes, request_writes.
  destruct (call r) as [b | | req_body | k' | k' mk' req_body | | req_body | limit];
    try (destruct (Nat.eqb (userId (user r)) u); reflexivity).
  - unfold sync_writes. rewrite !map_app, !stmt_writes_app.
    rewrite !stmt_writes_doc_upserts, stmt_writes_settings_upsert, app_nil_r.
    destruct (Nat.eqb (userId (user r)) u); [|destruct k; reflexivity].
    destruct k; cbn; rewrite ?app_nil_r; reflexivity.
  - destruct (get_prop "data" req_body) as [d|].
    2: { destruct (Nat.eqb (userId (user r)) u); [|reflexivity].
         destruct (kind_eqb k' k && String.eqb mk' mk); reflexivity. }
    destruct (truthy d).
    2: { destruct (Nat.eqb (userId (user r)) u); [|reflexivity].
         destruct (kind_eqb k' k && String.eqb mk' mk); reflexivity. }
    cbn [stmt_writes stmt_write].
    destruct (kind_eqb k' k), (Nat.eqb (userId (user r)) u), (String.eqb mk' mk);
      reflexivity.
  - destruct (get_prop "settings" req_body) as [s|];
      [destruct (truthy s)|]; destruct (Nat.eqb (userId (user r)) u); reflexivity.
Qed.

(** The documents under a key after a request: the last payload the
    request wrote there, or what was there. *)
Lemma handle_docs_at w e r u k mk :
  healthy w ->
  docs_at u k mk (fst (handle w e r))
  = last_write (map JSON_stringify (request_writes u k mk r)) (docs_at u k mk e).
Proof.
  intros Hw. unfold docs_at, doc_rows_at.
  destruct (handle_tables w e r (Hw COMMIT)) as (Hd & _).
  rewrite Hd, docs_fold_doc_step by assumption.
  rewrite stmt_writes_request. reflexivity.
Qed.

Lemma serve_docs_at trace u k mk :
  (forall wr, In wr trace -> healthy (fst wr)) ->
  forall e,
    docs_at u k mk (serve e trace)
    = last_write (map JSON_stringify (trace_writes u k mk trace)) (docs_at u k mk e).
Proof.
  induction trace as [|[w r] trace IH]; intros Hw e; [reflexivity|].
  unfold serve in *. cbn [fold_left fst snd trace_writes flat_map].
  rewrite IH by (intros wr Hin; apply Hw; right; exact Hin).
  rewrite handle_docs_at by (apply (Hw (w, r)); left; reflexivity).
  unfold trace_writes. rewrite map_app, last_write_app. reflexivity.
Qed.

(** * Objects built by assignment *)

Lemma get_prop_set_prop k k' v o :
  get_prop k (set_prop k' v o) = if String.eqb k k' then Some v else get_prop k o.
Proof.
  induction o as [|[k0 v0] o IH]; cbn [set_prop get_prop].
  - destruct (String.eqb k k'); reflexivity.
  - destruct (String.eqb_spec k' k0) as [->|Hn]; cbn [get_prop].
    + destruct (String.eqb k k0); reflexivity.
    + destruct (own_rank k' <? own_rank k0)%Z; cbn [get_prop]; [reflexivity|].
      rewrite IH. destruct (String.eqb_spec k k0) as [->|]; [|reflexivity].
      destruct (String.eqb_spec k0 k') as [->|]; [contradiction | reflexivity].
Qed.

Lemma get_prop_js_assign k k' v o :
  k <> "__proto__" ->
  get_prop k (js_assign k' v o) = if String.eqb k k' then Some v else get_prop k o.
Proof.
  intros Hk. unfold js_assign.
  destruct (String.eqb_spec k' "__proto__") as [->|_].
  - apply String.eqb_neq in Hk. rewrite Hk. reflexivity.
  - apply get_prop_set_prop.
Qed.

(** No assignment creates the property [__proto__]. *)
Lemma js_assign_no_proto k v o :
  get_prop "__proto__" o = None -> get_prop "__proto__" (js_assign k v o) = None.
Proof.
  intros H. unfold js_assign.
  destruct (String.eqb_spec k "__proto__") as [->|Hn]; [assumption|].
  rewrite get_prop_set_prop.
  destruct (String.eqb_spec "__proto__" k) as [<-|]; [contradiction | assumption].
Qed.

Lemma build_docs_no_proto rs : get_prop "__proto__" (build_docs rs) = None.
Proof.
  unfold build_docs.
  assert (forall acc, get_prop "__proto__" acc = None ->
          get_prop "__proto__"
            (fold_left
               (fun data row =>
                  match JSON_parse (doc_data row) with
                  | Some v => js_assign (doc_month_key row) v data
                  | None => data
                  end) rs acc) = None) as H.
  { induction rs as [|r rs IH]; intros acc Ha; [exact Ha|]. cbn [fold_left].
    apply IH. destruct (JSON_parse (doc_data r)); [apply js_assign_no_proto|]; exact Ha. }
  apply H. reflexivity.
Qed.

Lemma build_docs_lookup mk rs :
  mk <> "__proto__" -> get_prop mk (build_docs rs) = last_parsed mk rs None.
Proof.
  intros Hmk. unfold build_docs, last_parsed.
  change (@None jsval) with (get_prop mk []) at 1.
  generalize (@nil (string * jsval)) as acc.
  induction rs as [|r rs IH]; intros acc; [reflexivity|]. cbn [fold_left].
  rewrite IH. f_equal.
  destruct (JSON_parse (doc_data r)) as [v|].
  - rewrite get_prop_js_assign by assumption. rewrite String.eqb_sym.
    destruct (String.eqb (doc_month_key r) mk); reflexivity.
  - destruct (String.eqb (doc_month_key r) mk); reflexivity.
Qed.

Lemma last_parsed_filter mk rs start :
  last_parsed mk rs start
  = last_parsed mk (filter (fun r => String.eqb (doc_month_key r) mk) rs) start.
Proof.
  unfold last_parsed. revert start. induction rs as [|r rs IH]; intros start; [reflexivity|].
  cbn [fold_left filter]. destruct (String.eqb (doc_month_key r) mk) eqn:E.
  - cbn [fold_left]. rewrite E. apply IH.
  - apply IH.
Qed.

(** * ORDER BY *)

Lemma insert_desc_perm {R : Type} (key : R -> string) (x : R) (l : list R) :
  Permutation (insert_desc key x l) (x :: l).
Proof.
  induction l as [|y l IH]; cbn; [reflexivity|].
  destruct (String.ltb (key x) (key y)); [|reflexivity].
  rewrite IH. apply perm_swap.
Qed.

Lemma order_by_desc_perm {R : Type} (key : R -> string) (l : list R) :
  Permutation (order_by_desc key l) l.
Proof.
  induction l as [|x l IH]; cbn; [reflexivity|].
  rewrite insert_desc_perm. constructor. exact IH.
Qed.

Lemma filter_perm {R : Type} (keep : R -> bool) (xs ys : list R) :
  Permutation xs ys -> Permutation (filter keep xs) (filter keep ys).
Proof.
  induction 1 as [|x l l' _ IH|x y l|l l' l'' _ IH1 _ IH2]; cbn.
  - reflexivity.
  - destruct (keep x); [constructor|]; exact IH.
  - destruct (keep x), (keep y); try reflexivity. apply perm_swap.
  - etransitivity; eassumption.
Qed.

Lemma filter_user_then_month u mk (l : list doc_row) :
  filter (fun r => String.eqb (doc_month_key r) mk)
    (filter (fun r => Nat.eqb (doc_user_id r) u) l)
  = filter (same_doc_key u mk) l.
Proof.
  induction l as [|r l IH]; [reflexivity|]. cbn [filter].
  unfold same_doc_key at 1.
  destruct (Nat.eqb (doc_user_id r) u); cbn [filter andb]; [|exact IH].
  destruct (String.eqb (doc_month_key r) mk); [rewrite IH|]; auto.
Qed.

(** The rows a read goes through, in the order it goes through them. *)
Lemma selected_rows_at u k mk e :
  Permutation
    (filter (fun r => String.eqb (doc_month_key r) mk)
       (order_by_desc doc_month_key
          (filter (fun r => Nat.eqb (doc_user_id r) u) (rows (doc_table k (db e))))))
    (doc_rows_at u k mk e).
Proof.
  unfold doc_rows_at. rewrite <- filter_user_then_month.
  apply filter_perm, order_by_desc_perm.
Qed.

(** What a read shows under a month-key other than [__proto__]: the parsed
    payload of the row of that key, nothing when the row is missing or its
    payload is no JSON. *)
Lemma read_back u k mk e :
  mk <> "__proto__" ->
  let o :=
    build_docs
      (order_by_desc doc_month_key
         (filter (fun r => Nat.eqb (doc_user_id r) u) (rows (doc_table k (db e))))) in
  (forall row, doc_rows_at u k mk e = [row] -> get_prop mk o = JSON_parse (doc_data row))
  /\ (doc_rows_at u k mk e = [] -> get_prop mk o = None).
Proof.
  intros Hmk o. subst o. rewrite build_docs_lookup, last_parsed_filter by assumption.
  pose proof (selected_rows_at u k mk e) as Hp. split.
  - intros row Hrow. rewrite Hrow in Hp. apply Permutation_sym in Hp.
    apply Permutation_length_1_inv in Hp. rewrite Hp. unfold last_parsed. cbn.
    assert (String.eqb (doc_month_key row) mk = true) as Hk.
    { assert (In row (doc_rows_at u k mk e)) as Hin by (rewrite Hrow; left; reflexivity).
      unfold doc_rows_at in Hin. apply filter_In in Hin. destruct Hin as [_ Hin].
      unfold same_doc_key in Hin. apply andb_true_iff in Hin. apply Hin. }
    rewrite Hk. destruct (JSON_parse (doc_data row)); reflexivity.
  - intros Hnil. rewrite Hnil in Hp. apply Permutation_sym, Permutation_nil in Hp.
    rewrite Hp. reflexivity.
Qed.

(** * A bulk POST that meets a fault *)

Lemma exec_upsert_accepted w e q :
  is_upsert q = true -> rejects w q = None -> exists id, snd (exec w e q) = Ok id.
Proof.
  intros Hq Hr. unfold exec. rewrite Hr.
  destruct q; try discriminate; cbn; eexists; reflexivity.
Qed.

Lemma drain_upserts_failed w c t qs :
  forallb is_upsert qs = true ->
  forall late e st, hasError st = true ->
    let st' := snd (fst (drain w c t (map (fun q => (q, UpsertCallback)) qs) late e st)) in
    hasError st' = true /\ sent st' = sent st.
Proof.
  induction qs as [|q qs IH]; intros Hq late e st Hst; [split; [exact Hst | reflexivity]|].
  cbn in Hq. apply andb_true_iff in Hq. destruct Hq as [Hq Hqs].
  cbn [map drain]. destruct (exec w e q) as [e1 res].
  assert (run_callback w c t UpsertCallback res st = (count_operation st, [])) as E
    by (cbn; rewrite Hst; destruct res; reflexivity).
  rewrite E. apply (IH Hqs (late ++ []) e1 (count_operation st)). exact Hst.
Qed.

Lemma drain_upserts_sent w c t qs :
  forallb is_upsert qs = true ->
  forall late e st, hasError st = false -> sent st = None ->
    let st' := snd (fst (drain w c t (map (fun q => (q, UpsertCallback)) qs) late e st)) in
    match first_rejection w qs with
    | Some m =>
        hasError st' = true
        /\ sent st' = Some (handleError w m "Errore nel salvataggio bulk")
    | None => hasError st' = false /\ sent st' = None
    end.
Proof.
  induction qs as [|q qs IH]; intros Hq late e st Hst Hsent; [split; assumption|].
  cbn in Hq. apply andb_true_iff in Hq. destruct Hq as [Hq Hqs].
  cbn [map drain first_rejection].
  destruct (rejects w q) as [m|] eqn:Hr.
  - rewrite (exec_rejected w e q m Hr).
    cbn [run_callback]. rewrite Hst. cbn [negb].
    unfold handleTransactionError. rewrite Hst.
    match goal with
    | |- context [drain w c t _ ?l e ?s] =>
        exact (drain_upserts_failed w c t qs Hqs l e s eq_refl)
    end.
  - destruct (exec_upsert_accepted w e q Hq Hr) as (id & Hid).
    destruct (exec w e q) as [e1 res]. cbn [snd] in Hid. subst res.
    cbn [run_callback]. apply (IH Hqs (late ++ []) e1 (count_operation st)); assumption.
Qed.

(** When the engine fails an upsert of a bulk POST, the call answers 500
    with the message of the first upsert that failed. *)
Theorem post_sync_reports_failure w e c t req_body m :
  first_rejection w (sync_writes (userId t) req_body) = Some m ->
  snd (post_sync w e c t req_body)
  = Some (handleError w m "Errore nel salvataggio bulk").
Proof.
  intros Hm. unfold post_sync. rewrite sync_statements_queue.
  cbn [drain]. destruct (exec w e BEGIN_TRANSACTION) as [eb rb].
  cbn [run_callback app]. rewrite drain_app.
  set (st0 := {| hasError := false; operationsCount := 0; sent := None |}).
  pose proof (drain_upserts_sent w c t (sync_writes (userId t) req_body)
                (sync_writes_upserts _ _) [] eb st0 eq_refl eq_refl) as H.
  rewrite Hm in H. cbv zeta in H.
  destruct (drain w c t _ [] eb st0) as [[eu st] late]. cbn [fst snd] in H.
  destruct H as [He Hs]. cbn [drain].
  destruct (exec w eu COMMIT) as [ec rc].
  assert (run_callback w c t CommitCallback rc st = (st, [])) as E
    by (cbn; rewrite He; destruct rc; reflexivity).
  rewrite E. cbn. exact Hs.
Qed.

(** * Writing a document, then reading it *)

Lemma map_singleton {A B : Type} (f : A -> B) (l : list A) (y : B) :
  map f l = [y] -> exists x, l = [x] /\ f x = y.
Proof.
  destruct l as [|x [|x' l]]; try discriminate. cbn. intros [= <-]. eauto.
Qed.

Lemma get_docs_response k w e t :
  rejects w (SelectDocs k (userId t)) = None ->
  snd (get_docs k w e t)
  = json 200
      [(kind_name k,
        JObj (build_docs
                (order_by_desc doc_month_key
                   (filter (fun r => Nat.eqb (doc_user_id r) (userId t))
                      (rows (doc_table k (db e)))))))].
Proof. intros H. unfold get_docs, db_all_docs. rewrite H. reflexivity. Qed.

(** Round trip, for every month-key but [__proto__]: a payload with no
    number beyond the doubles, written through a per-resource POST, is what
    the read of that kind shows under the key. *)
Theorem put_then_get_roundtrip k w w' e c t mk req_body v :
  healthy w -> healthy w' -> mk <> "__proto__" ->
  get_prop "data" req_body = Some v -> truthy v = true -> wf_json v = true ->
  finite_json v = true ->
  exists o,
    snd (get_docs k w' (fst (post_doc k w e c t mk req_body)) t)
    = json 200 [(kind_name k, JObj o)]
    /\ get_prop mk o = Some v.
Proof.
  intros Hw Hw' Hmk Hd Ht Hwf Hfin.
  set (e1 := fst (post_doc k w e c t mk req_body)).
  pose proof (handle_docs_at w e
                {| from := c; user := t; call := PostDoc k mk req_body |}
                (userId t) k mk Hw) as H.
  unfold handle, request_writes in H. cbn [call user from some_response fst] in H.
  fold e1 in H.
  rewrite Nat.eqb_refl, kind_eqb_refl, String.eqb_refl, Hd, Ht in H. cbn in H.
  apply map_singleton in H. destruct H as (row & Hrow & Hdata).
  rewrite get_docs_response by apply Hw'. eexists. split; [reflexivity|].
  destruct (read_back (userId t) k mk e1 Hmk) as (Hone & _).
  rewrite (Hone row Hrow), Hdata. apply JSON_roundtrip; assumption.
Qed.

(** * Lenient reads *)

Theorem lenient_read w e c t :
  healthy w ->
  exists nutrition workouts others,
    snd (get_sync w e c t)
    = json 200 (("nutrition", JObj nutrition) :: ("workouts", JObj workouts) :: others)
    /\ forall k mk, mk <> "__proto__" ->
       let o := match k with Nutrition => nutrition | Workout => workouts end in
       (forall row, doc_rows_at (userId t) k mk e = [row] ->
                    get_prop mk o = JSON_parse (doc_data row))
       /\ (doc_rows_at (userId t) k mk e = [] -> get_prop mk o = None).
Proof.
  intros Hw. unfold get_sync, db_all_docs, db_get_settings. rewrite !Hw. cbn [snd].
  eexists _, _, _. split; [reflexivity|].
  intros k mk Hmk. destruct k; apply read_back; assumption.
Qed.

(** Round trip, from the text of the request: the [data] of a body that
    [express.json] parsed, when none of its numbers is beyond the doubles
    (such a number is an infinity once parsed and is stored as null), once
    posted under a month-key other than [__proto__], is what the read of that
    kind shows under the key. *)
Theorem posted_data_is_read_back k w w' e c t mk text req_body v :
  healthy w -> healthy w' -> mk <> "__proto__" ->
  JSON_parse text = Some (JObj req_body) ->
  get_prop "data" req_body = Some v -> truthy v = true ->
  finite_json v = true ->
  exists o,
    snd (get_docs k w' (fst (post_doc k w e c t mk req_body)) t)
    = json 200 [(kind_name k, JObj o)]
    /\ get_prop mk o = Some v.
Proof.
  intros Hw Hw' Hmk Hbody Hd Ht Hfin.
  apply (put_then_get_roundtrip k w w' e c t mk req_body v); try assumption.
  eapply wf_json_prop; [eapply JSON_parse_wf, Hbody | exact Hd].
Qed.

(** * The settings row of a bulk POST *)

Lemma fold_settings_over_docs w k u section t :
  fold_left (settings_step w) (map fst (doc_upserts k u section)) t = t.
Proof.
  apply fold_settings_step_none. intros q Hq. apply in_map_iff in Hq.
  destruct Hq as ([q' cb] & <- & Hin). unfold doc_upserts in Hin.
  apply in_map_iff in Hin. destruct Hin as (kv & [= <- _] & _). exact I.
Qed.

Lemma post_sync_settings w e c t req_body s :
  healthy w ->
  get_prop "settings" req_body = Some s -> is_object (Some s) = true ->
  user_settings (db (fst (post_sync w e c t req_body)))
  = fst (upsert_settings (current_timestamp w) (userId t) (JSON_stringify s)
           (user_settings (db e))).
Proof.
  intros Hw Hs Hobj.
  destruct (post_sync_keeps_accepted_writes w e c t req_body (Hw COMMIT)) as (_ & H).
  rewrite H. unfold sync_writes. rewrite !map_app, !fold_left_app.
  rewrite !fold_settings_over_docs, Hs. unfold settings_upsert. rewrite Hobj.
  cbn [map fst fold_left settings_step]. rewrite Hw. reflexivity.
Qed.

(** The rows of a user after an upsert of the settings of that user: the
    new row alone. *)
Lemma settings_rows_upsert_same now u s t :
  filter (fun r => Nat.eqb (set_user_id r) u) (rows (fst (upsert_settings now u s t)))
  = [{| set_id := next_rowid set_id t; set_user_id := u; set_settings := s;
        set_updated_at := now |}].
Proof.
  cbn [upsert_settings fst rows]. rewrite filter_app, filter_none.
  - cbn [filter set_user_id app]. rewrite Nat.eqb_refl. reflexivity.
  - intros x Hx. rewrite Hx. reflexivity.
Qed.

(** * The claims *)

(** C1 (defect of the code).  The claim: when the storage engine rejects an
    upsert of a bulk POST, every upsert of the call is rolled back before
    the failure is reported, those that went through before or after the
    failing one included.  The code: ROLLBACK is issued from the callback of
    the failed upsert, when COMMIT is already queued, so it runs after
    COMMIT and fails.  Here the nutrition plans of 2025-07 and 2025-08 are
    posted while another connection holds the write lock of the database
    file: the first upsert, the one that asks for the lock, fails with
    SQLITE_BUSY, which leaves the transaction open; the lock is free for the
    second one, and no other statement of the call fails.  The call answers
    500, the plan of 2025-08 is stored and committed, no transaction is left
    open, and the one error that no callback takes is that of the ROLLBACK
    that came too late. *)
Theorem C1_bulk_write_is_not_rolled_back :
  filter
    (fun q => match rejects (failing_month "2025-07") q with
              | Some _ => true
              | None => false
              end)
    (map fst (sync_statements 1 two_months))
  = [UpsertDoc Nutrition 1 "2025-07" (JSON_stringify deficit_plan)]
  /\ first_rejection (failing_month "2025-07") (sync_writes 1 two_months)
     = Some "SQLITE_BUSY: database is locked"
  /\ option_map status
       (snd (post_sync (failing_month "2025-07") fresh_engine a_client a_user two_months))
     = Some 500
  /\ docs_at 1 Nutrition "2025-07"
       (fst (post_sync (failing_month "2025-07") fresh_engine a_client a_user two_months))
     = []
  /\ docs_at 1 Nutrition "2025-08"
       (fst (post_sync (failing_month "2025-07") fresh_engine a_client a_user two_months))
     = [JSON_stringify surplus_plan]
  /\ txn (fst (post_sync (failing_month "2025-07") fresh_engine a_client a_user two_months))
     = None
  /\ error_events (failing_month "2025-07") fresh_engine a_client a_user two_months
     = ["SQLITE_ERROR: cannot rollback - no transaction is active"].
Proof.
  split; [reflexivity|]. split; [reflexivity|]. split; [reflexivity|].
  split; [reflexivity|]. split; [reflexivity|]. split; reflexivity.
Qed.

(** C2 (defect of the code).  The claim: a payload written through a
    per-resource POST is read back deep-equal, for every month-key.  The
    code builds the answer of a read by assignment into an object literal,
    under which the month-key [__proto__] names no property: a plan posted
    to /api/nutrition/__proto__ is stored, and GET /api/nutrition answers
    with an empty map. *)
Theorem C2_proto_month_key_is_not_read_back :
  status (snd (post_doc Nutrition quiet_runtime fresh_engine a_client a_user
                 "__proto__" [("data", deficit_plan)])) = 200
  /\ docs_at 1 Nutrition "__proto__"
       (fst (post_doc Nutrition quiet_runtime fresh_engine a_client a_user
               "__proto__" [("data", deficit_plan)]))
     = [JSON_stringify deficit_plan]
  /\ JSON_parse (JSON_stringify deficit_plan) = Some deficit_plan
  /\ snd (get_docs Nutrition quiet_runtime
            (fst (post_doc Nutrition quiet_runtime fresh_engine a_client a_user
                    "__proto__" [("data", deficit_plan)]))
            a_user)
     = json 200 [("nutrition", JObj [])].
Proof.
  split; [reflexivity|]. split; [reflexivity|]. split; reflexivity.
Qed.

(** C3.  After any sequence of requests served by a healthy engine, if the
    last payload written under a (user, kind, month-key), by a per-resource
    POST or a bulk POST, is [v], the store holds exactly one row for the
    key and its payload is the text of [v]: a write replaces the row, it
    neither adds a second one nor merges with the old payload. *)
Theorem C3_last_write_wins (e : engine) (trace : list (runtime * request))
    (u : nat) (k : kind) (mk : string) (ws : list jsval) (v : jsval) :
  (forall wr, In wr trace -> healthy (fst wr)) ->
  trace_writes u k mk trace = ws ++ [v] ->
  length (doc_rows_at u k mk (serve e trace)) = 1
  /\ docs_at u k mk (serve e trace) = [JSON_stringify v].
Proof.
  intros Hw Hv.
  assert (docs_at u k mk (serve e trace) = [JSON_stringify v]) as H.
  { rewrite serve_docs_at by assumption. rewrite Hv, map_app. apply last_write_last. }
  split; [|exact H].
  unfold docs_at in H. apply (f_equal (@length string)) in H.
  rewrite length_map in H. exact H.
Qed.

Lemma C3_last_write_wins_witness :
  trace_writes 1 Nutrition "2025-07" july_twice = [deficit_plan] ++ [surplus_plan]
  /\ length (doc_rows_at 1 Nutrition "2025-07" (serve fresh_engine july_twice)) = 1
  /\ docs_at 1 Nutrition "2025-07" (serve fresh_engine july_twice)
     = [JSON_stringify surplus_plan].
Proof.
  split; [reflexivity|].
  apply (C3_last_write_wins fresh_engine july_twice 1 Nutrition "2025-07"
           [deficit_plan] surplus_plan).
  - intros wr [<-|[<-|[]]] q; reflexivity.
  - reflexivity.
Defined.

Lemma section_entries_none section :
  no_section section = true -> section_entries section = [].
Proof.
  destruct section as [[]|]; try discriminate; intros _; try reflexivity;
    unfold section_entries, is_object; cbn; rewrite andb_false_r; reflexivity.
Qed.

Lemma settings_upsert_none u section :
  no_section section = true -> settings_upsert u section = [].
Proof.
  destruct section as [[]|]; try discriminate; intros _; try reflexivity;
    unfold settings_upsert, is_object; cbn; rewrite andb_false_r; reflexivity.
Qed.

(** The statements of a bulk POST, section by section. *)
Lemma in_sync_writes q u req_body :
  In q (sync_writes u req_body) ->
  (exists kv, In kv (section_entries (get_prop "nutrition" req_body))
              /\ q = UpsertDoc Nutrition u (fst kv) (JSON_stringify (snd kv)))
  \/ (exists kv, In kv (section_entries (get_prop "workouts" req_body))
                 /\ q = UpsertDoc Workout u (fst kv) (JSON_stringify (snd kv)))
  \/ (exists s, settings_upsert u (get_prop "settings" req_body) <> []
                /\ q = UpsertSettings u s).
Proof.
  unfold sync_writes, doc_upserts. rewrite !map_app, !in_app_iff, !map_map. cbn [fst].
  intros [H|[H|H]].
  - left. apply in_map_iff in H. destruct H as (kv & <- & Hin). eauto.
  - right. left. apply in_map_iff in H. destruct H as (kv & <- & Hin). eauto.
  - right. right. unfold settings_upsert in *.
    destruct (get_prop "settings" req_body) as [x|]; [|contradiction].
    destruct (is_object (Some x)); [|contradiction].
    destruct H as [<-|[]]. eexists. split; [discriminate | reflexivity].
Qed.

Lemma unique_entry (l : list (string * jsval)) (mk : string) (v : jsval) :
  In (mk, v) l -> nodup_keys (map fst l) = true ->
  map snd (filter (fun kv => String.eqb (fst kv) mk) l) = [v].
Proof.
  induction l as [|[k0 v0] l IH]; [contradiction|]. intros Hin Hnd.
  cbn in Hnd. apply andb_true_iff in Hnd. destruct Hnd as [Hk0 Hnd].
  apply negb_true_iff in Hk0. cbn [filter fst].
  destruct Hin as [[= -> ->]|Hin].
  - rewrite String.eqb_refl. cbn [map snd]. f_equal.
    clear - Hk0. induction l as [|[k1 v1] l IH]; [reflexivity|].
    cbn in Hk0. apply orb_false_iff in Hk0. destruct Hk0 as [H1 H2].
    cbn [filter fst]. rewrite String.eqb_sym, H1. apply IH, H2.
  - destruct (String.eqb_spec k0 mk) as [->|]; [|apply IH; assumption].
    exfalso. clear - Hk0 Hin. apply (in_map fst) in Hin. cbn in Hin.
    induction (map fst l) as [|a l' IH]; [contradiction|].
    cbn in Hk0. apply orb_false_iff in Hk0. destruct Hk0 as [H1 H2].
    destruct Hin as [->|Hin]; [rewrite String.eqb_refl in H1; discriminate | auto].
Qed.

(** C4.  A bulk POST served by a healthy engine, on a connection with no
    transaction open, answers 200 with the number of its upserts: one for
    each entry of a nutrition or workouts section that is an object, one for
    a settings section that is one.  A section that is absent, or present
    and not an object (null, a boolean, a number, a string), leaves the
    stored documents of its kind, or the stored settings, as they were;
    every entry of a nutrition or workouts section that is an object is
    stored under its month-key; and a settings section that is an object is
    stored as the settings of the user: afterwards the user has one settings
    row, a new one, with the text of the section. *)
Theorem C4_bulk_write_sections (w : runtime) (e : engine) (c : client) (t : token)
    (req_body : jsobj) :
  healthy w -> txn e = None ->
  snd (post_sync w e c t req_body)
  = Some (json 200
            [("message", JStr "Sincronizzazione completata");
             ("operations",
              JInt (Z.of_nat (length (sync_writes (userId t) req_body))));
             ("timestamp", JStr (now_iso w))])
  /\ length (sync_writes (userId t) req_body)
     = length (section_entries (get_prop "nutrition" req_body))
       + length (section_entries (get_prop "workouts" req_body))
       + (if is_object (get_prop "settings" req_body) then 1 else 0)
  /\ (forall k, no_section (get_prop (kind_name k) req_body) = true ->
        doc_table k (db (fst (post_sync w e c t req_body))) = doc_table k (db e))
  /\ (no_section (get_prop "settings" req_body) = true ->
        user_settings (db (fst (post_sync w e c t req_body))) = user_settings (db e))
  /\ (forall k mk v,
        In (mk, v) (section_entries (get_prop (kind_name k) req_body)) ->
        nodup_keys (map fst (section_entries (get_prop (kind_name k) req_body))) = true ->
        docs_at (userId t) k mk (fst (post_sync w e c t req_body)) = [JSON_stringify v])
  /\ (forall s,
        get_prop "settings" req_body = Some s -> is_object (Some s) = true ->
        filter (fun r => Nat.eqb (set_user_id r) (userId t))
          (rows (user_settings (db (fst (post_sync w e c t req_body)))))
        = [{| set_id := next_rowid set_id (user_settings (db e));
              set_user_id := userId t;
              set_settings := JSON_stringify s;
              set_updated_at := current_timestamp w |}]).
Proof.
  intros Hw _.
  destruct (post_sync_keeps_accepted_writes w e c t req_body (Hw COMMIT)) as (Hd & Hs).
  split; [apply post_sync_healthy_response, Hw|]. split; [|split; [|split; [|split]]].
  - unfold sync_writes, doc_upserts, settings_upsert.
    rewrite !map_app, !length_app, !length_map, Nat.add_assoc. f_equal.
    destruct (get_prop "settings" req_body) as [s|]; [|reflexivity].
    destruct (is_object (Some s)); reflexivity.
  - intros k Hk. rewrite Hd. apply fold_doc_step_none.
    intros q Hq. apply in_sync_writes in Hq.
    apply section_entries_none in Hk.
    destruct Hq as [(kv & Hin & ->)|[(kv & Hin & ->)|(s & _ & ->)]]; [| |exact I].
    + destruct k; [|reflexivity]. cbn in Hk. rewrite Hk in Hin. contradiction.
    + destruct k; [reflexivity|]. cbn in Hk. rewrite Hk in Hin. contradiction.
  - intros Hk. rewrite Hs. apply fold_settings_step_none.
    intros q Hq. apply in_sync_writes in Hq.
    destruct Hq as [(kv & _ & ->)|[(kv & _ & ->)|(s & Hne & ->)]]; [exact I | exact I |].
    apply Hne, settings_upsert_none, Hk.
  - intros k mk v Hin Hnd. unfold docs_at, doc_rows_at.
    rewrite Hd, docs_fold_doc_step by assumption.
    pose proof (stmt_writes_request (userId t) k mk
                  {| from := c; user := t; call := PostSync req_body |}) as Hreq.
    unfold data_writes, request_writes in Hreq. cbn [call user] in Hreq.
    rewrite Nat.eqb_refl in Hreq. rewrite Hreq.
    rewrite (unique_entry _ mk v Hin Hnd). reflexivity.
  - intros s Hsec Hobj.
    rewrite (post_sync_settings w e c t req_body s Hw Hsec Hobj).
    apply settings_rows_upsert_same.
Qed.

Lemma C4_bulk_write_sections_witness :
  no_section (get_prop (kind_name Workout) two_months_and_text) = true
  /\ workout_data
       (db (fst (post_sync quiet_runtime fresh_engine a_client a_user two_months_and_text)))
     = workout_data (db fresh_engine)
  /\ docs_at 1 Nutrition "2025-07"
       (fst (post_sync quiet_runtime fresh_engine a_client a_user two_months_and_text))
     = [JSON_stringify deficit_plan]
  /\ docs_at 1 Nutrition "2025-08"
       (fst (post_sync quiet_runtime fresh_engine a_client a_user two_months_and_text))
     = [JSON_stringify surplus_plan]
  /\ map set_settings
       (filter (fun r => Nat.eqb (set_user_id r) 1)
          (rows (user_settings
                   (db (fst (post_sync quiet_runtime fresh_engine a_client a_user
                               two_months_and_text))))))
     = [JSON_stringify (JObj [("height", JInt 181)])].
Proof.
  destruct (C4_bulk_write_sections quiet_runtime fresh_engine a_client a_user
              two_months_and_text (fun q => eq_refl) eq_refl)
    as (_ & _ & Hk & _ & Hin & Hset).
  split; [reflexivity|]. split; [exact (Hk Workout eq_refl)|]. split; [|split].
  - apply (Hin Nutrition "2025-07" deficit_plan); [left; reflexivity | reflexivity].
  - apply (Hin Nutrition "2025-08" surplus_plan);
      [right; left; reflexivity | reflexivity].
  - cbn [userId a_user] in Hset.
    rewrite (Hset (JObj [("height", JInt 181)]) eq_refl eq_refl). reflexivity.
Defined.

(** C5 (defect of the code).  The claim: a read of everything returns every
    parseable document and leaves out exactly the unparseable ones.  The
    code leaves out one more: of three stored nutrition rows (a plan of
    2025-07, a plan under the month-key [__proto__], a row of 2025-08 cut
    short) GET /api/sync answers 200 with the plan of 2025-07 alone; the
    row under [__proto__] parses and is missing all the same.  The defect is
    the one of C2. *)
Theorem C5_parseable_document_is_left_out :
  JSON_parse (JSON_stringify surplus_plan) = Some surplus_plan
  /\ JSON_parse "{ phase: " = None
  /\ docs_at 1 Nutrition "__proto__" (with_nutrition three_rows)
     = [JSON_stringify surplus_plan]
  /\ snd (get_sync quiet_runtime (with_nutrition three_rows) a_client a_user)
     = json 200
         [("nutrition", JObj [("2025-07", deficit_plan)]);
          ("workouts", JObj []);
          ("settings", default_settings);
          ("lastSync", JStr "2025-07-23T07:00:00.000Z");
          ("user", JObj [("id", JInt 1); ("email", JStr "anna@example.org")])].
Proof.
  split; [reflexivity|]. split; [reflexivity|]. split; reflexivity.
Qed.

(** C6.  For a user with no settings row, GET /api/settings answers with
    exactly [{height: 177, targetBodyFat: 15, currentBodyFat: 22}], and so
    does the settings part of GET /api/sync. *)
Theorem C6_default_settings (w : runtime) (e : engine) (c : client) (t : token) :
  healthy w ->
  settings_at (userId t) e = None ->
  snd (get_settings w e t)
  = json 200
      [("settings",
        JObj [("height", JInt 177); ("targetBodyFat", JInt 15);
              ("currentBodyFat", JInt 22)])]
  /\ exists o,
       snd (get_sync w e c t) = json 200 o
       /\ get_prop "settings" o
          = Some (JObj [("height", JInt 177); ("targetBodyFat", JInt 15);
                        ("currentBodyFat", JInt 22)]).
Proof.
  intros Hw Hrow. unfold settings_at in Hrow. split.
  - unfold get_settings, db_get_settings. rewrite Hw, Hrow. reflexivity.
  - unfold get_sync, db_all_docs, db_get_settings. rewrite !Hw, Hrow. cbn [snd].
    eexists. split; reflexivity.
Qed.

Lemma C6_default_settings_witness :
  settings_at 1 fresh_engine = None
  /\ snd (get_settings quiet_runtime fresh_engine a_user)
     = json 200
         [("settings",
           JObj [("height", JInt 177); ("targetBodyFat", JInt 15);
                 ("currentBodyFat", JInt 22)])].
Proof.
  split; [reflexivity|].
  apply (C6_default_settings quiet_runtime fresh_engine a_client a_user);
    [intros q|]; reflexivity.
Defined.

(** * GET /api/logs *)

Lemma sql_limit_length {R : Type} (n : Z) (l : list R) :
  (0 <= n)%Z -> length (sql_limit n l) <= Z.to_nat n.
Proof.
  intros Hn. unfold sql_limit.
  replace (n <? 0)%Z with false by (symmetry; apply Z.ltb_ge; exact Hn).
  apply firstn_le_length.
Qed.

Lemma logs_returned_rows w e t q (returned : list jsval) :
  logs_returned (snd (get_logs w e t q)) = Some returned ->
  length returned
  = length (sql_limit (logs_limit q)
              (order_by_desc log_timestamp
                 (filter (log_of_user (userId t)) (rows (activity_logs (db e)))))).
Proof.
  unfold get_logs, db_all_logs.
  destruct (rejects w _).
  - unfold handleError, logs_returned. cbn.
    destruct (String.eqb (NODE_ENV w) "development"); discriminate.
  - cbn. intros [= <-]. apply length_map.
Qed.

(** C7, the claim as stated fails: with the query [limit=0] GET /api/logs
    does not return at most 0 rows, it returns up to 50. *)
Lemma C7_limit_zero_returns_rows :
  parseInt (Some "0") = Some 0%Z
  /\ exists returned,
       logs_returned
         (snd (get_logs quiet_runtime (with_logs [login_log 1]) a_user (Some "0")))
       = Some returned
       /\ (0 < Z.of_nat (length returned))%Z.
Proof.
  split; [reflexivity|]. eexists. split; [reflexivity|]. reflexivity.
Qed.

(** C7, amended.  GET /api/logs returns at most [min(n, 100)] rows when
    the [limit] parameter parses to a positive integer [n], and at most 50
    when the parameter is absent, does not parse, or parses to 0. *)
Theorem C7_log_rows_bounded (w : runtime) (e : engine) (t : token)
    (q : option string) (returned : list jsval) :
  logs_returned (snd (get_logs w e t q)) = Some returned ->
  (forall n, parseInt q = Some n -> (0 < n)%Z ->
             (Z.of_nat (length returned) <= Z.min n 100)%Z)
  /\ (parseInt q = None \/ parseInt q = Some 0%Z -> length returned <= 50).
Proof.
  intros H. apply logs_returned_rows in H. rewrite H. clear H. split.
  - intros n Hq Hn. unfold logs_limit. rewrite Hq.
    replace (n =? 0)%Z with false by (symmetry; apply Z.eqb_neq; lia).
    match goal with
    | |- context [sql_limit ?m ?l] => pose proof (sql_limit_length m l) as Hl
    end.
    lia.
  - intros Hq.
    assert (logs_limit q = 50%Z) as E
      by (unfold logs_limit; destruct Hq as [-> | ->]; reflexivity).
    rewrite E.
    match goal with
    | |- context [sql_limit 50%Z ?l] => pose proof (sql_limit_length 50%Z l) as Hl
    end.
    lia.
Qed.

Lemma C7_log_rows_bounded_witness :
  logs_returned
    (snd (get_logs quiet_runtime (with_logs [login_log 1; login_log 2]) a_user (Some "1")))
  = Some [log_json (login_log 1)]
  /\ (forall n, parseInt (Some "1") = Some n -> (0 < n)%Z ->
                (Z.of_nat (length [log_json (login_log 1)]) <= Z.min n 100)%Z).
Proof.
  split; [reflexivity|].
  apply (C7_log_rows_bounded quiet_runtime (with_logs [login_log 1; login_log 2])
           a_user (Some "1") [log_json (login_log 1)]).
  reflexivity.
Defined.

(** A negative [limit] is passed on to [LIMIT], which then bounds nothing:
    every log row of the user is returned. *)
Theorem negative_limit_returns_every_row (w : runtime) (e : engine) (t : token)
    (q : option string) (n : Z) :
  healthy w -> parseInt q = Some n -> (- 2 ^ 53 <= n < 0)%Z ->
  exists returned,
    logs_returned (snd (get_logs w e t q)) = Some returned
    /\ length returned
       = length (filter (log_of_user (userId t)) (rows (activity_logs (db e)))).
Proof.
  intros Hw Hq Hn. unfold get_logs, db_all_logs. rewrite Hw. cbn.
  eexists. split; [reflexivity|]. rewrite length_map.
  unfold logs_limit. rewrite Hq.
  replace (n =? 0)%Z with false by (symmetry; apply Z.eqb_neq; lia).
  unfold sql_limit.
  replace (Z.min n 100 <? 0)%Z with true by (symmetry; apply Z.ltb_lt; lia).
  apply Permutation_length, order_by_desc_perm.
Qed.

(** * POST /api/auth/register *)

Lemma email_taken_find em t :
  email_taken em t = true ->
  exists row, find (fun r => String.eqb (usr_email r) em) (rows t) = Some row.
Proof.
  unfold email_taken. induction (rows t) as [|r l IH]; [discriminate|]. cbn.
  destruct (String.eqb (usr_email r) em); [eauto | exact IH].
Qed.

Lemma utf16_length_nonempty pw : 6 <= utf16_length pw -> String.eqb pw "" = false.
Proof. destruct pw; cbn; [lia | reflexivity]. Qed.

(** On a body whose fields are strings the handler is [post_register]. *)
Lemma register_on_strings (h : host) (e : engine) (c : client) (b : register_body) :
  post_auth_register h e c (body_of b) = post_register (rt h) e c b.
Proof.
  assert (Hname : forall n, (if truthy (JStr n) then bound h (JStr n) else "") = n).
  { intros n. cbn [truthy bound]. destruct (String.eqb_spec n "") as [->|_]; reflexivity. }
  destruct b as [[em|] [pw|] [nm|]]; try reflexivity;
    unfold post_auth_register, post_register, body_of;
    cbn [reg_email reg_password reg_name app get_prop];
    repeat match goal with
           | |- context [String.eqb ?a ?b] =>
               match a with
               | String _ _ =>
                   match b with
                   | String _ _ =>
                       let v := eval vm_compute in (String.eqb a b) in
                       change (String.eqb a b) with v
                   end
               end
           end;
    cbv iota; rewrite ?Hname;
    cbn [truthy password_too_short bound hashPassword generateToken];
    rewrite !negb_involutive;
    (destruct (String.eqb em "" || String.eqb pw ""); [reflexivity|]);
    (destruct (utf16_length pw <? 6)%nat; [reflexivity|]);
    (destruct (db_get_user_by_email (rt h) e em) as [[u|]|m]; try reflexivity);
    (destruct (bcrypt_hash (rt h) pw) as [hash|m]; reflexivity).
Qed.

(** C8, the claim as stated fails: a registration with the email of a
    stored user and a password of five characters is rejected for its
    password, not for its email. *)
Lemma C8_short_password_is_reported_first :
  email_taken "anna@example.org" (users (db (with_users [anna]))) = true
  /\ error_code
       (snd (post_auth_register quiet_host (with_users [anna]) a_client
               [("email", JStr "anna@example.org"); ("password", JStr "12345")]))
     = Some (JStr "PASSWORD_TOO_SHORT").
Proof. split; reflexivity. Qed.

(** A registration with the email of a stored user, whatever the body
    holds: the store is left as it is, and the response is that of the first
    check that stops the request. *)
Lemma register_with_taken_email (h : host) (e : engine) (c : client)
    (req_body : jsobj) (em : jsval) :
  get_prop "email" req_body = Some em ->
  email_taken (bound h em) (users (db e)) = true ->
  post_auth_register h e c req_body
  = (e,
     match get_prop "password" req_body with
     | Some pw =>
         if negb (truthy em) || negb (truthy pw) then
           json 400 [("error", JStr "Email e password sono richiesti");
                     ("code", JStr "MISSING_FIELDS")]
         else
           match password_too_short pw with
           | Err m => handleError (rt h) m "Errore nella registrazione"
           | Ok true =>
               json 400 [("error", JStr "La password deve avere almeno 6 caratteri");
                         ("code", JStr "PASSWORD_TOO_SHORT")]
           | Ok false =>
               match rejects (rt h) (SelectUserByEmail (bound h em)) with
               | Some m => handleError (rt h) m "Errore controllo utente esistente"
               | None =>
                   json 400 [("error", JStr "Email già registrata");
                             ("code", JStr "EMAIL_EXISTS")]
               end
           end
     | None =>
         json 400 [("error", JStr "Email e password sono richiesti");
                   ("code", JStr "MISSING_FIELDS")]
     end).
Proof.
  intros Hem Htaken. destruct (email_taken_find _ _ Htaken) as (row & Hrow).
  unfold post_auth_register, db_get_user_by_email. rewrite Hem.
  destruct (get_prop "password" req_body) as [pw|]; [|reflexivity].
  destruct (negb (truthy em) || negb (truthy pw)); [reflexivity|].
  destruct (password_too_short pw) as [[|]|m]; try reflexivity.
  rewrite Hrow.
  destruct (rejects (rt h) (SelectUserByEmail (bound h em))); reflexivity.
Qed.

(** C8, amended.  A registration whose email is the email of a stored user
    leaves the stored state as it was, whatever its body holds.  It is
    answered MISSING_FIELDS when the email or the password is absent or
    falsy, and PASSWORD_TOO_SHORT when the password is a string of fewer
    than 6 UTF-16 code units, whatever the lookup of the email would give.
    With an email that is not falsy and a password that is a string of 6
    code units or more it is answered EMAIL_EXISTS when the engine answers
    the lookup, and 500 when the engine fails it. *)
Theorem C8_duplicate_email_rejected (h : host) (e : engine) (c : client)
    (req_body : jsobj) (em : jsval) :
  get_prop "email" req_body = Some em ->
  email_taken (bound h em) (users (db e)) = true ->
  let answer := snd (post_auth_register h e c req_body) in
  fst (post_auth_register h e c req_body) = e
  /\ (truthy em = false \/ truthy_opt (get_prop "password" req_body) = false ->
        answer = json 400 [("error", JStr "Email e password sono richiesti");
                           ("code", JStr "MISSING_FIELDS")])
  /\ (forall pw,
        get_prop "password" req_body = Some (JStr pw) -> truthy em = true ->
        pw <> "" -> utf16_length pw < 6 ->
        answer = json 400 [("error", JStr "La password deve avere almeno 6 caratteri");
                           ("code", JStr "PASSWORD_TOO_SHORT")])
  /\ (forall pw,
        get_prop "password" req_body = Some (JStr pw) -> truthy em = true ->
        6 <= utf16_length pw ->
        match rejects (rt h) (SelectUserByEmail (bound h em)) with
        | None =>
            answer = json 400 [("error", JStr "Email già registrata");
                               ("code", JStr "EMAIL_EXISTS")]
        | Some m => answer = handleError (rt h) m "Errore controllo utente esistente"
        end).
Proof.
  intros Hem Htaken answer. unfold answer.
  rewrite (register_with_taken_email h e c req_body em Hem Htaken). cbn [fst snd].
  split; [reflexivity|]. split; [|split].
  - intros Hf. destruct (get_prop "password" req_body) as [pw|]; [|reflexivity].
    cbn [truthy_opt] in Hf.
    destruct Hf as [-> | ->]; [|rewrite orb_true_r]; reflexivity.
  - intros pw -> Hte Hne Hlen. rewrite Hte. cbn [truthy password_too_short].
    apply String.eqb_neq in Hne. rewrite Hne. cbn [negb orb].
    replace (utf16_length pw <? 6)%nat with true
      by (symmetry; apply Nat.ltb_lt; exact Hlen).
    reflexivity.
  - intros pw -> Hte Hlen. rewrite Hte. cbn [truthy password_too_short].
    rewrite (utf16_length_nonempty pw Hlen). cbn [negb orb].
    replace (utf16_length pw <? 6)%nat with false
      by (symmetry; apply Nat.ltb_ge; exact Hlen).
    destruct (rejects (rt h) (SelectUserByEmail (bound h em))); reflexivity.
Qed.

Lemma C8_duplicate_email_rejected_witness :
  snd (post_auth_register quiet_host (with_users [anna]) a_client
         [("email", JStr "anna@example.org"); ("password", JStr "s3cret!");
          ("name", JStr "Anna")])
  = json 400 [("error", JStr "Email già registrata"); ("code", JStr "EMAIL_EXISTS")]
  /\ fst (post_auth_register quiet_host (with_users [anna]) a_client
            [("email", JStr "anna@example.org"); ("password", JStr "s3cret!");
             ("name", JStr "Anna")])
     = with_users [anna].
Proof.
  destruct (C8_duplicate_email_rejected quiet_host (with_users [anna]) a_client
              [("email", JStr "anna@example.org"); ("password", JStr "s3cret!");
               ("name", JStr "Anna")] (JStr "anna@example.org") eq_refl eq_refl)
    as (Hstate & _ & _ & Hpass).
  split; [|exact Hstate].
  apply (Hpass "s3cret!" eq_refl eq_refl). cbn. lia.
Defined.

(** C9.  A per-resource POST whose body carries a falsy [data] (false, 0,
    the empty string, null) is rejected with MISSING_DATA and writes
    nothing. *)
Theorem C9_falsy_data_rejected (k : kind) (w : runtime) (e : engine) (c : client)
    (t : token) (mk : string) (req_body : jsobj) (d : jsval) :
  get_prop "data" req_body = Some d ->
  d = JBool false \/ d = JInt 0 \/ d = JStr "" \/ d = JNull ->
  fst (post_doc k w e c t mk req_body) = e
  /\ status (snd (post_doc k w e c t mk req_body)) = 400
  /\ error_code (snd (post_doc k w e c t mk req_body)) = Some (JStr "MISSING_DATA").
Proof.
  intros Hd Hfalsy. unfold post_doc. rewrite Hd.
  destruct Hfalsy as [-> | [-> | [-> | ->]]]; cbn; repeat split.
Qed.

Lemma C9_falsy_data_rejected_witness :
  error_code
    (snd (post_doc Workout quiet_runtime fresh_engine a_client a_user "2025-07"
            [("data", JInt 0)]))
  = Some (JStr "MISSING_DATA").
Proof.
  apply (C9_falsy_data_rejected Workout quiet_runtime fresh_engine a_client a_user
           "2025-07" [("data", JInt 0)] (JInt 0) eq_refl).
  right. left. reflexivity.
Defined.

(** C10.  For a user whose settings row holds a payload that is no JSON,
    GET /api/settings answers 200 with exactly the default settings, and so
    does the settings part of GET /api/sync: the corrupt row shows as an
    absent one. *)
Theorem C10_corrupt_settings_default (w : runtime) (e : engine) (c : client)
    (t : token) (row : settings_row) :
  healthy w ->
  settings_at (userId t) e = Some row ->
  JSON_parse (set_settings row) = None ->
  snd (get_settings w e t)
  = json 200
      [("settings",
        JObj [("height", JInt 177); ("targetBodyFat", JInt 15);
              ("currentBodyFat", JInt 22)])]
  /\ exists o,
       snd (get_sync w e c t) = json 200 o
       /\ get_prop "settings" o
          = Some (JObj [("height", JInt 177); ("targetBodyFat", JInt 15);
                        ("currentBodyFat", JInt 22)]).
Proof.
  intros Hw Hrow Hparse. unfold settings_at in Hrow. split.
  - unfold get_settings, db_get_settings, read_settings.
    rewrite Hw, Hrow, Hparse. reflexivity.
  - unfold get_sync, db_all_docs, db_get_settings, read_settings.
    rewrite !Hw, Hrow, Hparse. cbn [snd]. eexists. split; reflexivity.
Qed.

Lemma C10_corrupt_settings_default_witness :
  settings_at 1 (with_settings [corrupt_settings]) = Some corrupt_settings
  /\ JSON_parse (set_settings corrupt_settings) = None
  /\ snd (get_settings quiet_runtime (with_settings [corrupt_settings]) a_user)
     = json 200
         [("settings",
           JObj [("height", JInt 177); ("targetBodyFat", JInt 15);
                 ("currentBodyFat", JInt 22)])].
Proof.
  split; [reflexivity|]. split; [reflexivity|].
  apply (C10_corrupt_settings_default quiet_runtime (with_settings [corrupt_settings])
           a_client a_user corrupt_settings);
    [intros q| |]; reflexivity.
Defined.

(** * Further properties of the handlers *)

(** [JSON.parse (JSON.stringify v)] is [v], for every well-formed [v] none
    of whose numbers is beyond the doubles; a number that is (an infinity,
    once parsed) is written [null] and read back as [null]. *)
Theorem stringify_then_parse (v : jsval) :
  wf_json v = true ->
  (finite_json v = true -> JSON_parse (JSON_stringify v) = Some v)
  /\ (forall m fd, v = JNum m fd -> overflows m fd = true ->
        JSON_parse (JSON_stringify v) = Some JNull).
Proof.
  intros Hwf. split; [exact (JSON_roundtrip v Hwf)|].
  intros m fd -> Hover. unfold JSON_stringify. cbn [print_value]. rewrite Hover.
  reflexivity.
Qed.

Lemma stringify_then_parse_witness :
  wf_json deficit_plan = true
  /\ JSON_parse (JSON_stringify deficit_plan) = Some deficit_plan
  /\ JSON_parse (JSON_stringify (JInt (10 ^ 400))) = Some JNull.
Proof.
  split; [reflexivity|]. split.
  - apply (stringify_then_parse deficit_plan); reflexivity.
  - apply (proj2 (stringify_then_parse (JInt (10 ^ 400)) eq_refl) (10 ^ 400)%Z 0);
      reflexivity.
Defined.

(** A bulk POST undoes no upsert.  Under the faults that fail one statement
    and leave the transaction open (SQLITE_BUSY, SQLITE_LOCKED, a
    constraint), when BEGIN and COMMIT go through: the document tables and
    the settings table after the call are those before it with every upsert
    the engine accepted applied, whatever it did with the others, and no
    transaction is left open. *)
Theorem bulk_write_keeps_accepted_upserts (w : runtime) (e : engine) (c : client)
    (t : token) (req_body : jsobj) :
  txn e = None ->
  rejects w BEGIN_TRANSACTION = None ->
  rejects w COMMIT = None ->
  (forall k,
     doc_table k (db (fst (post_sync w e c t req_body)))
     = fold_left (doc_step w k) (sync_writes (userId t) req_body) (doc_table k (db e)))
  /\ user_settings (db (fst (post_sync w e c t req_body)))
     = fold_left (settings_step w) (sync_writes (userId t) req_body)
         (user_settings (db e))
  /\ txn (fst (post_sync w e c t req_body)) = None.
Proof.
  intros _ _ Hc.
  destruct (post_sync_keeps_accepted_writes w e c t req_body Hc) as (Hd & Hs).
  split; [exact Hd|]. split; [exact Hs|].
  destruct (post_sync_engine w e c t req_body) as (more & Hl & E). rewrite E.
  apply (run_late_closed w more Hl). apply exec_commit_txn, Hc.
Qed.

Lemma bulk_write_keeps_accepted_upserts_witness :
  nutrition_data
    (db (fst (post_sync (failing_month "2025-07") fresh_engine a_client a_user
                two_months)))
  = fold_left (doc_step (failing_month "2025-07") Nutrition)
      (sync_writes 1 two_months) (nutrition_data (db fresh_engine))
  /\ txn (fst (post_sync (failing_month "2025-07") fresh_engine a_client a_user
                 two_months))
     = None.
Proof.
  destruct (bulk_write_keeps_accepted_upserts (failing_month "2025-07")
              fresh_engine a_client a_user two_months eq_refl eq_refl eq_refl)
    as (Hd & _ & Ht).
  split; [exact (Hd Nutrition) | exact Ht].
Defined.

(** No read shows a document under the key [__proto__], whatever is
    stored. *)
Theorem proto_key_is_never_shown (rs : list doc_row) :
  get_prop "__proto__" (build_docs rs) = None.
Proof. exact (build_docs_no_proto rs). Qed.

(** When the engine fails an upsert of a bulk POST, the call answers 500
    with the message of the first upsert that failed. *)
Theorem bulk_write_reports_first_failure (w : runtime) (e : engine) (c : client)
    (t : token) (req_body : jsobj) (m : string) :
  first_rejection w (sync_writes (userId t) req_body) = Some m ->
  snd (post_sync w e c t req_body)
  = Some (handleError w m "Errore nel salvataggio bulk").
Proof. exact (post_sync_reports_failure w e c t req_body m). Qed.

Lemma bulk_write_reports_first_failure_witness :
  first_rejection (failing_month "2025-07") (sync_writes (userId a_user) two_months)
  = Some "SQLITE_BUSY: database is locked"
  /\ snd (post_sync (failing_month "2025-07") fresh_engine a_client a_user two_months)
     = Some (handleError (failing_month "2025-07")
               "SQLITE_BUSY: database is locked" "Errore nel salvataggio bulk").
Proof.
  split; [reflexivity|].
  apply (bulk_write_reports_first_failure (failing_month "2025-07") fresh_engine
           a_client a_user two_months). reflexivity.
Defined.

Lemma posted_data_is_read_back_witness :
  exists o,
    snd (get_docs Workout quiet_runtime
           (fst (post_doc Workout quiet_runtime fresh_engine a_client a_user "2025-07"
                   [("data", deficit_plan)]))
           a_user)
    = json 200 [(kind_name Workout, JObj o)]
    /\ get_prop "2025-07" o = Some deficit_plan.
Proof.
  apply (posted_data_is_read_back Workout quiet_runtime quiet_runtime fresh_engine
           a_client a_user "2025-07"
           (JSON_stringify (JObj [("data", deficit_plan)]))
           [("data", deficit_plan)] deficit_plan);
    try reflexivity; try (intros q; reflexivity). discriminate.
Defined.

Lemma lenient_read_witness :
  exists nutrition workouts others,
    snd (get_sync quiet_runtime (with_nutrition three_rows) a_client a_user)
    = json 200 (("nutrition", JObj nutrition) :: ("workouts", JObj workouts) :: others)
    /\ get_prop "2025-07" nutrition = Some deficit_plan
    /\ get_prop "2025-08" nutrition = None.
Proof.
  destruct (lenient_read quiet_runtime (with_nutrition three_rows) a_client a_user
              (fun q => eq_refl)) as (n & wo & others & E & H).
  exists n, wo, others. split; [exact E|]. split.
  - destruct (H Nutrition "2025-07") as (Hrow & _); [discriminate|].
    exact (Hrow (doc 1 1 "2025-07" (JSON_stringify deficit_plan)) eq_refl).
  - destruct (H Nutrition "2025-08") as (Hrow & _); [discriminate|].
    exact (Hrow (doc 3 1 "2025-08" "{ phase: ") eq_refl).
Defined.

Lemma negative_limit_returns_every_row_witness :
  exists returned,
    logs_returned
      (snd (get_logs quiet_runtime (with_logs [login_log 1; login_log 2]) a_user
              (Some "-1")))
    = Some returned
    /\ length returned = 2.
Proof.
  apply (negative_limit_returns_every_row quiet_runtime
           (with_logs [login_log 1; login_log 2]) a_user (Some "-1") (-1)%Z);
    [intros q; reflexivity | reflexivity | lia].
Defined.

(** * The token check *)

Lemma split_no_space (s : string) : has_space s = false -> split " " s = [s].
Proof.
  induction s as [|ch s IH]; intros Hs; [reflexivity|].
  cbn [has_space] in Hs. apply orb_false_iff in Hs. destruct Hs as [Hc Hs].
  cbn [split]. rewrite Hc, (IH Hs). reflexivity.
Qed.

Lemma split_field (a r : string) :
  has_space a = false ->
  split " " (String.append a (String " " r)) = a :: split " " r.
Proof.
  induction a as [|ch a IH]; intros Ha; [reflexivity|].
  cbn [has_space] in Ha. apply orb_false_iff in Ha. destruct Ha as [Hc Ha].
  cbn [String.append split]. rewrite Hc, (IH Ha). reflexivity.
Qed.

Lemma append_space_nonempty (a r : string) :
  String.eqb (String.append a (String " " r)) "" = false.
Proof. destruct a; reflexivity. Qed.

Lemma header_token_field (scheme tk rest : string) :
  has_space scheme = false -> has_space tk = false ->
  rest = "" \/ (exists r, rest = String " " r) ->
  header_token (Some (String.append scheme (String " " (String.append tk rest))))
  = Some tk.
Proof.
  intros Hs Ht Hrest. unfold header_token.
  rewrite append_space_nonempty, (split_field _ _ Hs).
  destruct Hrest as [->|(r & ->)].
  - replace (String.append tk "") with tk
      by (clear; induction tk as [|ch tk IH]; cbn; congruence).
    rewrite (split_no_space _ Ht). reflexivity.
  - rewrite (split_field _ _ Ht). reflexivity.
Qed.

(** The token the middleware verifies is the second of the fields of
    the Authorization header that single spaces separate, whatever the first
    field is (the scheme is not looked at) and whatever follows a second
    space: the request goes on as the user [jwt.verify] returns for that
    field, and is answered 403 INVALID_TOKEN when [jwt.verify] fails. *)
Theorem token_is_second_field (h : host) (scheme tk rest : string) :
  has_space scheme = false -> has_space tk = false -> tk <> "" ->
  rest = "" \/ (exists r, rest = String " " r) ->
  authenticateToken h
    (Some (String.append scheme (String " " (String.append tk rest))))
  = match jwt_verify h tk with
    | Ok user => inr user
    | Err _ =>
        inl (json 403 [("error", JStr "Token non valido o scaduto");
                       ("code", JStr "INVALID_TOKEN")])
    end.
Proof.
  intros Hs Ht Hne Hrest. unfold authenticateToken.
  rewrite (header_token_field scheme tk rest Hs Ht Hrest).
  destruct (String.eqb_spec tk "") as [Heq|_]; [contradiction|].
  destruct (jwt_verify h tk); reflexivity.
Qed.

Lemma token_is_second_field_witness :
  authenticateToken quiet_host (Some "Bearer token.anna@example.org") = inr a_user
  /\ authenticateToken quiet_host (Some "Basic token.anna@example.org and more")
     = inr a_user.
Proof.
  split.
  - exact (token_is_second_field quiet_host "Bearer" "token.anna@example.org" ""
             eq_refl eq_refl ltac:(discriminate) (or_introl eq_refl)).
  - exact (token_is_second_field quiet_host "Basic" "token.anna@example.org"
             " and more" eq_refl eq_refl ltac:(discriminate)
             (or_intror (ex_intro _ "and more" eq_refl))).
Defined.

(** A header with no second field carries no token: with no
    Authorization header, with a header that has no space in it (the empty
    one, or a scheme alone), and with two spaces after the first field, the
    middleware answers 401 NO_TOKEN and [jwt.verify] is not asked. *)
Theorem header_without_token_is_refused (h : host) (scheme rest : string) :
  has_space scheme = false ->
  authenticateToken h None = inl no_token
  /\ authenticateToken h (Some scheme) = inl no_token
  /\ authenticateToken h
       (Some (String.append scheme (String " " (String " " rest))))
     = inl no_token.
Proof.
  intros Hs. split; [reflexivity|]. split.
  - unfold authenticateToken, header_token.
    destruct (String.eqb_spec scheme "") as [->|_]; [reflexivity|].
    rewrite (split_no_space _ Hs). reflexivity.
  - unfold authenticateToken, header_token.
    rewrite append_space_nonempty, (split_field _ _ Hs). reflexivity.
Qed.

Lemma header_without_token_is_refused_witness :
  authenticateToken quiet_host (Some "Bearer") = inl no_token
  /\ authenticateToken quiet_host (Some "Bearer  token.anna@example.org")
     = inl no_token.
Proof.
  destruct (header_without_token_is_refused quiet_host "Bearer"
              "token.anna@example.org" eq_refl) as (_ & H1 & H2).
  split; [exact H1 | exact H2].
Defined.

(** A protected route does nothing without a token that verifies:
    unless [jwt.verify] accepts the second field of the Authorization
    header, the request is answered 401 NO_TOKEN or 403 INVALID_TOKEN and
    the store is left exactly as it was. *)
Theorem protected_routes_need_a_token (h : host) (e : engine) (r : http_request) :
  protected (target r) = true ->
  (exists tk user,
     header_token (authorization r) = Some tk /\ tk <> ""
     /\ jwt_verify h tk = Ok user)
  \/ application h e r = (e, Some no_token)
  \/ application h e r = (e, Some invalid_token).
Proof.
  intros Hp.
  assert (Hauth :
    (exists tk user,
       header_token (authorization r) = Some tk /\ tk <> ""
       /\ jwt_verify h tk = Ok user)
    \/ authenticateToken h (authorization r) = inl no_token
    \/ authenticateToken h (authorization r) = inl invalid_token).
  { unfold authenticateToken.
    destruct (header_token (authorization r)) as [tk|]; [|right; left; reflexivity].
    destruct (String.eqb_spec tk "") as [->|Hne]; [right; left; reflexivity|].
    destruct (jwt_verify h tk) as [user|m] eqn:Hv.
    - left. exists tk, user. repeat split; assumption.
    - right; right; reflexivity. }
  destruct Hauth as [Hok|[Hno|Hinv]]; [left; exact Hok | right; left | right; right].
  - unfold application. destruct (target r) as [ | b | | a ]; try discriminate Hp.
    + rewrite Hno. reflexivity.
    + destruct a; try discriminate Hp; rewrite Hno; reflexivity.
  - unfold application. destruct (target r) as [ | b | | a ]; try discriminate Hp.
    + rewrite Hinv. reflexivity.
    + destruct a; try discriminate Hp; rewrite Hinv; reflexivity.
Qed.

Lemma protected_routes_need_a_token_witness :
  application quiet_host fresh_engine
    {| peer := a_client; authorization := Some "Bearer forged";
       target := Api (PostDoc Nutrition "2025-07" [("data", deficit_plan)]) |}
  = (fresh_engine, Some invalid_token).
Proof.
  destruct (protected_routes_need_a_token quiet_host fresh_engine
              {| peer := a_client; authorization := Some "Bearer forged";
                 target := Api (PostDoc Nutrition "2025-07" [("data", deficit_plan)]) |}
              eq_refl) as [(tk & user & Htk & _ & Hv)|[H|H]].
  - cbv in Htk. injection Htk as <-. cbv in Hv. discriminate Hv.
  - cbv in H. discriminate H.
  - exact H.
Defined.

(** * Accounts: registration and login *)

(** The row an accepted [logActivity] appends. *)
Lemma logActivity_accepted w e u action details c :
  rejects w (InsertLog u action details (ip c) (user_agent c)) = None ->
  logActivity w e u action details c
  = with_db e
      {| users := users (db e); nutrition_data := nutrition_data (db e);
         workout_data := workout_data (db e); user_settings := user_settings (db e);
         activity_logs :=
           fst (insert_log (current_timestamp w) u action details (ip c)
                  (user_agent c) (activity_logs (db e))) |}.
Proof. intros H. unfold logActivity, exec. rewrite H. reflexivity. Qed.

Lemma logActivity_rejected w e u action details c m :
  rejects w (InsertLog u action details (ip c) (user_agent c)) = Some m ->
  logActivity w e u action details c = e.
Proof. intros H. unfold logActivity, exec. rewrite H. reflexivity. Qed.

Lemma logActivity_users w e u action details c :
  users (db (logActivity w e u action details c)) = users (db e).
Proof.
  destruct (rejects w (InsertLog u action details (ip c) (user_agent c))) as [m|] eqn:H.
  - rewrite (logActivity_rejected _ _ _ _ _ _ m H). reflexivity.
  - rewrite (logActivity_accepted _ _ _ _ _ _ H). reflexivity.
Qed.

Lemma find_none {A : Type} (f : A -> bool) (l : list A) :
  (forall x, In x l -> f x = false) -> find f l = None.
Proof.
  induction l as [|a l IH]; intros H; [reflexivity|].
  cbn [find]. rewrite (H a (or_introl eq_refl)). apply IH.
  intros x Hx. apply H. right. exact Hx.
Qed.

Lemma find_app_none {A : Type} (f : A -> bool) (l l' : list A) :
  find f l = None -> find f (l ++ l') = find f l'.
Proof.
  induction l as [|a l IH]; intros H; [reflexivity|].
  cbn [find app] in *. destruct (f a); [discriminate H | exact (IH H)].
Qed.

Lemma email_free em (t : table user_row) :
  email_taken em t = false ->
  forall r, In r (rows t) -> String.eqb (usr_email r) em = false.
Proof.
  unfold email_taken. intros H r Hr.
  destruct (String.eqb (usr_email r) em) eqn:E; [|reflexivity].
  assert (existsb (fun r => String.eqb (usr_email r) em) (rows t) = true) as Hex
    by (apply existsb_exists; exists r; split; assumption).
  congruence.
Qed.

(** The engine after a registration that goes through. *)
Lemma post_register_accepted w e c b em pw hash :
  healthy w ->
  reg_email b = Some em -> reg_password b = Some pw ->
  em <> "" -> 6 <= utf16_length pw ->
  email_taken em (users (db e)) = false ->
  bcrypt_hash w pw = Ok hash ->
  let id := next_rowid usr_id (users (db e)) in
  let name := match reg_name b with Some n => n | None => "" end in
  rows (users (db (fst (post_register w e c b))))
  = rows (users (db e))
    ++ [{| usr_id := id; usr_email := em; usr_password_hash := hash;
           usr_name := name; usr_is_active := 1 |}]
  /\ snd (post_register w e c b)
     = json 201
         [("message", JStr "Registrazione completata con successo");
          ("token", JStr (jwt_sign w id em));
          ("user",
           JObj ([("id", JInt (Z.of_nat id)); ("email", JStr em)]
                 ++ match reg_name b with
                    | Some n => [("name", JStr n)]
                    | None => []
                    end))].
Proof.
  intros Hw Hem Hpw Hne Hlen Hfree Hhash id name.
  unfold post_register. rewrite Hem, Hpw.
  destruct (String.eqb_spec em "") as [->|_]; [contradiction|].
  rewrite (utf16_length_nonempty pw Hlen). cbn [orb].
  destruct (Nat.ltb_spec (utf16_length pw) 6) as [Hlt|_]; [lia|].
  unfold db_get_user_by_email. rewrite Hw.
  rewrite (find_none _ _ (email_free em _ Hfree)), Hhash.
  unfold exec. rewrite Hw, Hfree. cbn [insert_user fst snd].
  split; [|reflexivity].
  rewrite logActivity_users. reflexivity.
Qed.

(** After a registration that goes through, a login with the same email and
    password is answered 200 with a token for the id the registration
    returned, and with the name stored ([''] for a registration with no
    name); a password that [bcrypt.compare] does not match with the stored
    hash is answered 400 INVALID_CREDENTIALS. *)
Theorem register_then_login (h : host) (e : engine) (c c' : client)
    (b : register_body) (em pw hash : string) :
  healthy (rt h) -> fails h (SelectActiveUser em) = None ->
  reg_email b = Some em -> reg_password b = Some pw ->
  em <> "" -> 6 <= utf16_length pw ->
  email_taken em (users (db e)) = false ->
  bcrypt_hash (rt h) pw = Ok hash -> bcrypt_compare h pw hash = Ok true ->
  let id := next_rowid usr_id (users (db e)) in
  let registered := post_register (rt h) e c b in
  snd registered
  = json 201
      [("message", JStr "Registrazione completata con successo");
       ("token", JStr (jwt_sign (rt h) id em));
       ("user",
        JObj ([("id", JInt (Z.of_nat id)); ("email", JStr em)]
              ++ match reg_name b with
                 | Some n => [("name", JStr n)]
                 | None => []
                 end))]
  /\ snd (post_login h (fst registered) c'
            {| login_email := Some em; login_password := Some pw |})
     = json 200
         [("message", JStr "Login completato");
          ("token", JStr (jwt_sign (rt h) id em));
          ("user",
           JObj [("id", JInt (Z.of_nat id)); ("email", JStr em);
                 ("name", JStr match reg_name b with Some n => n | None => "" end)])]
  /\ forall pw',
       pw' <> "" -> bcrypt_compare h pw' hash = Ok false ->
       snd (post_login h (fst registered) c'
              {| login_email := Some em; login_password := Some pw' |})
       = json 400 [("error", JStr "Credenziali non valide");
                   ("code", JStr "INVALID_CREDENTIALS")].
Proof.
  intros Hw Hq Hem Hpw Hne Hlen Hfree Hhash Hcmp id registered.
  destruct (post_register_accepted (rt h) e c b em pw hash Hw Hem Hpw Hne Hlen
              Hfree Hhash) as (Hrows & Hresp).
  fold id in Hrows, Hresp. fold registered in Hrows, Hresp.
  split; [exact Hresp|].
  assert (Hfind :
    find (fun r => String.eqb (usr_email r) em && Nat.eqb (usr_is_active r) 1)
      (rows (users (db (fst registered))))
    = Some {| usr_id := id; usr_email := em; usr_password_hash := hash;
              usr_name := match reg_name b with Some n => n | None => "" end;
              usr_is_active := 1 |}).
  { rewrite Hrows, find_app_none.
    - cbn [find usr_email usr_is_active]. rewrite String.eqb_refl. reflexivity.
    - apply find_none. intros r Hr. rewrite (email_free em _ Hfree r Hr). reflexivity. }
  assert (Hpw_ne : String.eqb pw "" = false) by exact (utf16_length_nonempty pw Hlen).
  destruct (String.eqb_spec em "") as [Heq|_]; [contradiction|].
  split.
  - unfold post_login. cbn [login_email login_password].
    destruct (String.eqb_spec em "") as [Heq|_]; [contradiction|].
    rewrite Hpw_ne. cbn [orb].
    unfold db_get_active_user. rewrite Hq, Hfind.
    cbn [usr_password_hash usr_id usr_email usr_name]. rewrite Hcmp. reflexivity.
  - intros pw' Hne' Hcmp'. unfold post_login. cbn [login_email login_password].
    destruct (String.eqb_spec em "") as [Heq|_]; [contradiction|].
    destruct (String.eqb_spec pw' "") as [Heq|_]; [contradiction|]. cbn [orb].
    unfold db_get_active_user. rewrite Hq, Hfind.
    cbn [usr_password_hash usr_id usr_email usr_name]. rewrite Hcmp'. reflexivity.
Qed.

Lemma register_then_login_witness :
  snd (post_login quiet_host
         (fst (post_register quiet_runtime (with_users [anna]) a_client
                 {| reg_email := Some "bruno@example.org";
                    reg_password := Some "s3cret!"; reg_name := None |}))
         a_client
         {| login_email := Some "bruno@example.org";
            login_password := Some "s3cret!" |})
  = json 200
      [("message", JStr "Login completato");
       ("token", JStr "token.bruno@example.org");
       ("user",
        JObj [("id", JInt 2); ("email", JStr "bruno@example.org");
              ("name", JStr "")])].
Proof.
  exact (proj1 (proj2
    (register_then_login quiet_host (with_users [anna]) a_client a_client
       {| reg_email := Some "bruno@example.org"; reg_password := Some "s3cret!";
          reg_name := None |}
       "bruno@example.org" "s3cret!" "$2b$12$s3cret!"
       (fun q => eq_refl) eq_refl eq_refl eq_refl ltac:(discriminate)
       ltac:(cbv; lia) eq_refl eq_refl eq_refl))).
Defined.

(** A login that fails says the same whether the account exists or not:
    when the password matches the hash of no stored account, the answer is
    400 INVALID_CREDENTIALS for a known and for an unknown email alike; the
    accounts stay as they were and one LOGIN_FAILED row goes to the
    activity log, under the id of the account when there is one and under
    no user otherwise. *)
Theorem login_failures_look_alike (h : host) (e : engine) (c : client)
    (b : login_body) (em pw : string) :
  healthy (rt h) -> fails h (SelectActiveUser em) = None ->
  login_email b = Some em -> login_password b = Some pw ->
  em <> "" -> pw <> "" ->
  (forall user, In user (rows (users (db e))) ->
                bcrypt_compare h pw (usr_password_hash user) = Ok false) ->
  snd (post_login h e c b)
  = json 400 [("error", JStr "Credenziali non valide");
              ("code", JStr "INVALID_CREDENTIALS")]
  /\ users (db (fst (post_login h e c b))) = users (db e)
  /\ exists row,
       rows (activity_logs (db (fst (post_login h e c b))))
       = rows (activity_logs (db e)) ++ [row]
       /\ log_action row = "LOGIN_FAILED"
       /\ log_user_id row
          = option_map usr_id
              (find (fun r => String.eqb (usr_email r) em && Nat.eqb (usr_is_active r) 1)
                 (rows (users (db e)))).
Proof.
  intros Hw Hq Hem Hpw Hne Hne' Hcmp.
  unfold post_login. rewrite Hem, Hpw.
  destruct (String.eqb_spec em "") as [Heq|_]; [contradiction|].
  destruct (String.eqb_spec pw "") as [Heq|_]; [contradiction|]. cbn [orb].
  unfold db_get_active_user. rewrite Hq.
  destruct (find _ (rows (users (db e)))) as [user|] eqn:Hfind.
  - rewrite (Hcmp user (proj1 (find_some _ _ Hfind))). cbn [fst snd].
    rewrite logActivity_users, logActivity_accepted by apply Hw.
    split; [reflexivity|]. split; [reflexivity|].
    eexists. split; [reflexivity|]. split; reflexivity.
  - cbn [fst snd].
    rewrite logActivity_users, logActivity_accepted by apply Hw.
    split; [reflexivity|]. split; [reflexivity|].
    eexists. split; [reflexivity|]. split; reflexivity.
Qed.

Lemma login_failures_look_alike_witness :
  snd (post_login quiet_host (with_users [anna]) a_client
         {| login_email := Some "anna@example.org"; login_password := Some "guess" |})
  = snd (post_login quiet_host (with_users [anna]) a_client
           {| login_email := Some "nobody@example.org";
              login_password := Some "guess" |}).
Proof.
  assert (Hcmp : forall user, In user (rows (users (db (with_users [anna])))) ->
            bcrypt_compare quiet_host "guess" (usr_password_hash user) = Ok false).
  { intros user [<-|[]]. reflexivity. }
  rewrite (proj1 (login_failures_look_alike quiet_host (with_users [anna]) a_client
             {| login_email := Some "anna@example.org"; login_password := Some "guess" |}
             "anna@example.org" "guess" (fun q => eq_refl) eq_refl eq_refl eq_refl
             ltac:(discriminate) ltac:(discriminate) Hcmp)).
  rewrite (proj1 (login_failures_look_alike quiet_host (with_users [anna]) a_client
             {| login_email := Some "nobody@example.org";
                login_password := Some "guess" |}
             "nobody@example.org" "guess" (fun q => eq_refl) eq_refl eq_refl eq_refl
             ltac:(discriminate) ltac:(discriminate) Hcmp)).
  reflexivity.
Defined.

(** * What a request leaves alone *)

Lemma exec_upsert_frame w e q :
  is_upsert q = true ->
  users (db (fst (exec w e q))) = users (db e)
  /\ activity_logs (db (fst (exec w e q))) = activity_logs (db e).
Proof.
  intros Hq. unfold exec. destruct (rejects w q); [split; reflexivity|].
  destruct q as [ | | | em ph nm | k u mk data | u s | u act det ipa ag | em | k u
                | u | u lim ]; try discriminate Hq.
  - destruct k; split; reflexivity.
  - split; reflexivity.
Qed.

Lemma run_late_upserts_frame w qs :
  forallb is_upsert qs = true ->
  forall e,
    users (db (run_late w e qs)) = users (db e)
    /\ activity_logs (db (run_late w e qs)) = activity_logs (db e).
Proof.
  induction qs as [|q qs IH]; intros Hqs e; [split; reflexivity|].
  cbn [forallb] in Hqs. apply andb_true_iff in Hqs. destruct Hqs as [Hq Hqs].
  rewrite run_late_cons. destruct (IH Hqs (fst (exec w e q))) as [-> ->].
  apply exec_upsert_frame, Hq.
Qed.

Lemma logActivity_logs w e u action details c :
  healthy w ->
  exists row,
    rows (activity_logs (db (logActivity w e u action details c)))
    = rows (activity_logs (db e)) ++ [row]
    /\ log_user_id row = u /\ log_action row = action.
Proof.
  intros Hw. rewrite logActivity_accepted by apply Hw.
  eexists. split; [reflexivity|]. split; reflexivity.
Qed.

(** The engine after a bulk POST on an engine with no fault. *)
Lemma post_sync_healthy_engine w e c t req_body :
  healthy w ->
  fst (post_sync w e c t req_body)
  = logActivity w
      (fst (exec w
              (run_late w (fst (exec w e BEGIN_TRANSACTION))
                 (sync_writes (userId t) req_body))
              COMMIT))
      (Some (userId t)) "SYNC_SAVE"
      (String.append "Saved "
         (String.append
            (nat_to_string (length (sync_writes (userId t) req_body))) " items"))
      c.
Proof.
  intros Hw. unfold post_sync. rewrite sync_statements_queue.
  cbn [drain]. destruct (exec_begin_healthy w e Hw) as (saved & Hb).
  destruct (exec w e BEGIN_TRANSACTION) as [eb rb]. cbn [fst] in Hb.
  cbn [run_callback app]. rewrite drain_app.
  rewrite drain_upserts_healthy by (assumption || apply sync_writes_upserts).
  cbn [drain hasError operationsCount sent Nat.add].
  destruct (run_late_plain w (sync_writes (userId t) req_body)
              (is_upsert_plain _ (sync_writes_upserts _ _)) eb) as (Ht & _).
  unfold exec at 1. rewrite Hw, Ht, Hb. cbn [fst snd].
  unfold exec at 1. rewrite Hw, Ht, Hb. reflexivity.
Qed.

Lemma grows_same e r : status r <> 201 -> grows e e r.
Proof.
  intros H. exists [], []. rewrite !app_nil_r.
  destruct (Nat.eqb_spec (status r) 201) as [Heq|_]; [contradiction|].
  repeat split; cbn; lia.
Qed.

Lemma grows_logged w e u action details c r :
  healthy w -> status r <> 201 ->
  grows e (logActivity w e u action details c) r.
Proof.
  intros Hw H. destruct (logActivity_logs w e u action details c Hw) as (row & Hl & _).
  exists [row], []. rewrite logActivity_users, app_nil_r.
  destruct (Nat.eqb_spec (status r) 201) as [Heq|_]; [contradiction|].
  repeat split; cbn; try lia. exact Hl.
Qed.

Lemma grows_frame e e1 e2 r :
  users (db e1) = users (db e) -> activity_logs (db e1) = activity_logs (db e) ->
  grows e1 e2 r -> grows e e2 r.
Proof.
  intros Hu Hl (new & added & H1 & H2 & H3 & H4). exists new, added.
  rewrite <- Hu, <- Hl. repeat split; assumption.
Qed.

Ltac not_201 := cbn; discriminate.

Lemma post_register_grows w e c b :
  healthy w ->
  grows e (fst (post_register w e c b)) (snd (post_register w e c b)).
Proof.
  intros Hw. unfold post_register.
  destruct (reg_email b) as [em|]; [|apply grows_same; not_201].
  destruct (reg_password b) as [pw|]; [|apply grows_same; not_201].
  destruct (String.eqb em "" || String.eqb pw ""); [apply grows_same; not_201|].
  destruct (Nat.ltb (utf16_length pw) 6); [apply grows_same; not_201|].
  unfold db_get_user_by_email. rewrite Hw.
  destruct (find _ _); [apply grows_same; not_201|].
  destruct (bcrypt_hash w pw) as [hash|m]; [|apply grows_same; unfold handleError; not_201].
  unfold exec. rewrite Hw.
  destruct (email_taken em (users (db e)));
    [apply grows_same; unfold handleError; not_201|].
  cbn [insert_user fst snd].
  match goal with
  | |- grows _ (logActivity w ?e1 ?u ?a ?d c) _ =>
      destruct (logActivity_logs w e1 u a d c Hw) as (row & Hl & _);
      exists [row]; eexists; rewrite logActivity_users; rewrite Hl
  end.
  split; [reflexivity|]. split; [cbn; lia|]. split; reflexivity.
Qed.

Lemma post_doc_grows k w e c t mk req_body :
  healthy w ->
  grows e (fst (post_doc k w e c t mk req_body)) (snd (post_doc k w e c t mk req_body)).
Proof.
  intros Hw. unfold post_doc.
  destruct (get_prop "data" req_body) as [d|]; [|apply grows_same; not_201].
  destruct (truthy d); [|apply grows_same; not_201].
  pose proof (exec_upsert_frame w e (UpsertDoc k (userId t) mk (JSON_stringify d))
                eq_refl) as (Hu & Hl).
  pose proof (exec_upsert_ok w e (UpsertDoc k (userId t) mk (JSON_stringify d))
                Hw eq_refl) as (id & Hid).
  destruct (exec w e _) as [e1 res]. cbn [fst snd] in *. subst res.
  cbn [fst snd]. eapply grows_frame; [exact Hu | exact Hl |].
  apply grows_logged; [exact Hw | not_201].
Qed.

Lemma post_settings_grows w e c t req_body :
  healthy w ->
  grows e (fst (post_settings w e c t req_body)) (snd (post_settings w e c t req_body)).
Proof.
  intros Hw. unfold post_settings.
  destruct (get_prop "settings" req_body) as [s|]; [|apply grows_same; not_201].
  destruct (truthy s); [|apply grows_same; not_201].
  pose proof (exec_upsert_frame w e (UpsertSettings (userId t) (JSON_stringify s))
                eq_refl) as (Hu & Hl).
  pose proof (exec_upsert_ok w e (UpsertSettings (userId t) (JSON_stringify s))
                Hw eq_refl) as (id & Hid).
  destruct (exec w e _) as [e1 res]. cbn [fst snd] in *. subst res.
  cbn [fst snd]. eapply grows_frame; [exact Hu | exact Hl |].
  apply grows_logged; [exact Hw | not_201].
Qed.

Lemma get_sync_grows w e c t :
  healthy w -> grows e (fst (get_sync w e c t)) (snd (get_sync w e c t)).
Proof.
  intros Hw. unfold get_sync, db_all_docs, db_get_settings. rewrite !Hw.
  cbn [fst snd]. apply grows_logged; [exact Hw | not_201].
Qed.

Lemma post_sync_grows w e c t req_body :
  healthy w ->
  exists r, snd (post_sync w e c t req_body) = Some r
            /\ grows e (fst (post_sync w e c t req_body)) r.
Proof.
  intros Hw. rewrite (post_sync_healthy_response w e c t req_body Hw).
  eexists. split; [reflexivity|].
  rewrite (post_sync_healthy_engine w e c t req_body Hw).
  destruct (run_late_upserts_frame w (sync_writes (userId t) req_body)
              (sync_writes_upserts _ _) (fst (exec w e BEGIN_TRANSACTION))) as (Hu & Hl).
  eapply grows_frame; [| |apply grows_logged; [exact Hw | not_201]].
  - rewrite exec_commit_db, Hu, exec_begin_db. reflexivity.
  - rewrite exec_commit_db, Hl, exec_begin_db. reflexivity.
Qed.

Lemma handle_grows w e r :
  healthy w ->
  exists resp, snd (handle w e r) = Some resp /\ grows e (fst (handle w e r)) resp.
Proof.
  intros Hw. unfold handle.
  destruct (call r) as [b| |req_body|k|k mk req_body| |req_body|limit];
    try (eexists; split; [reflexivity|]; cbn [some_response fst snd]).
  - apply post_register_grows, Hw.
  - apply get_sync_grows, Hw.
  - apply post_sync_grows, Hw.
  - rewrite get_docs_engine. apply grows_same.
    unfold get_docs, db_all_docs. rewrite Hw. not_201.
  - apply post_doc_grows, Hw.
  - rewrite get_settings_engine. apply grows_same.
    unfold get_settings, db_get_settings. rewrite Hw. not_201.
  - apply post_settings_grows, Hw.
  - rewrite get_logs_engine. apply grows_same.
    unfold get_logs, db_all_logs. rewrite Hw. not_201.
Qed.

Lemma post_login_grows h e c b :
  healthy (rt h) ->
  grows e (fst (post_login h e c b)) (snd (post_login h e c b)).
Proof.
  intros Hw. unfold post_login.
  destruct (login_email b) as [em|]; [|apply grows_same; not_201].
  destruct (login_password b) as [pw|]; [|apply grows_same; not_201].
  destruct (String.eqb em "" || String.eqb pw ""); [apply grows_same; not_201|].
  destruct (db_get_active_user h e em) as [[user|]|m]; cbn [fst snd].
  - destruct (bcrypt_compare h pw (usr_password_hash user)) as [[|]|m]; cbn [fst snd].
    + apply grows_logged; [exact Hw | not_201].
    + apply grows_logged; [exact Hw | not_201].
    + apply grows_same. unfold handleError. not_201.
  - apply grows_logged; [exact Hw | not_201].
  - apply grows_same. unfold handleError. not_201.
Qed.

Lemma application_grows h e r :
  healthy (rt h) ->
  exists resp,
    snd (application h e r) = Some resp /\ grows e (fst (application h e r)) resp.
Proof.
  intros Hw. unfold application.
  destruct (target r) as [ | b | | a ].
  - eexists. split; [reflexivity|]. apply grows_same.
    unfold get_health. destruct (fails h CountUsers); not_201.
  - eexists. split; [reflexivity|]. apply post_login_grows, Hw.
  - destruct (authenticateToken h (authorization r)) as [denied|t] eqn:Hauth.
    + eexists. split; [reflexivity|]. apply grows_same.
      unfold authenticateToken in Hauth.
      destruct (header_token (authorization r)) as [tk|];
        [destruct (String.eqb tk ""); [|destruct (jwt_verify h tk)]|];
        inversion Hauth; subst; not_201.
    + eexists. split; [reflexivity|]. apply grows_same.
      unfold get_stats. destruct (fails h SelectStats); unfold handleError; not_201.
  - assert (Hopen : forall b, a = Register b ->
              exists resp,
                snd (some_response (post_register (rt h) e (peer r) b)) = Some resp
                /\ grows e (fst (some_response (post_register (rt h) e (peer r) b))) resp).
    { intros b _. eexists. split; [reflexivity|]. apply post_register_grows, Hw. }
    destruct (authenticateToken h (authorization r)) as [denied|t] eqn:Hauth.
    + assert (Hden : status denied <> 201).
      { unfold authenticateToken in Hauth.
        destruct (header_token (authorization r)) as [tk|];
          [destruct (String.eqb tk ""); [|destruct (jwt_verify h tk)]|];
          inversion Hauth; subst; not_201. }
      destruct a; try (eexists; split; [reflexivity|]; apply grows_same, Hden).
      apply (Hopen b eq_refl).
    + destruct a; try apply handle_grows, Hw.
      apply (Hopen b eq_refl).
Qed.

(** On an engine with no fault the activity log only grows: no request of a
    run removes or changes a row of it, and each request adds one row at
    most. *)
Theorem activity_log_only_grows (e : engine) (trace : list (host * http_request)) :
  (forall hr, In hr trace -> healthy (rt (fst hr))) ->
  exists new,
    rows (activity_logs (db (run e trace))) = rows (activity_logs (db e)) ++ new
    /\ length new <= length trace.
Proof.
  revert e. induction trace as [|[h r] trace IH]; intros e Hw.
  - exists []. rewrite app_nil_r. split; [reflexivity | cbn; lia].
  - unfold run. cbn [fold_left fst snd]. fold (run (fst (application h e r)) trace).
    destruct (application_grows h e r (Hw (h, r) (or_introl eq_refl)))
      as (resp & _ & new & added & Hl & Hn & _).
    destruct (IH (fst (application h e r))
                (fun hr Hin => Hw hr (or_intror Hin))) as (more & Hm & Hlen).
    exists (new ++ more). rewrite Hm, Hl, <- app_assoc. split; [reflexivity|].
    rewrite length_app. cbn [length]. lia.
Qed.

Lemma activity_log_only_grows_witness :
  exists new,
    rows (activity_logs
            (db (run (with_logs [login_log 1])
                   [(quiet_host,
                     {| peer := a_client; authorization := None;
                        target := Login {| login_email := Some "nobody@example.org";
                                           login_password := Some "guess" |} |});
                    (quiet_host,
                     {| peer := a_client;
                        authorization := Some "Bearer token.anna@example.org";
                        target := Api (GetDocs Nutrition) |})])))
    = [login_log 1] ++ new
    /\ length new <= 2.
Proof.
  apply (activity_log_only_grows (with_logs [login_log 1])).
  intros hr [<-|[<-|[]]] q; reflexivity.
Defined.

(** GET /api/health always answers 200.  When its count of the users fails
    it reports the status WARNING and the database in error, with no
    [users_count]; when the count works, [users_count] is the number of
    accounts, and a request to any route, on an engine with no fault, raises
    it by one exactly when the request is answered 201: a registration that
    went through. *)
Theorem health_counts_registrations (h hh : host) (e : engine) (r : http_request) :
  healthy (rt h) ->
  let health (users_count : list (string * jsval)) (status database : string) :=
    json 200
      ([("status", JStr status);
        ("timestamp", JStr (now_iso (rt hh)));
        ("uptime", JNum (fst (process_uptime hh)) (snd (process_uptime hh)));
        ("environment", JStr (NODE_ENV (rt hh)));
        ("database", JStr database);
        ("version", JStr "1.0.0")] ++ users_count) in
  (fails hh CountUsers <> None -> get_health hh e = health [] "WARNING" "error")
  /\ (fails hh CountUsers = None ->
      exists n resp,
        get_health hh e = health [("users_count", JInt n)] "OK" "connected"
        /\ snd (application h e r) = Some resp
        /\ get_health hh (fst (application h e r))
           = health
               [("users_count", JInt (if Nat.eqb (status resp) 201 then n + 1 else n))]
               "OK" "connected").
Proof.
  intros Hw health. split.
  - intros Hf. unfold get_health. destruct (fails hh CountUsers); [reflexivity|].
    contradiction.
  - intros Hf. unfold get_health. rewrite Hf.
    destruct (application_grows h e r Hw) as (resp & Hresp & new & added & _ & _ & Hu & Ha).
    exists (Z.of_nat (length (rows (users (db e))))), resp.
    split; [reflexivity|]. split; [exact Hresp|].
    rewrite Hu, length_app, Ha.
    destruct (Nat.eqb (status resp) 201).
    + replace (Z.of_nat (length (rows (users (db e))) + 1))
        with (Z.of_nat (length (rows (users (db e)))) + 1)%Z by lia.
      reflexivity.
    + rewrite Nat.add_0_r. reflexivity.
Qed.

Lemma health_counts_registrations_witness :
  get_health quiet_host
    (fst (application quiet_host (with_users [anna])
            {| peer := a_client; authorization := None;
               target := Api (Register {| reg_email := Some "bruno@example.org";
                                          reg_password := Some "s3cret!";
                                          reg_name := Some "Bruno" |}) |}))
  = json 200
      [("status", JStr "OK");
       ("timestamp", JStr "2025-07-23T07:00:00.000Z");
       ("uptime", JNum 36005 1);
       ("environment", JStr "production");
       ("database", JStr "connected");
       ("version", JStr "1.0.0");
       ("users_count", JInt 2)].
Proof.
  destruct (proj2 (health_counts_registrations quiet_host quiet_host (with_users [anna])
                     {| peer := a_client; authorization := None;
                        target := Api (Register {| reg_email := Some "bruno@example.org";
                                                   reg_password := Some "s3cret!";
                                                   reg_name := Some "Bruno" |}) |}
                     (fun q => eq_refl)) eq_refl)
    as (n & resp & Hbefore & Hresp & Hafter).
  injection Hbefore as <-. injection Hresp as <-. exact Hafter.
Defined.

(** * Error responses *)









(** * Statistics *)

Lemma length_filter_split {A : Type} (f : A -> bool) (l : list A) :
  length (filter f l) + length (filter (fun x => negb (f x)) l) = length l.
Proof.
  induction l as [|a l IH]; [reflexivity|].
  cbn [filter]. destruct (f a); cbn [negb length]; lia.
Qed.

(** The statistics count a document once: after a per-resource POST that
    the engine accepts, the count of the documents of its kind is the count
    before, less the rows the write replaced under its user and month-key,
    plus one; the count of the other kind is as before. *)
Theorem stats_count_a_document_once (h : host) (w : runtime) (e : engine)
    (c : client) (t : token) (k : kind) (mk : string) (req_body : jsobj) (d : jsval) :
  healthy w -> fails h SelectStats = None ->
  get_prop "data" req_body = Some d -> truthy d = true ->
  let e' := fst (post_doc k w e c t mk req_body) in
  exists before after,
    stat (months k) (get_stats h e) = Some (JInt before)
    /\ stat (months k) (get_stats h e') = Some (JInt after)
    /\ (after + Z.of_nat (length (doc_rows_at (userId t) k mk e)) = before + 1)%Z
    /\ forall k', k' <> k ->
         stat (months k') (get_stats h e') = stat (months k') (get_stats h e).
Proof.
  intros Hw Hf Hd Ht e'.
  destruct (post_doc_tables k w e c t mk req_body) as (Hdocs & _).
  rewrite Hd, Ht in Hdocs. cbn [fold_left doc_step] in Hdocs. fold e' in Hdocs.
  assert (Hstat : forall k' e0,
            stat (months k') (get_stats h e0)
            = Some (JInt (Z.of_nat (length (rows (doc_table k' (db e0))))))).
  { intros k' e0. unfold get_stats. rewrite Hf. destruct k'; reflexivity. }
  exists (Z.of_nat (length (rows (doc_table k (db e))))),
         (Z.of_nat (length (rows (doc_table k (db e'))))).
  split; [apply Hstat|]. split; [apply Hstat|]. split.
  - rewrite (Hdocs k), kind_eqb_refl, Hw. cbn [upsert_doc fst rows].
    rewrite length_app. cbn [length]. unfold doc_rows_at.
    pose proof (length_filter_split (same_doc_key (userId t) mk)
                  (rows (doc_table k (db e)))) as Hsplit.
    lia.
  - intros k' Hk. rewrite !Hstat, (Hdocs k').
    destruct (kind_eqb k k') eqn:E; [|reflexivity].
    apply kind_eqb_eq in E. congruence.
Qed.

Lemma stats_count_a_document_once_witness :
  stat (months Nutrition)
    (get_stats quiet_host
       (fst (post_doc Nutrition quiet_runtime
               (with_nutrition [doc 1 1 "2025-07" (JSON_stringify deficit_plan)])
               a_client a_user "2025-07" [("data", surplus_plan)])))
  = Some (JInt 1).
Proof.
  destruct (stats_count_a_document_once quiet_host quiet_runtime
              (with_nutrition [doc 1 1 "2025-07" (JSON_stringify deficit_plan)])
              a_client a_user Nutrition "2025-07" [("data", surplus_plan)] surplus_plan
              (fun q => eq_refl) eq_refl eq_refl eq_refl)
    as (before & after & Hb & Ha & Hsum & _).
  rewrite Ha. injection Hb as <-. cbn in Hsum.
  replace after with 1%Z by lia. reflexivity.
Defined.

(** * Settings, bulk round trips and the separation of users *)

Lemma find_snoc_miss {A : Type} (f : A -> bool) (l : list A) (x : A) :
  f x = false -> find f (l ++ [x]) = find f l.
Proof.
  intros Hx. induction l as [|a l IH]; cbn [find app].
  - rewrite Hx. reflexivity.
  - destruct (f a); [reflexivity | exact IH].
Qed.

Lemma find_filter_keeps {A : Type} (f g : A -> bool) (l : list A) :
  (forall x, f x = true -> g x = true) -> find f (filter g l) = find f l.
Proof.
  intros H. induction l as [|a l IH]; [reflexivity|].
  cbn [filter find]. destruct (f a) eqn:Ef.
  - rewrite (H a Ef). cbn [find]. rewrite Ef. reflexivity.
  - destruct (g a); [cbn [find]; rewrite Ef|]; exact IH.
Qed.

(** The row of a user after an upsert of the settings of that user. *)
Lemma settings_upsert_same now u s t :
  find (fun r => Nat.eqb (set_user_id r) u) (rows (fst (upsert_settings now u s t)))
  = Some {| set_id := next_rowid set_id t; set_user_id := u; set_settings := s;
            set_updated_at := now |}.
Proof.
  cbn [upsert_settings fst rows]. rewrite find_app_none.
  - cbn [find set_user_id]. rewrite Nat.eqb_refl. reflexivity.
  - apply find_none. intros r Hr. apply filter_In in Hr. destruct Hr as [_ Hr].
    destruct (Nat.eqb (set_user_id r) u); [discriminate Hr | reflexivity].
Qed.

Lemma settings_upsert_other now u u' s t :
  u' <> u ->
  find (fun r => Nat.eqb (set_user_id r) u') (rows (fst (upsert_settings now u s t)))
  = find (fun r => Nat.eqb (set_user_id r) u') (rows t).
Proof.
  intros Hu. cbn [upsert_settings fst rows]. rewrite find_snoc_miss.
  - apply find_filter_keeps. intros r Hr. apply Nat.eqb_eq in Hr.
    destruct (Nat.eqb_spec (set_user_id r) u); [congruence | reflexivity].
  - cbn [set_user_id]. apply Nat.eqb_neq. congruence.
Qed.

Lemma get_sync_response w e c t :
  healthy w ->
  snd (get_sync w e c t)
  = json 200
      [("nutrition",
        JObj (build_docs
                (order_by_desc doc_month_key
                   (filter (fun r => Nat.eqb (doc_user_id r) (userId t))
                      (rows (doc_table Nutrition (db e)))))));
       ("workouts",
        JObj (build_docs
                (order_by_desc doc_month_key
                   (filter (fun r => Nat.eqb (doc_user_id r) (userId t))
                      (rows (doc_table Workout (db e)))))));
       ("settings", read_settings (settings_at (userId t) e));
       ("lastSync", JStr (now_iso w));
       ("user", JObj [("id", JInt (Z.of_nat (userId t))); ("email", JStr (email t))])].
Proof.
  intros Hw. unfold get_sync, db_all_docs, db_get_settings. rewrite !Hw. reflexivity.
Qed.

Lemma get_settings_response w e t :
  healthy w ->
  snd (get_settings w e t)
  = json 200 [("settings", read_settings (settings_at (userId t) e))].
Proof.
  intros Hw. unfold get_settings, db_get_settings. rewrite Hw. reflexivity.
Qed.

(** The settings of a body that [express.json] parsed, once posted, are
    what GET /api/settings and GET /api/sync show to the same user: any
    truthy value is taken, an object or not.  None of its numbers is to be
    beyond the doubles: such a number is stored as null. *)
Theorem posted_settings_are_read_back (w w' : runtime) (e : engine) (c : client)
    (t : token) (text : string) (req_body : jsobj) (s : jsval) :
  healthy w -> healthy w' ->
  JSON_parse text = Some (JObj req_body) ->
  get_prop "settings" req_body = Some s -> truthy s = true ->
  finite_json s = true ->
  let e' := fst (post_settings w e c t req_body) in
  snd (get_settings w' e' t) = json 200 [("settings", s)]
  /\ exists o,
       snd (get_sync w' e' c t) = json 200 o /\ get_prop "settings" o = Some s.
Proof.
  intros Hw Hw' Hbody Hs Ht Hfin e'.
  assert (Hwf : wf_json s = true)
    by (eapply wf_json_prop; [eapply JSON_parse_wf, Hbody | exact Hs]).
  destruct (post_settings_tables w e c t req_body) as (_ & Hset).
  rewrite Hs, Ht in Hset. cbn [fold_left settings_step] in Hset. rewrite Hw in Hset.
  fold e' in Hset.
  assert (Hread : read_settings (settings_at (userId t) e') = s).
  { unfold settings_at. rewrite Hset, settings_upsert_same.
    unfold read_settings. cbn [set_settings]. rewrite (JSON_roundtrip s Hwf Hfin).
    reflexivity. }
  split.
  - rewrite get_settings_response, Hread by exact Hw'. reflexivity.
  - rewrite get_sync_response, Hread by exact Hw'. eexists. split; reflexivity.
Qed.

Lemma posted_settings_are_read_back_witness :
  snd (get_settings quiet_runtime
         (fst (post_settings quiet_runtime fresh_engine a_client a_user
                 [("settings", JObj [("height", JInt 181)])]))
         a_user)
  = json 200 [("settings", JObj [("height", JInt 181)])].
Proof.
  exact (proj1 (posted_settings_are_read_back quiet_runtime quiet_runtime fresh_engine
                  a_client a_user
                  (JSON_stringify (JObj [("settings", JObj [("height", JInt 181)])]))
                  [("settings", JObj [("height", JInt 181)])]
                  (JObj [("height", JInt 181)])
                  (fun q => eq_refl) (fun q => eq_refl) eq_refl eq_refl eq_refl
                  eq_refl)).
Defined.

Lemma get_prop_In k (o : jsobj) v : get_prop k o = Some v -> In (k, v) o.
Proof.
  induction o as [|[k' v'] o IH]; [discriminate|]. cbn [get_prop].
  destruct (String.eqb_spec k k') as [->|_].
  - intros [= ->]. left. reflexivity.
  - intros H. right. exact (IH H).
Qed.

(** What a bulk POST leaves under a month-key of one of its sections. *)
Lemma post_sync_docs_at w e c t req_body k mk v :
  healthy w ->
  In (mk, v) (section_entries (get_prop (kind_name k) req_body)) ->
  nodup_keys (map fst (section_entries (get_prop (kind_name k) req_body))) = true ->
  docs_at (userId t) k mk (fst (post_sync w e c t req_body)) = [JSON_stringify v].
Proof.
  intros Hw Hin Hnd.
  destruct (post_sync_keeps_accepted_writes w e c t req_body (Hw COMMIT)) as (Hd & _).
  unfold docs_at, doc_rows_at.
  rewrite Hd, docs_fold_doc_step by assumption.
  pose proof (stmt_writes_request (userId t) k mk
                {| from := c; user := t; call := PostSync req_body |}) as Hreq.
  unfold data_writes, request_writes in Hreq. cbn [call user] in Hreq.
  rewrite Nat.eqb_refl in Hreq. rewrite Hreq.
  rewrite (unique_entry _ mk v Hin Hnd). reflexivity.
Qed.

(** What the reads show under a month-key that holds one payload. *)
Lemma read_one u k mk e text :
  mk <> "__proto__" -> docs_at u k mk e = [text] ->
  get_prop mk
    (build_docs
       (order_by_desc doc_month_key
          (filter (fun r => Nat.eqb (doc_user_id r) u) (rows (doc_table k (db e))))))
  = JSON_parse text.
Proof.
  intros Hmk H. unfold docs_at in H. apply map_singleton in H.
  destruct H as (row & Hrow & <-).
  destruct (read_back u k mk e Hmk) as (Hone & _). exact (Hone row Hrow).
Qed.

(** A bulk POST on an engine with no fault and a connection with no
    transaction open, then a bulk GET by the same user: when no number of
    the body that [express.json] parsed is beyond the doubles, every document of an object section is shown under its
    month-key ([__proto__] apart), and a settings section that is an object
    or an array is shown as the settings. *)
Theorem bulk_write_is_read_back (w w' : runtime) (e : engine) (c : client) (t : token)
    (text : string) (req_body : jsobj) :
  healthy w -> healthy w' -> txn e = None ->
  JSON_parse text = Some (JObj req_body) ->
  finite_json (JObj req_body) = true ->
  exists nutrition workouts settings others,
    snd (get_sync w' (fst (post_sync w e c t req_body)) c t)
    = json 200
        (("nutrition", JObj nutrition) :: ("workouts", JObj workouts)
         :: ("settings", settings) :: others)
    /\ (forall k o mk v,
          get_prop (kind_name k) req_body = Some (JObj o) ->
          get_prop mk o = Some v -> mk <> "__proto__" ->
          get_prop mk match k with Nutrition => nutrition | Workout => workouts end
          = Some v)
    /\ (forall s,
          get_prop "settings" req_body = Some s -> is_object (Some s) = true ->
          settings = s).
Proof.
  intros Hw Hw' _ Hbody Hfin.
  pose proof (JSON_parse_wf _ _ Hbody) as Hwf.
  rewrite get_sync_response by exact Hw'.
  eexists _, _, _, _. split; [reflexivity|]. split.
  - intros k o mk v Hsec Hv Hmk.
    assert (Hwfo : wf_json (JObj o) = true) by exact (wf_json_prop _ _ _ Hwf Hsec).
    assert (Hwfv : wf_json v = true) by exact (wf_json_prop _ _ _ Hwfo Hv).
    assert (Hdocs : docs_at (userId t) k mk (fst (post_sync w e c t req_body))
                    = [JSON_stringify v]).
    { apply post_sync_docs_at; [exact Hw | |]; rewrite Hsec; cbn.
      - apply get_prop_In, Hv.
      - cbn [wf_json] in Hwfo. apply andb_true_iff in Hwfo.
        destruct Hwfo as [Hkeys _]. apply andb_true_iff in Hkeys. apply Hkeys. }
    assert (Hfinv : finite_json v = true)
      by exact (finite_json_prop _ _ _ (finite_json_prop _ _ _ Hfin Hsec) Hv).
    destruct k; rewrite (read_one _ _ _ _ _ Hmk Hdocs); apply JSON_roundtrip;
      assumption.
  - intros s Hs Hobj.
    unfold settings_at. rewrite (post_sync_settings w e c t req_body s Hw Hs Hobj).
    rewrite settings_upsert_same. unfold read_settings. cbn [set_settings].
    rewrite (JSON_roundtrip s (wf_json_prop _ _ _ Hwf Hs)
               (finite_json_prop _ _ _ Hfin Hs)).
    reflexivity.
Qed.

Lemma bulk_write_is_read_back_witness :
  exists nutrition workouts settings others,
    snd (get_sync quiet_runtime
           (fst (post_sync quiet_runtime fresh_engine a_client a_user two_months))
           a_client a_user)
    = json 200
        (("nutrition", JObj nutrition) :: ("workouts", JObj workouts)
         :: ("settings", settings) :: others)
    /\ get_prop "2025-08" nutrition = Some surplus_plan.
Proof.
  destruct (bulk_write_is_read_back quiet_runtime quiet_runtime fresh_engine a_client
              a_user (JSON_stringify (JObj two_months)) two_months
              (fun q => eq_refl) (fun q => eq_refl) eq_refl eq_refl eq_refl)
    as (nutrition & workouts & settings & others & Hresp & Hdocs & _).
  exists nutrition, workouts, settings, others. split; [exact Hresp|].
  apply (Hdocs Nutrition [("2025-07", deficit_plan); ("2025-08", surplus_plan)]
           "2025-08" surplus_plan); [reflexivity | reflexivity | discriminate].
Defined.

(** ** The separation of users *)

Lemma doc_step_other_user w k t q u :
  match q with UpsertDoc _ u' _ _ => u' <> u | _ => True end ->
  filter (fun r => Nat.eqb (doc_user_id r) u) (rows (doc_step w k t q))
  = filter (fun r => Nat.eqb (doc_user_id r) u) (rows t).
Proof.
  intros Hq. unfold doc_step.
  destruct q as [ | | | em ph nm | k' u' mk data | u' s | u' act det ipa ag | em
                | k' u' | u' | u' lim ]; try reflexivity.
  destruct (kind_eqb k' k); [|reflexivity].
  destruct (rejects w _); [reflexivity|].
  cbn [upsert_doc fst rows]. rewrite filter_app. cbn [filter doc_user_id].
  destruct (Nat.eqb_spec u' u) as [Heq|_]; [contradiction|]. rewrite app_nil_r.
  apply filter_keeps. intros r Hr. apply Nat.eqb_eq in Hr. unfold same_doc_key.
  destruct (Nat.eqb_spec (doc_user_id r) u'); [congruence | reflexivity].
Qed.

Lemma settings_step_other_user w t q u :
  match q with UpsertSettings u' _ => u' <> u | _ => True end ->
  find (fun r => Nat.eqb (set_user_id r) u) (rows (settings_step w t q))
  = find (fun r => Nat.eqb (set_user_id r) u) (rows t).
Proof.
  intros Hq. unfold settings_step.
  destruct q as [ | | | em ph nm | k' u' mk data | u' s | u' act det ipa ag | em
                | k' u' | u' | u' lim ]; try reflexivity.
  destruct (rejects w _); [reflexivity|].
  apply settings_upsert_other. congruence.
Qed.

(** The upserts of a request are under the user of its token. *)
Lemma data_writes_user r q :
  In q (data_writes r) ->
  match q with
  | UpsertDoc _ u _ _ | UpsertSettings u _ => u = userId (user r)
  | _ => True
  end.
Proof.
  unfold data_writes.
  destruct (call r) as [b| |req_body|k|k mk req_body| |req_body|limit];
    try contradiction.
  - intros Hq. apply in_sync_writes in Hq.
    destruct Hq as [(kv & _ & ->)|[(kv & _ & ->)|(s & _ & ->)]]; reflexivity.
  - destruct (get_prop "data" req_body) as [d|]; [|contradiction].
    destruct (truthy d); [|contradiction]. intros [<-|[]]. reflexivity.
  - destruct (get_prop "settings" req_body) as [s|]; [|contradiction].
    destruct (truthy s); [|contradiction]. intros [<-|[]]. reflexivity.
Qed.

Lemma handle_other_user w e r u :
  rejects w COMMIT = None -> userId (user r) <> u ->
  (forall k,
     filter (fun row => Nat.eqb (doc_user_id row) u)
       (rows (doc_table k (db (fst (handle w e r)))))
     = filter (fun row => Nat.eqb (doc_user_id row) u) (rows (doc_table k (db e))))
  /\ settings_at u (fst (handle w e r)) = settings_at u e.
Proof.
  intros Hc Hu. destruct (handle_tables w e r Hc) as (Hd & Hs).
  assert (Hdocs : forall k qs t,
            (forall q, In q qs -> In q (data_writes r)) ->
            filter (fun row => Nat.eqb (doc_user_id row) u)
              (rows (fold_left (doc_step w k) qs t))
            = filter (fun row => Nat.eqb (doc_user_id row) u) (rows t)).
  { intros k qs. induction qs as [|q qs IH]; intros t Hin; [reflexivity|].
    cbn [fold_left]. rewrite IH by (intros q' Hq'; apply Hin; right; exact Hq').
    apply doc_step_other_user.
    pose proof (data_writes_user r q (Hin q (or_introl eq_refl))) as Hq.
    destruct q; try exact I. congruence. }
  assert (Hset : forall qs t,
            (forall q, In q qs -> In q (data_writes r)) ->
            find (fun row => Nat.eqb (set_user_id row) u)
              (rows (fold_left (settings_step w) qs t))
            = find (fun row => Nat.eqb (set_user_id row) u) (rows t)).
  { intros qs. induction qs as [|q qs IH]; intros t Hin; [reflexivity|].
    cbn [fold_left]. rewrite IH by (intros q' Hq'; apply Hin; right; exact Hq').
    apply settings_step_other_user.
    pose proof (data_writes_user r q (Hin q (or_introl eq_refl))) as Hq.
    destruct q; try exact I. congruence. }
  split.
  - intros k. rewrite Hd. apply Hdocs. auto.
  - unfold settings_at. rewrite Hs. apply Hset. auto.
Qed.

(** What a user reads depends on the rows of that user alone. *)
Lemma reads_of_a_user w e1 e2 c t :
  (forall k,
     filter (fun row => Nat.eqb (doc_user_id row) (userId t)) (rows (doc_table k (db e1)))
     = filter (fun row => Nat.eqb (doc_user_id row) (userId t))
         (rows (doc_table k (db e2)))) ->
  settings_at (userId t) e1 = settings_at (userId t) e2 ->
  snd (get_sync w e1 c t) = snd (get_sync w e2 c t)
  /\ (forall k, snd (get_docs k w e1 t) = snd (get_docs k w e2 t))
  /\ snd (get_settings w e1 t) = snd (get_settings w e2 t).
Proof.
  intros Hd Hs. unfold settings_at in Hs. split; [|split].
  - unfold get_sync, db_all_docs, db_get_settings.
    rewrite (Hd Nutrition), (Hd Workout), Hs.
    destruct (rejects w (SelectDocs Nutrition (userId t))); [reflexivity|].
    destruct (rejects w (SelectDocs Workout (userId t))); [reflexivity|].
    destruct (rejects w (SelectSettings (userId t))); reflexivity.
  - intros k. unfold get_docs, db_all_docs. rewrite (Hd k).
    destruct (rejects w (SelectDocs k (userId t))); reflexivity.
  - unfold get_settings, db_get_settings. rewrite Hs.
    destruct (rejects w (SelectSettings (userId t))); reflexivity.
Qed.

(** No request changes what another user reads: when the engine lets COMMIT
    through, whatever else it rejects, the answers of GET /api/sync, GET
    /api/nutrition, GET /api/workouts and GET /api/settings to a user are
    the same after a request made with the token of a different user as
    before it. *)
Theorem other_users_read_the_same (w w' : runtime) (e : engine) (r : request)
    (c : client) (t : token) :
  rejects w COMMIT = None -> userId (user r) <> userId t ->
  snd (get_sync w' (fst (handle w e r)) c t) = snd (get_sync w' e c t)
  /\ (forall k, snd (get_docs k w' (fst (handle w e r)) t) = snd (get_docs k w' e t))
  /\ snd (get_settings w' (fst (handle w e r)) t) = snd (get_settings w' e t).
Proof.
  intros Hc Hu. destruct (handle_other_user w e r (userId t) Hc Hu) as (Hd & Hs).
  apply reads_of_a_user; assumption.
Qed.

Lemma other_users_read_the_same_witness :
  snd (get_docs Nutrition quiet_runtime
         (fst (handle quiet_runtime
                 (with_nutrition [doc 1 1 "2025-07" (JSON_stringify deficit_plan)])
                 {| from := a_client;
                    user := {| userId := 2; email := "bruno@example.org" |};
                    call := PostDoc Nutrition "2025-07" [("data", surplus_plan)] |}))
         a_user)
  = json 200 [("nutrition", JObj [("2025-07", deficit_plan)])].
Proof.
  rewrite (proj1 (proj2
    (other_users_read_the_same quiet_runtime quiet_runtime
       (with_nutrition [doc 1 1 "2025-07" (JSON_stringify deficit_plan)])
       {| from := a_client; user := {| userId := 2; email := "bruno@example.org" |};
          call := PostDoc Nutrition "2025-07" [("data", surplus_plan)] |}
       a_client a_user eq_refl ltac:(discriminate))) Nutrition).
  reflexivity.
Defined.

(** * Row ids *)

(** AUTOINCREMENT hands out an id above that of every row. *)
Lemma next_rowid_above {R : Type} (id : R -> nat) (t : table R) (r : R) :
  In r (rows t) -> id r < next_rowid id t.
Proof.
  unfold next_rowid. generalize (seq t). intros s.
  induction (rows t) as [|a l IH]; [intros []|].
  cbn [map fold_right]. intros [->|H]; [lia|]. specialize (IH H). lia.
Qed.

(** * The activity log of a user *)

Lemma ltb_asym (a b : string) : String.ltb a b = true -> String.ltb b a = false.
Proof.
  unfold String.ltb. rewrite (String.compare_antisym a b).
  destruct (String.compare b a); cbn; congruence.
Qed.

Lemma descending_tail {R : Type} (key : R -> string) (a : R) (l : list R) :
  descending key (a :: l) = true -> descending key l = true.
Proof. cbn [descending]. intros H. apply andb_true_iff in H. apply H. Qed.

Lemma insert_desc_descending {R : Type} (key : R -> string) (x : R) (l : list R) :
  descending key l = true -> descending key (insert_desc key x l) = true.
Proof.
  induction l as [|y l IH]; intros Hl; [reflexivity|].
  cbn [insert_desc]. destruct (String.ltb (key x) (key y)) eqn:Hxy.
  - specialize (IH (descending_tail key y l Hl)).
    cbn [descending]. rewrite IH, andb_true_r.
    destruct l as [|z l]; cbn [insert_desc].
    + rewrite (ltb_asym _ _ Hxy). reflexivity.
    + destruct (String.ltb (key x) (key z)).
      * cbn [descending] in Hl. apply andb_true_iff in Hl. apply Hl.
      * rewrite (ltb_asym _ _ Hxy). reflexivity.
  - change (descending key (x :: y :: l))
      with (negb (String.ltb (key x) (key y)) && descending key (y :: l)).
    rewrite Hxy, Hl. reflexivity.
Qed.

Lemma order_by_desc_descending {R : Type} (key : R -> string) (l : list R) :
  descending key (order_by_desc key l) = true.
Proof.
  induction l as [|x l IH]; [reflexivity|].
  apply insert_desc_descending, IH.
Qed.

Lemma firstn_descending {R : Type} (key : R -> string) (n : nat) (l : list R) :
  descending key l = true -> descending key (firstn n l) = true.
Proof.
  revert l. induction n as [|n IH]; intros l Hl; [reflexivity|].
  destruct l as [|a l]; [reflexivity|].
  cbn [firstn]. specialize (IH l (descending_tail key a l Hl)).
  cbn [descending]. rewrite IH, andb_true_r.
  destruct l as [|b l]; [destruct n; reflexivity|].
  destruct n as [|n]; [reflexivity|]. cbn [firstn].
  cbn [descending] in Hl. apply andb_true_iff in Hl. apply Hl.
Qed.

Lemma firstn_incl {A : Type} (n : nat) (l : list A) (x : A) :
  In x (firstn n l) -> In x l.
Proof.
  revert l. induction n as [|n IH]; intros l; [intros []|].
  destruct l as [|a l]; [intros []|].
  cbn [firstn]. intros [->|H]; [left; reflexivity | right; exact (IH l H)].
Qed.

Lemma sql_limit_incl {R : Type} (n : Z) (l : list R) (x : R) :
  In x (sql_limit n l) -> In x l.
Proof. unfold sql_limit. destruct (n <? 0)%Z; [auto | apply firstn_incl]. Qed.

Lemma sql_limit_descending {R : Type} (key : R -> string) (n : Z) (l : list R) :
  descending key l = true -> descending key (sql_limit n l) = true.
Proof. unfold sql_limit. destruct (n <? 0)%Z; [auto | apply firstn_descending]. Qed.

(** ** [parseInt] of a decimal numeral *)

Lemma hex_val_digit c :
  is_digit c = true -> hex_val c = Some (Z.to_N (digit_val c)) /\ (0 <= digit_val c < 10)%Z.
Proof.
  intros H. unfold hex_val. rewrite H. unfold digit_val.
  unfold is_digit in H. apply andb_true_iff in H. destruct H as [H1 H2].
  apply N.leb_le in H1, H2. split; [f_equal|]; lia.
Qed.

Lemma radix_prefix_digits ds :
  Forall (fun c => is_digit c = true) ds ->
  forall a, (0 <= a)%Z ->
    radix_prefix 10 (Some a) ds = Some (val_from a ds).
Proof.
  induction 1 as [|c ds Hc _ IH]; intros a Ha; [reflexivity|].
  destruct (hex_val_digit c Hc) as [Hv Hr].
  cbn [radix_prefix]. rewrite Hv.
  destruct (N.ltb_spec (Z.to_N (digit_val c)) 10) as [_|Hge]; [|lia].
  rewrite IH by lia. unfold val_from. cbn [fold_left]. f_equal. f_equal. lia.
Qed.

Lemma skip_js_space_digit c ds :
  is_digit c = true -> skip_js_space (c :: ds) = c :: ds.
Proof.
  unfold is_digit. intros H. apply andb_true_iff in H. destruct H as [H1 H2].
  apply N.leb_le in H1, H2.
  assert (Hsp : is_js_space c = false).
  { unfold is_js_space. apply orb_false_iff. split.
    - apply andb_false_iff. right. apply N.leb_gt. lia.
    - apply N.eqb_neq. lia. }
  assert (Hne : forall n, (58 <= n)%N -> (code c =? n)%N = false)
    by (intros n Hn; apply N.eqb_neq; lia).
  cbn [skip_js_space]. rewrite Hsp.
  destruct ds as [|c2 r2]; [reflexivity|].
  unfold is_js_space2. rewrite (Hne 194%N) by lia. cbn [andb].
  destruct r2 as [|c3 r3]; [reflexivity|].
  unfold is_js_space3.
  rewrite (Hne 225%N), (Hne 226%N), (Hne 227%N), (Hne 239%N) by lia.
  reflexivity.
Qed.

Lemma parseInt_decimal (n : nat) :
  parseInt (Some (nat_to_string n)) = Some (Z.of_nat n).
Proof.
  unfold parseInt, nat_to_string. rewrite list_ascii_of_string_of_list_ascii.
  destruct (digits_spec (Z.of_nat n) ltac:(lia)) as (Hall & Hval & Hne & _).
  destruct (digits (Z.of_nat n)) as [|c ds] eqn:Hd; [contradiction|].
  inversion Hall as [|? ? Hc Hds]; subst.
  rewrite (skip_js_space_digit c ds Hc).
  assert (Hminus : Ascii.eqb c "-" = false).
  { destruct (Ascii.eqb_spec c "-") as [->|]; [discriminate Hc | reflexivity]. }
  assert (Hplus : Ascii.eqb c "+" = false).
  { destruct (Ascii.eqb_spec c "+") as [->|]; [discriminate Hc | reflexivity]. }
  rewrite Hminus, Hplus.
  assert (Hradix :
    match c :: ds with
    | z :: x :: r =>
        if Ascii.eqb z "0" && (Ascii.eqb x "x" || Ascii.eqb x "X")
        then (16%N, r) else (10%N, c :: ds)
    | _ => (10%N, c :: ds)
    end = (10%N, c :: ds)).
  { destruct ds as [|x r]; [reflexivity|].
    inversion Hds as [|? ? Hx _]; subst.
    destruct (Ascii.eqb_spec x "x") as [->|]; [discriminate Hx|].
    destruct (Ascii.eqb_spec x "X") as [->|]; [discriminate Hx|].
    rewrite andb_false_r. reflexivity. }
  rewrite Hradix.
  destruct (hex_val_digit c Hc) as [Hv Hr].
  cbn [radix_prefix]. rewrite Hv.
  destruct (N.ltb_spec (Z.to_N (digit_val c)) 10) as [_|Hge]; [|lia].
  rewrite radix_prefix_digits by (assumption || lia).
  specialize (Hval 0%Z). unfold val_from in Hval |- *. cbn [fold_left] in Hval.
  f_equal. rewrite <- (Z.add_0_l (Z.of_nat n)).
  replace (0 * 10 ^ Z.of_nat (length (c :: ds)))%Z with 0%Z in Hval by lia.
  rewrite <- Hval. f_equal. lia.
Qed.

(** GET /api/logs gives a user rows of that user's own log and no others,
    never a row before a newer one, and as many as the limit lets through:
    with a limit that is not negative, the smaller of the limit and the
    number of the user's rows; a limit written as the decimal numeral of
    n > 0 is the smaller of n and 100. *)
Theorem logs_are_the_callers_newest_first (w : runtime) (e : engine) (t : token)
    (q : option string) :
  rejects w (SelectLogs (userId t) (logs_limit q)) = None ->
  exists rs,
    snd (get_logs w e t q) = json 200 [("logs", JArr (map log_json rs))]
    /\ (forall r, In r rs ->
          In r (rows (activity_logs (db e))) /\ log_user_id r = Some (userId t))
    /\ descending log_timestamp rs = true
    /\ ((0 <= logs_limit q)%Z ->
        length rs
        = Nat.min (Z.to_nat (logs_limit q))
            (length (filter (log_of_user (userId t)) (rows (activity_logs (db e))))))
    /\ (forall n, 0 < n -> q = Some (nat_to_string n) ->
          logs_limit q = Z.of_nat (Nat.min n 100)).
Proof.
  intros Hq. unfold get_logs, db_all_logs. rewrite Hq. cbn [snd].
  eexists. split; [reflexivity|].
  set (mine := filter (log_of_user (userId t)) (rows (activity_logs (db e)))).
  split; [|split; [|split]].
  - intros r Hr. apply sql_limit_incl in Hr.
    apply (Permutation_in _ (order_by_desc_perm log_timestamp mine)) in Hr.
    apply filter_In in Hr. destruct Hr as [Hin Hu]. split; [exact Hin|].
    unfold log_of_user in Hu. destruct (log_user_id r) as [u'|]; [|discriminate Hu].
    apply Nat.eqb_eq in Hu. congruence.
  - apply sql_limit_descending, order_by_desc_descending.
  - intros Hpos. unfold sql_limit.
    destruct (Z.ltb_spec (logs_limit q) 0) as [Hneg|_]; [lia|].
    rewrite length_firstn.
    rewrite (Permutation_length (order_by_desc_perm log_timestamp mine)). reflexivity.
  - intros n Hn ->. unfold logs_limit. rewrite parseInt_decimal.
    destruct (Z.eqb_spec (Z.of_nat n) 0) as [H0|_]; lia.
Qed.

Lemma logs_are_the_callers_newest_first_witness :
  exists rs,
    snd (get_logs quiet_runtime (with_logs [login_log 1; login_log 2; login_log 3])
           a_user (Some "2"))
    = json 200 [("logs", JArr (map log_json rs))]
    /\ length rs = 2.
Proof.
  destruct (logs_are_the_callers_newest_first quiet_runtime
              (with_logs [login_log 1; login_log 2; login_log 3]) a_user (Some "2")
              eq_refl) as (rs & Hresp & _ & _ & Hlen & _).
  exists rs. split; [exact Hresp|]. rewrite Hlen; [reflexivity | cbv; discriminate].
Defined.

(** * A section that is an array *)

Lemma nat_to_string_inj (a b : nat) : nat_to_string a = nat_to_string b -> a = b.
Proof.
  unfold nat_to_string. intros H.
  apply (f_equal list_ascii_of_string) in H.
  rewrite !list_ascii_of_string_of_list_ascii in H.
  apply (f_equal digits_value) in H.
  rewrite !digits_value_digits in H by lia. lia.
Qed.

Lemma index_from_keys i l k :
  In k (map fst (index_from i l)) -> exists j, i <= j /\ k = nat_to_string j.
Proof.
  revert i. induction l as [|x l IH]; intros i; [intros []|].
  cbn [index_from map fst]. intros [<-|H].
  - exists i. split; [lia | reflexivity].
  - destruct (IH (S i) H) as (j & Hj & ->). exists j. split; [lia | reflexivity].
Qed.

Lemma index_from_nodup i l : nodup_keys (map fst (index_from i l)) = true.
Proof.
  revert i. induction l as [|x l IH]; intros i; [reflexivity|].
  cbn [index_from map fst nodup_keys]. rewrite IH, andb_true_r.
  apply negb_true_iff. destruct (existsb _ _) eqn:E; [|reflexivity].
  apply existsb_exists in E. destruct E as (k & Hin & Heq).
  apply String.eqb_eq in Heq. subst k.
  destruct (index_from_keys (S i) l _ Hin) as (j & Hj & Heq).
  apply nat_to_string_inj in Heq. lia.
Qed.

Lemma index_from_nth i l j v :
  nth_error l j = Some v -> In (nat_to_string (i + j), v) (index_from i l).
Proof.
  revert i j. induction l as [|x l IH]; intros i j; [destruct j; discriminate|].
  destruct j as [|j]; cbn [nth_error index_from].
  - intros [= ->]. left. rewrite Nat.add_0_r. reflexivity.
  - intros H. right. rewrite <- Nat.add_succ_comm. exact (IH (S i) j H).
Qed.

(** An array passes the guard of a section of a bulk POST
    ([x && typeof x === 'object']): on an engine with no fault each of its
    items is stored as the document of the month-key that is the decimal
    numeral of its index. *)
Theorem array_section_is_stored_by_index (w : runtime) (e : engine) (c : client)
    (t : token) (req_body : jsobj) (k : kind) (l : list jsval) (i : nat) (v : jsval) :
  healthy w ->
  get_prop (kind_name k) req_body = Some (JArr l) ->
  nth_error l i = Some v ->
  docs_at (userId t) k (nat_to_string i) (fst (post_sync w e c t req_body))
  = [JSON_stringify v].
Proof.
  intros Hw Hsec Hi. apply post_sync_docs_at; [exact Hw | |]; rewrite Hsec; cbn.
  - exact (index_from_nth 0 l i v Hi).
  - apply index_from_nodup.
Qed.

Lemma array_section_is_stored_by_index_witness :
  docs_at 1 Workout "1"
    (fst (post_sync quiet_runtime fresh_engine a_client a_user
            [("workouts", JArr [deficit_plan; surplus_plan])]))
  = [JSON_stringify surplus_plan].
Proof.
  exact (array_section_is_stored_by_index quiet_runtime fresh_engine a_client a_user
           [("workouts", JArr [deficit_plan; surplus_plan])] Workout
           [deficit_plan; surplus_plan] 1 surplus_plan
           (fun q => eq_refl) eq_refl eq_refl).
Defined.

(** * Reads and saves *)

Lemma get_sync_users w e c t :
  users (db (fst (get_sync w e c t))) = users (db e)
  /\ txn (fst (get_sync w e c t)) = txn e.
Proof.
  unfold get_sync.
  destruct (db_all_docs w e Nutrition (userId t)) as [nrows|m]; cbn [fst];
    [|split; [apply logActivity_users | apply logActivity_tables]].
  destruct (db_all_docs w e Workout (userId t)) as [wrows|m]; cbn [fst];
    [|split; [apply logActivity_users | apply logActivity_tables]].
  destruct (db_get_settings w e (userId t)) as [srow|m]; cbn [fst];
    split; first [apply logActivity_users | apply logActivity_tables].
Qed.

(** A GET changes no data, whatever the engine rejects and whatever the
    token: accounts, documents, settings and the transaction are after it
    as before it.  GET /api/sync writes to the activity log; after every
    other GET the store is the same in full. *)
Theorem reads_change_no_data (h : host) (e : engine) (r : http_request) :
  is_read (target r) = true ->
  users (db (fst (application h e r))) = users (db e)
  /\ (forall k, doc_table k (db (fst (application h e r))) = doc_table k (db e))
  /\ user_settings (db (fst (application h e r))) = user_settings (db e)
  /\ txn (fst (application h e r)) = txn e
  /\ (target r <> Api GetSync -> fst (application h e r) = e).
Proof.
  intros Hr. unfold application.
  destruct (target r) as [ | b | | a ]; try discriminate Hr; cbn [fst].
  - repeat split; reflexivity.
  - destruct (authenticateToken h (authorization r)); repeat split; reflexivity.
  - destruct (authenticateToken h (authorization r)) as [denied|t].
    + destruct a; try discriminate Hr; repeat split; reflexivity.
    + unfold handle. cbn [call from user].
      destruct a as [b| |req_body|k|k mk req_body| |req_body|limit];
        try discriminate Hr; cbn [some_response fst].
      * destruct (get_sync_users (rt h) e (peer r) t) as (Hu & Ht).
        destruct (get_sync_tables (rt h) e (peer r) t) as (Hd & Hs).
        split; [exact Hu|]. split; [exact Hd|]. split; [exact Hs|].
        split; [exact Ht|]. intros Hne. contradiction.
      * rewrite get_docs_engine. repeat split; reflexivity.
      * rewrite get_settings_engine. repeat split; reflexivity.
      * rewrite get_logs_engine. repeat split; reflexivity.
Qed.

Lemma reads_change_no_data_witness :
  nutrition_data
    (db (fst (application (busy_host "2025-07")
                (with_nutrition three_rows)
                {| peer := a_client;
                   authorization := Some "Bearer token.anna@example.org";
                   target := Api GetSync |})))
  = nutrition_data (db (with_nutrition three_rows)).
Proof.
  exact (proj1 (proj2
    (reads_change_no_data (busy_host "2025-07") (with_nutrition three_rows)
       {| peer := a_client; authorization := Some "Bearer token.anna@example.org";
          target := Api GetSync |} eq_refl)) Nutrition).
Defined.

(** The [rowId] that a per-resource POST answers is the id of the one row
    that holds the document afterwards, and it is above the id of every row
    the table had: a month saved again is a new row under a new id, with the
    payload as [JSON.stringify] wrote it and the time of the engine. *)
Theorem saved_document_is_the_row_answered (k : kind) (w : runtime) (e : engine)
    (c : client) (t : token) (mk : string) (req_body : jsobj) (d : jsval) :
  healthy w -> get_prop "data" req_body = Some d -> truthy d = true ->
  exists id,
    snd (post_doc k w e c t mk req_body)
    = json 200 [("message",
                 JStr match k with
                      | Nutrition => "Dati nutrizionali salvati"
                      | Workout => "Dati allenamenti salvati"
                      end);
                ("monthKey", JStr mk);
                ("rowId", JInt (Z.of_nat id))]
    /\ doc_rows_at (userId t) k mk (fst (post_doc k w e c t mk req_body))
       = [{| doc_id := id; doc_user_id := userId t; doc_month_key := mk;
             doc_data := JSON_stringify d;
             doc_updated_at := current_timestamp w |}]
    /\ forall row, In row (rows (doc_table k (db e))) -> doc_id row < id.
Proof.
  intros Hw Hd Ht.
  destruct (post_doc_tables k w e c t mk req_body) as (Hdocs & _).
  rewrite Hd, Ht in Hdocs. cbn [fold_left doc_step] in Hdocs.
  specialize (Hdocs k). rewrite kind_eqb_refl, Hw in Hdocs.
  exists (next_rowid doc_id (doc_table k (db e))).
  split; [|split].
  - unfold post_doc. rewrite Hd, Ht. unfold exec. rewrite Hw.
    cbn [upsert_doc fst snd]. destruct k; reflexivity.
  - unfold doc_rows_at. rewrite Hdocs. cbn [upsert_doc fst rows].
    rewrite filter_app, filter_none.
    + cbn [filter app]. unfold same_doc_key. cbn [doc_user_id doc_month_key].
      rewrite Nat.eqb_refl, String.eqb_refl. reflexivity.
    + intros x Hx. rewrite Hx. reflexivity.
  - intros row. apply next_rowid_above.
Qed.

Lemma saved_document_is_the_row_answered_witness :
  exists id,
    snd (post_doc Nutrition quiet_runtime
           (with_nutrition [doc 1 1 "2025-07" (JSON_stringify deficit_plan)])
           a_client a_user "2025-07" [("data", surplus_plan)])
    = json 200 [("message", JStr "Dati nutrizionali salvati");
                ("monthKey", JStr "2025-07");
                ("rowId", JInt (Z.of_nat id))]
    /\ 1 < id.
Proof.
  destruct (saved_document_is_the_row_answered Nutrition quiet_runtime
              (with_nutrition [doc 1 1 "2025-07" (JSON_stringify deficit_plan)])
              a_client a_user "2025-07" [("data", surplus_plan)] surplus_plan
              (fun q => eq_refl) eq_refl eq_refl)
    as (id & Hresp & _ & Habove).
  exists id. split; [exact Hresp|].
  apply (Habove (doc 1 1 "2025-07" (JSON_stringify deficit_plan))).
  left. reflexivity.
Defined.

(** * The bulk routes and the per-resource routes *)

(** A bulk POST of one document and the per-resource POST of the same
    document leave the same document table, on an engine with no fault and
    for a truthy document.  A falsy document (null, false, 0, '') parts
    them: POST /api/<kind>/:monthKey refuses it with 400 and stores nothing,
    POST /api/sync has no such check and stores it. *)
Theorem bulk_and_resource_writes_agree (w : runtime) (e : engine) (c : client)
    (t : token) (k : kind) (mk : string) (d : jsval) :
  healthy w ->
  let bulk := fst (post_sync w e c t [(kind_name k, JObj [(mk, d)])]) in
  let single := post_doc k w e c t mk [("data", d)] in
  (truthy d = true -> forall k', doc_table k' (db bulk) = doc_table k' (db (fst single)))
  /\ (truthy d = false ->
      fst single = e
      /\ error_code (snd single) = Some (JStr "MISSING_DATA")
      /\ docs_at (userId t) k mk bulk = [JSON_stringify d]).
Proof.
  intros Hw bulk single.
  destruct (post_sync_keeps_accepted_writes w e c t [(kind_name k, JObj [(mk, d)])]
              (Hw COMMIT)) as (Hb & _).
  fold bulk in Hb.
  assert (Hwrites : sync_writes (userId t) [(kind_name k, JObj [(mk, d)])]
                    = [UpsertDoc k (userId t) mk (JSON_stringify d)])
    by (destruct k; reflexivity).
  rewrite Hwrites in Hb. split.
  - intros Ht k'. destruct (post_doc_tables k w e c t mk [("data", d)]) as (Hs & _).
    cbn [get_prop] in Hs. rewrite String.eqb_refl, Ht in Hs.
    unfold single. rewrite Hb, Hs. reflexivity.
  - intros Hf. unfold single, post_doc. cbn [get_prop]. rewrite String.eqb_refl, Hf.
    split; [reflexivity|]. split; [reflexivity|].
    unfold bulk. apply post_sync_docs_at; [exact Hw | |]; destruct k; cbn;
      (left; reflexivity) || reflexivity.
Qed.

Lemma bulk_and_resource_writes_agree_witness :
  docs_at 1 Nutrition "2025-07"
    (fst (post_sync quiet_runtime fresh_engine a_client a_user
            [("nutrition", JObj [("2025-07", JNull)])]))
  = ["null"]
  /\ fst (post_doc Nutrition quiet_runtime fresh_engine a_client a_user "2025-07"
            [("data", JNull)])
     = fresh_engine.
Proof.
  destruct (proj2 (bulk_and_resource_writes_agree quiet_runtime fresh_engine a_client
                     a_user Nutrition "2025-07" JNull (fun q => eq_refl)) eq_refl)
    as (Hsingle & _ & Hbulk).
  split; [exact Hbulk | exact Hsingle].
Defined.

(** * A registration whose password is no string *)

Lemma find_email_free em (t : table user_row) :
  email_taken em t = false ->
  find (fun r => String.eqb (usr_email r) em) (rows t) = None.
Proof.
  intros H. apply find_none. intros r Hr. exact (email_free em t H r Hr).
Qed.

(** The handler compares [password.length] with 6 and does not ask whether
    the password is a string.  A truthy password that is no string never
    makes an account: the store is left as it is and the answer is not 201.
    One that has no length (a number, [true], an object with no property of
    that name) is not stopped by the length check: when the engine answers
    the lookup, the request is answered EMAIL_EXISTS for the email of a
    stored user, and for a new email with the 500 of [bcrypt.hash], which
    refuses data that is no string.  An array is measured by the number of
    its items. *)
Theorem password_that_is_no_string (h : host) (e : engine) (c : client)
    (req_body : jsobj) (em pw : jsval) :
  get_prop "email" req_body = Some em ->
  get_prop "password" req_body = Some pw ->
  truthy em = true -> truthy pw = true ->
  (forall s, pw <> JStr s) ->
  let answer := snd (post_auth_register h e c req_body) in
  fst (post_auth_register h e c req_body) = e
  /\ status answer <> 201
  /\ (match pw with
      | JNum _ _ | JBool _ => True
      | JObj o => get_prop "length" o = None
      | _ => False
      end ->
      rejects (rt h) (SelectUserByEmail (bound h em)) = None ->
      answer
      = if email_taken (bound h em) (users (db e))
        then json 400 [("error", JStr "Email già registrata");
                       ("code", JStr "EMAIL_EXISTS")]
        else handleError (rt h) (bcrypt_type_error h)
               "Errore nella generazione password")
  /\ (forall l, pw = JArr l -> length l < 6 ->
      answer = json 400 [("error", JStr "La password deve avere almeno 6 caratteri");
                         ("code", JStr "PASSWORD_TOO_SHORT")]).
Proof.
  intros Hem Hpw Hte Htp Hns answer.
  assert (Hhash : hashPassword h pw = Err (bcrypt_type_error h)).
  { destruct pw as [ | b | m fd | s | l | o]; try reflexivity.
    exfalso. exact (Hns s eq_refl). }
  assert (Hrun :
    post_auth_register h e c req_body
    = match password_too_short pw with
      | Err m => (e, handleError (rt h) m "Errore nella registrazione")
      | Ok true =>
          (e, json 400 [("error", JStr "La password deve avere almeno 6 caratteri");
                        ("code", JStr "PASSWORD_TOO_SHORT")])
      | Ok false =>
          match rejects (rt h) (SelectUserByEmail (bound h em)) with
          | Some m => (e, handleError (rt h) m "Errore controllo utente esistente")
          | None =>
              if email_taken (bound h em) (users (db e))
              then (e, json 400 [("error", JStr "Email già registrata");
                                 ("code", JStr "EMAIL_EXISTS")])
              else (e, handleError (rt h) (bcrypt_type_error h)
                         "Errore nella generazione password")
          end
      end).
  { unfold post_auth_register, db_get_user_by_email.
    rewrite Hem, Hpw, Hte, Htp. cbn [negb orb].
    destruct (password_too_short pw) as [[|]|m]; try reflexivity.
    destruct (rejects (rt h) (SelectUserByEmail (bound h em))); [reflexivity|].
    destruct (email_taken (bound h em) (users (db e))) eqn:Htaken.
    - destruct (email_taken_find _ _ Htaken) as (row & ->). reflexivity.
    - rewrite (find_email_free _ _ Htaken), Hhash. reflexivity. }
  unfold answer. rewrite Hrun. split; [|split; [|split]].
  - destruct (password_too_short pw) as [[|]|m]; try reflexivity.
    destruct (rejects (rt h) (SelectUserByEmail (bound h em))); [reflexivity|].
    destruct (email_taken (bound h em) (users (db e))); reflexivity.
  - destruct (password_too_short pw) as [[|]|m]; try (cbn; discriminate).
    destruct (rejects (rt h) (SelectUserByEmail (bound h em))); [cbn; discriminate|].
    destruct (email_taken (bound h em) (users (db e))); cbn; discriminate.
  - intros Hpass Hsel.
    assert (Hlen : password_too_short pw = Ok false).
    { destruct pw as [ | b | m fd | s | l | o]; try contradiction; try reflexivity.
      cbn [password_too_short]. rewrite Hpass. reflexivity. }
    rewrite Hlen, Hsel.
    destruct (email_taken (bound h em) (users (db e))); reflexivity.
  - intros l -> Hshort. cbn [password_too_short].
    replace (length l <? 6)%nat with true
      by (symmetry; apply Nat.ltb_lt; exact Hshort).
    reflexivity.
Qed.

Lemma password_that_is_no_string_witness :
  snd (post_auth_register quiet_host (with_users [anna]) a_client
         [("email", JStr "anna@example.org"); ("password", JInt 123)])
  = json 400 [("error", JStr "Email già registrata"); ("code", JStr "EMAIL_EXISTS")]
  /\ snd (post_auth_register quiet_host (with_users [anna]) a_client
            [("email", JStr "bruno@example.org"); ("password", JInt 123)])
     = handleError quiet_runtime "data must be a string or Buffer"
         "Errore nella generazione password"
  /\ fst (post_auth_register quiet_host (with_users [anna]) a_client
            [("email", JStr "bruno@example.org"); ("password", JInt 123)])
     = with_users [anna].
Proof.
  assert (Hnum : forall s, JInt 123 <> JStr s) by (intros s; discriminate).
  destruct (password_that_is_no_string quiet_host (with_users [anna]) a_client
              [("email", JStr "anna@example.org"); ("password", JInt 123)]
              (JStr "anna@example.org") (JInt 123) eq_refl eq_refl eq_refl eq_refl Hnum)
    as (_ & _ & Hstored & _).
  destruct (password_that_is_no_string quiet_host (with_users [anna]) a_client
              [("email", JStr "bruno@example.org"); ("password", JInt 123)]
              (JStr "bruno@example.org") (JInt 123) eq_refl eq_refl eq_refl eq_refl Hnum)
    as (Hstate & _ & Hnew & _).
  split; [exact (Hstored I eq_refl)|]. split; [exact (Hnew I eq_refl) | exact Hstate].
Defined.
